(** * Content workflow pipeline of content-gen: claim verification, compliance
    review and the post-claims stages of the LangGraph pipeline
    (src/app/tools/factcheck.py, src/app/tools/compliance.py,
    src/app/tools/search.py, src/app/graph.py).

    Modelling conventions.
    - Python strings are [string] (ASCII); [str.lower] and the regex classes
      [\d], [\w] are their ASCII versions.
    - Python floats are rationals [Q]: every constant of the scoring code is a
      short decimal and every comparison is against such a constant.
    - A Python exception is the [Exn] branch of [exn_or]; the text carried is
      [str(e)].
    - Dicts are association lists in insertion order, as Python 3.7+ dicts. *)

From Stdlib Require Import String Ascii List Bool Arith Lia QArith Qminmax Lqa Permutation ZArith.
Import ListNotations.
Open Scope string_scope.
Open Scope nat_scope.

(** ** Python regular expressions (the subset used by the sources)

    A backtracking matcher in continuation-passing style, which explores the
    alternatives in the order Python's [re] does: greedy repetition tries one
    more iteration first, lazy repetition tries to stop first, alternation
    tries the left branch first. *)
Module Regex.

Inductive re : Type :=
| RClass (f : ascii -> bool)   (* a one-character class: [a-z], \d, ., a literal *)
| REps                         (* the empty pattern *)
| RBound                       (* \b *)
| RSeq (r1 r2 : re)
| RAlt (r1 r2 : re)
| RStar (greedy : bool) (r : re).

(** [\d]: on ASCII text (all text of this development) it matches exactly
    the digits 0-9; the other Unicode decimal digits it matches in Python lie
    outside ASCII. *)
Definition is_digit (c : ascii) : bool :=
  let n := nat_of_ascii c in (48 <=? n) && (n <=? 57).
Definition is_lower (c : ascii) : bool :=
  let n := nat_of_ascii c in (97 <=? n) && (n <=? 122).
Definition is_upper (c : ascii) : bool :=
  let n := nat_of_ascii c in (65 <=? n) && (n <=? 90).
Definition is_word (c : ascii) : bool :=
  is_digit c || is_lower c || is_upper c || Ascii.eqb c "_"%char.
Definition is_space (c : ascii) : bool :=
  let n := nat_of_ascii c in (n =? 32) || ((9 <=? n) && (n <=? 13)).

Definition word_opt (c : option ascii) : bool :=
  match c with Some c => is_word c | None => false end.
Definition word_head (s : list ascii) : bool :=
  match s with c :: _ => is_word c | [] => false end.

(** [mt fuel r prev s k]: match [r] at the input [s] (whose preceding
    character is [prev]); on success pass the new position to [k]. A
    repetition iteration must consume input, as in Python. *)
Fixpoint mt {T} (fuel : nat) (r : re) (prev : option ascii) (s : list ascii)
    (k : option ascii -> list ascii -> option T) {struct r} : option T :=
  match r with
  | RClass f =>
      match s with
      | c :: s' => if f c then k (Some c) s' else None
      | [] => None
      end
  | REps => k prev s
  | RBound => if xorb (word_opt prev) (word_head s) then k prev s else None
  | RSeq a b => mt fuel a prev s (fun p' s' => mt fuel b p' s' k)
  | RAlt a b =>
      match mt fuel a prev s k with
      | Some x => Some x
      | None => mt fuel b prev s k
      end
  | RStar g a =>
      (fix st (m : nat) (p : option ascii) (s : list ascii) {struct m} : option T :=
         match m with
         | O => k p s
         | S m' =>
             let more := mt fuel a p s (fun p' s' =>
                           if length s' <? length s then st m' p' s' else None) in
             if g then match more with Some x => Some x | None => k p s end
             else match k p s with Some x => Some x | None => more end
         end) fuel prev s
  end.

(** The rest of the input after the first match of [r] at this position. *)
Definition match_at (r : re) (prev : option ascii) (s : list ascii) : option (list ascii) :=
  mt (S (length s)) r prev s (fun _ rest => Some rest).

Fixpoint last_char (prev : option ascii) (l : list ascii) : option ascii :=
  match l with [] => prev | c :: l' => last_char (Some c) l' end.

(** [re.findall] for a pattern without capturing groups: the list of
    non-overlapping matches, scanning left to right. *)
Fixpoint findall_aux (fuel : nat) (r : re) (prev : option ascii) (s : list ascii)
    : list (list ascii) :=
  match fuel with
  | O => []
  | S fuel' =>
      match s with
      | [] =>
          match match_at r prev s with Some _ => [[]] | None => [] end
      | c :: s' =>
          match match_at r prev s with
          | Some rest =>
              if length rest <? length s then
                let m := firstn (length s - length rest) s in
                m :: findall_aux fuel' r (last_char prev m) rest
              else [] :: findall_aux fuel' r (Some c) s'
          | None => findall_aux fuel' r (Some c) s'
          end
      end
  end.

Definition findall (r : re) (s : string) : list string :=
  map string_of_list_ascii
      (findall_aux (S (length (list_ascii_of_string s))) r None (list_ascii_of_string s)).

(** [re.search(r, s) is not None] *)
Fixpoint search_aux (fuel : nat) (r : re) (prev : option ascii) (s : list ascii) : bool :=
  match match_at r prev s with
  | Some _ => true
  | None =>
      match fuel, s with
      | S fuel', c :: s' => search_aux fuel' r (Some c) s'
      | _, _ => false
      end
  end.

Definition search (r : re) (s : string) : bool :=
  let l := list_ascii_of_string s in search_aux (length l) r None l.

(** Pattern builders. *)
Definition chr (c : ascii) : re := RClass (Ascii.eqb c).
Fixpoint lit_aux (l : list ascii) : re :=
  match l with [] => REps | [c] => chr c | c :: l' => RSeq (chr c) (lit_aux l') end.
Definition lit (s : string) : re := lit_aux (list_ascii_of_string s).
Definition plus (r : re) : re := RSeq r (RStar true r).
Definition opt (r : re) : re := RAlt r REps.
Fixpoint alts (l : list re) : re :=
  match l with [] => RClass (fun _ => false) | [r] => r | r :: l' => RAlt r (alts l') end.
Definition seqs (l : list re) : re := fold_right RSeq REps l.
Definition digit : re := RClass is_digit.
Definition lower : re := RClass is_lower.

End Regex.

Import Regex.

(** ** String helpers *)

Definition lower_char (c : ascii) : ascii :=
  if is_upper c then ascii_of_nat (nat_of_ascii c + 32) else c.

(** [str.lower] *)
Definition str_lower (s : string) : string :=
  string_of_list_ascii (map lower_char (list_ascii_of_string s)).

Fixpoint is_prefix (p s : list ascii) : bool :=
  match p, s with
  | [], _ => true
  | c :: p', d :: s' => Ascii.eqb c d && is_prefix p' s'
  | _ :: _, [] => false
  end.

Fixpoint contains_aux (p s : list ascii) : bool :=
  is_prefix p s || match s with [] => false | _ :: s' => contains_aux p s' end.

(** Python's [sub in s] *)
Definition contains (sub s : string) : bool :=
  contains_aux (list_ascii_of_string sub) (list_ascii_of_string s).

Fixpoint str_mem (x : string) (l : list string) : bool :=
  match l with [] => false | y :: l' => String.eqb x y || str_mem x l' end.

(** [set(l)]: the distinct elements of [l]. *)
Fixpoint nub (l : list string) : list string :=
  match l with
  | [] => []
  | x :: l' => if str_mem x l' then nub l' else x :: nub l'
  end.

(** [len(set(a) & set(b))] *)
Definition inter_card (a b : list string) : nat :=
  length (filter (fun x => str_mem x b) (nub a)).

(** Python's [a < b] on floats. *)
Definition Qlt_bool (a b : Q) : bool := negb (Qle_bool b a).

Definition py_any {A} (f : A -> bool) (l : list A) : bool := existsb f l.

(** ** Data model (src/app/models.py) *)

Inductive Platform := twitter | linkedin | instagram.

Definition platform_eqb (a b : Platform) : bool :=
  match a, b with
  | twitter, twitter | linkedin, linkedin | instagram, instagram => true
  | _, _ => false
  end.

Definition platform_name (p : Platform) : string :=
  match p with twitter => "twitter" | linkedin => "linkedin" | instagram => "instagram" end.

(** [Claim.severity : Literal["low", "medium", "high"]] *)
Inductive ClaimSeverity := low | medium | high.

(** [ComplianceIssue.severity : Literal["minor", "major", "critical"]] *)
Inductive IssueSeverity := minor | major | critical.

(** [PostReview.status] *)
Inductive Status := pass | flag | block.

Record Claim := mkClaim {
  claim_text : string;
  claim_severity : ClaimSeverity;
  claim_sources : list string;
  claim_confidence : Q
}.

Record ComplianceIssue := mkIssue {
  rule_id : string;
  issue_severity : IssueSeverity;
  message : string;
  suggestion : string
}.

Record PostReview := mkReview {
  status : Status;
  issues : list ComplianceIssue;
  review_claims : list Claim
}.

Record PlatformPost := mkPost {
  post_platform : Platform;
  primary_text : string;
  notes : option string
}.

(** A raised Python exception, carrying [str(e)], or a normal result. *)
Inductive exn_or (A : Type) := Exn (msg : string) | Ok (a : A).
Arguments Exn {A} msg.
Arguments Ok {A} a.

(** ** Compliance engine (src/app/tools/compliance.py)

    The word sets of the module are Python [set]s, whose iteration order is
    not fixed; they are lists here, in source order. Only the order of the
    issues depends on it. The [(confidence: {confidence:.2f})] suffix of the
    confidence messages is not rendered. *)
Module Compliance.

Definition PROFANITY_WORDS : list string :=
  ["damn"; "hell"; "crap"; "stupid"; "idiot"; "hate"].

Definition ABSOLUTE_PHRASES : list string :=
  ["guarantee"; "guaranteed"; "100%"; "always works"; "never fails";
   "instant results"; "immediate"].

Definition STRICT_RESTRICTED : list string :=
  ["cure"; "cures"; "diagnose"; "diagnosis"; "treatment"; "financial advice";
   "returns"; "roi"; "profit guaranteed"; "investment"].

Definition q (w : string) : string := "'" ++ w ++ "'".

Definition check_profanity (text : string) : list ComplianceIssue :=
  let text_lower := str_lower text in
  map (fun word =>
         mkIssue "profanity_check" minor
           ("Potential profanity detected: " ++ q word)
           ("Consider replacing " ++ q word ++ " with a more professional alternative"))
      (filter (fun word => contains word text_lower) PROFANITY_WORDS).

Definition check_absolute_claims (text : string) : list ComplianceIssue :=
  let text_lower := str_lower text in
  map (fun phrase =>
         mkIssue "absolute_claims" major
           ("Absolute claim detected: " ++ q phrase)
           ("Soften the claim by replacing " ++ q phrase ++
            " with more qualified language like 'may help' or 'typically'"))
      (filter (fun phrase => contains phrase text_lower) ABSOLUTE_PHRASES).

(** The issue (if any) raised for one claim: the [if]/[elif] chain of
    [_check_claim_confidence]. *)
Definition claim_confidence_issue (claim : Claim) : option ComplianceIssue :=
  let confidence := claim_confidence claim in
  match claim_severity claim with
  | high =>
      if Qlt_bool confidence (3 # 10) then
        Some (mkIssue "low_confidence_claim" major
                ("Low confidence claim: " ++ q (claim_text claim))
                "Add a reliable source or soften the claim with qualifying language")
      else if Qlt_bool confidence (5 # 10) && (length (claim_sources claim) =? 0) then
        Some (mkIssue "unsourced_claim" minor
                ("Medium confidence claim without sources: " ++ q (claim_text claim))
                "Consider adding supporting sources to strengthen the claim")
      else if Qlt_bool confidence (6 # 10) && negb (length (claim_sources claim) =? 0)
              && (2 <=? length (claim_sources claim)) then
        Some (mkIssue "attribution_note" minor
                ("Attribution available: " ++ q (claim_text claim))
                "Claim has supporting sources with partial verification")
      else None
  | medium =>
      if Qlt_bool confidence (25 # 100) then
        Some (mkIssue "low_confidence_claim" minor
                ("Low confidence claim: " ++ q (claim_text claim))
                "Consider adding supporting sources")
      else None
  | low => None
  end.

Definition check_claim_confidence (claims : list Claim) : list ComplianceIssue :=
  flat_map (fun c => match claim_confidence_issue c with
                     | Some i => [i] | None => [] end) claims.

Definition check_strict_mode (text : string) : list ComplianceIssue :=
  let text_lower := str_lower text in
  map (fun word =>
         mkIssue "strict_mode_restricted" critical
           ("Restricted term in strict mode: " ++ q word)
           ("Remove or replace " ++ q word ++ " to avoid potential regulatory issues"))
      (filter (fun word => contains word text_lower) STRICT_RESTRICTED).

Definition is_critical (i : ComplianceIssue) : bool :=
  match issue_severity i with critical => true | _ => false end.
Definition is_major (i : ComplianceIssue) : bool :=
  match issue_severity i with major => true | _ => false end.

Definition determine_status (issues : list ComplianceIssue) : Status :=
  match issues with
  | [] => pass
  | _ =>
      if py_any is_critical issues then block
      else if py_any is_major issues then flag
      else pass
  end.

(** [review_post]; [compliance_mode] is [config.COMPLIANCE_MODE]. *)
Definition review_post (compliance_mode : string) (platform : Platform)
    (text : string) (claims : list Claim) : PostReview :=
  let issues := (check_profanity text ++ check_absolute_claims text
                ++ check_claim_confidence claims
                ++ (if String.eqb compliance_mode "strict" then check_strict_mode text else []))%list in
  mkReview (determine_status issues) issues claims.

End Compliance.

Import Compliance.

(** ** More Python string operations *)

(** [re.sub(r, repl, s)] where [repl] computes the replacement from the
    matched text (all patterns given to it match at least one character). *)
Fixpoint sub_aux (fuel : nat) (r : re) (repl : list ascii -> list ascii)
    (prev : option ascii) (s : list ascii) : list ascii :=
  match fuel with
  | O => s
  | S fuel' =>
      match s with
      | [] => []
      | c :: s' =>
          match match_at r prev s with
          | Some rest =>
              if length rest <? length s then
                let m := firstn (length s - length rest) s in
                repl m ++ sub_aux fuel' r repl (last_char prev m) rest
              else c :: sub_aux fuel' r repl (Some c) s'
          | None => c :: sub_aux fuel' r repl (Some c) s'
          end
      end
  end.

Definition sub (r : re) (repl : list ascii -> list ascii) (s : string) : string :=
  let l := list_ascii_of_string s in
  string_of_list_ascii (sub_aux (S (length l)) r repl None l).

Fixpoint drop_spaces (l : list ascii) : list ascii :=
  match l with c :: l' => if is_space c then drop_spaces l' else l | [] => [] end.

(** [str.strip()] *)
Definition strip (s : string) : string :=
  string_of_list_ascii (rev (drop_spaces (rev (drop_spaces (list_ascii_of_string s))))).

Fixpoint split_aux (cur : list ascii) (l : list ascii) : list (list ascii) :=
  match l with
  | [] => match cur with [] => [] | _ => [rev cur] end
  | c :: l' =>
      if is_space c then
        match cur with [] => split_aux [] l' | _ => rev cur :: split_aux [] l' end
      else split_aux (c :: cur) l'
  end.

(** [str.split()] *)
Definition split_ws (s : string) : list string :=
  map string_of_list_ascii (split_aux [] (list_ascii_of_string s)).

(** [sep.join(l)] *)
Fixpoint join (sep : string) (l : list string) : string :=
  match l with [] => EmptyString | [x] => x | x :: l' => x ++ sep ++ join sep l' end.

Fixpoint insert_sorted (x : string) (l : list string) : list string :=
  match l with
  | [] => [x]
  | y :: l' => match String.compare x y with
               | Gt => y :: insert_sorted x l'
               | _ => x :: l
               end
  end.

(** [sorted(l)] on strings (code-point order). *)
Definition sorted (l : list string) : list string := fold_right insert_sorted [] l.

(** [s.replace(c, by)] for a one-character [c]. *)
Definition replace_char (c : ascii) (by_ : string) (s : string) : string :=
  string_of_list_ascii
    (flat_map (fun d => if Ascii.eqb c d then list_ascii_of_string by_ else [d])
              (list_ascii_of_string s)).

Fixpoint take_digits (l : list ascii) : list ascii :=
  match l with c :: l' => if is_digit c then c :: take_digits l' else [] | [] => [] end.

(** ** Claim verification engine (src/app/tools/factcheck.py) *)
Module FactCheck.

(** [r'\d+(?:\.\d+)?%?'] *)
Definition NUM : re := seqs [plus digit; opt (seqs [chr "."; plus digit]); opt (chr "%")].
(** [r'\d+(?:\.\d+)?'] *)
Definition NUM_NOPCT : re := seqs [plus digit; opt (seqs [chr "."; plus digit])].
(** [r'\d+(?:\.\d+)?%'] *)
Definition PCT : re := seqs [plus digit; opt (seqs [chr "."; plus digit]); chr "%"].
(** [r'\b[a-z]{3,}\b'] *)
Definition WORD3 : re := seqs [RBound; lower; lower; lower; RStar true lower; RBound].

(** The organisation alternatives of the entity patterns;
    [booking\.?com] is [booking], an optional dot, [com]. *)
Definition ENTITY_ALTS : list re :=
  [lit "deloitte"; lit "lancet"; lit "fda"; lit "gartner"; lit "buffer";
   seqs [lit "booking"; opt (chr "."); lit "com"];
   lit "european environment agency"; lit "eea"; lit "who"; lit "cdc"].

(** [r'\b(?:deloitte|...|cdc|mayo clinic)\b'] of the deduplication. *)
Definition ENTITY_DEDUP : re :=
  seqs [RBound; alts (ENTITY_ALTS ++ [lit "mayo clinic"]); RBound].

(** [r'\b(?:deloitte|...|cdc)\b'] of [_filter_relevant_results]. *)
Definition ENTITY_REL : re := seqs [RBound; alts ENTITY_ALTS; RBound].

(** [r'\b(?:hospitals?|healthcare|ai|artificial intelligence|survey|study|research|pilot|program)\b'] *)
Definition KEYWORD_REL : re :=
  seqs [RBound;
        alts [seqs [lit "hospital"; opt (chr "s")]; lit "healthcare"; lit "ai";
              lit "artificial intelligence"; lit "survey"; lit "study";
              lit "research"; lit "pilot"; lit "program"];
        RBound].

(** [_normalize_claim_text] *)
Definition normalize_claim_text (text : string) : string :=
  let normalized := sub (plus (RClass is_space)) (fun _ => [" "%char]) (strip (str_lower text)) in
  (* r'(\d+)\s*percent' -> r'\1%' *)
  let normalized := sub (seqs [plus digit; RStar true (RClass is_space); lit "percent"])
                        (fun m => (take_digits m ++ ["%"%char])%list) normalized in
  (* r'booking\.com\'?s?' -> 'booking.com' *)
  sub (seqs [lit "booking.com"; opt (chr "'"); opt (chr "s")])
      (fun _ => list_ascii_of_string "booking.com") normalized.

(** The signature string built in [_deduplicate_claims]. *)
Definition claim_signature (text : string) : string :=
  let normalized_text := normalize_claim_text text in
  let numbers := findall NUM normalized_text in
  let entities := findall ENTITY_DEDUP (str_lower normalized_text) in
  join "-" (sorted numbers) ++ "_" ++ join "-" (sorted entities).

(** [_are_claims_similar], with the truth value of the returned set. *)
Definition are_claims_similar (text1 text2 : string) : bool :=
  let numbers1 := findall NUM text1 in
  let entities1 := findall ENTITY_DEDUP (str_lower text1) in
  let numbers2 := findall NUM text2 in
  let entities2 := findall ENTITY_DEDUP (str_lower text2) in
  negb (inter_card numbers1 numbers2 =? 0) && negb (inter_card entities1 entities2 =? 0).

(** The loop of [_deduplicate_claims], for any signature function and any
    similarity test. [seen] is [seen_signatures], [unique] is [unique_claims]. *)
Section Dedup.
Variable signature : string -> string.
Variable similar : string -> string -> bool.

Fixpoint dedup_loop (seen : list string) (unique : list Claim) (claims : list Claim)
    : list Claim :=
  match claims with
  | [] => unique
  | claim :: rest =>
      let sig := signature (claim_text claim) in
      let is_duplicate := existsb (fun e => similar (claim_text claim) (claim_text e)) unique in
      if negb (str_mem sig seen) && negb is_duplicate
      then dedup_loop (seen ++ [sig]) (unique ++ [claim]) rest
      else dedup_loop seen unique rest
  end.

Definition dedup_with (claims : list Claim) : list Claim := dedup_loop [] [] claims.
End Dedup.

(** [_deduplicate_claims] *)
Definition deduplicate_claims (claims : list Claim) : list Claim :=
  dedup_with claim_signature are_claims_similar claims.

(** [_enhance_search_query]: the four substitutions in dict order. In
    [Gartner.*?(\d+)] the lazy [.*?] stops at the first digit, so group 1 is
    the run of digits that ends the match. *)
Definition trailing_digits (l : list ascii) : list ascii :=
  rev (take_digits (rev l)).

(** The double-quote character. *)
Definition DQ : string := String "034"%char EmptyString.

Definition ANY : re := RClass (fun c => negb (Ascii.eqb c "010"%char)).

Definition enhance_search_query (claim_text : string) : string :=
  let q0 := claim_text in
  (* r'(\d+)%' -> '"N percent"' *)
  let q1 := sub (seqs [plus digit; chr "%"])
                (fun m => list_ascii_of_string (DQ ++ string_of_list_ascii (take_digits m) ++ " percent" ++ DQ)) q0 in
  (* r'Gartner.*?(\d+)' -> 'Gartner report N' *)
  let q2 := sub (seqs [lit "Gartner"; RStar false ANY; plus digit])
                (fun m => list_ascii_of_string ("Gartner report " ++ string_of_list_ascii (trailing_digits m))) q1 in
  (* r'Buffer.*?(\d+)' -> 'Buffer survey N' *)
  let q3 := sub (seqs [lit "Buffer"; RStar false ANY; plus digit])
                (fun m => list_ascii_of_string ("Buffer survey " ++ string_of_list_ascii (trailing_digits m))) q2 in
  (* r'\$(\d+(?:,\d+)*(?:\.\d+)?)' -> '"$N" savings' *)
  sub (seqs [chr "$"; plus digit; RStar true (seqs [chr ","; plus digit]);
             opt (seqs [chr "."; plus digit])])
      (fun m => list_ascii_of_string (DQ ++ string_of_list_ascii m ++ DQ ++ " savings")) q3.

(** ** Search providers (src/app/tools/search.py)

    The external libraries are the calls of a backend: [ddgs_text q n] is
    [DDGS().text(q, max_results=n)] with each result dict already read as
    [(result.get("title", ...), result.get("href", ...))]; the Wikipedia
    calls are [wikipedia.set_lang], [wikipedia.search] and
    [wikipedia.page(...)] read as [(page.title, page.url)]. *)
Record SearchBackend := {
  ddgs_text : string -> nat -> exn_or (list (string * string));
  wiki_set_lang : string -> exn_or unit;
  wiki_search : string -> nat -> exn_or (list string);
  wiki_page : string -> exn_or (string * string)
}.

(** The configuration values read by the core ([src/app/config.py]). *)
Record Config := {
  FACTCHECK_PROVIDER : string;
  WIKIPEDIA_LANG : string;
  COMPLIANCE_MODE : string
}.

Definition str_nonempty (s : string) : bool :=
  match s with EmptyString => false | _ => true end.

Fixpoint pair_mem (x : string * string) (l : list (string * string)) : bool :=
  match l with
  | [] => false
  | y :: l' => (String.eqb (fst x) (fst y) && String.eqb (snd x) (snd y)) || pair_mem x l'
  end.

(** [list(dict.fromkeys(l))] *)
Definition dedup_keep_first (l : list string) : list string :=
  fold_left (fun acc x => if str_mem x acc then acc else (acc ++ [x])%list) l [].

Definition search_queries (query : string) : list string :=
  let numbers := findall NUM query in
  let keywords := filter (fun word => (3 <? String.length word) &&
                            negb (str_mem (str_lower word) ["according"; "study"; "report"; "research"]))
                         (split_ws query) in
  let qs := [query; join " " (keywords ++ numbers)]%list in
  let qs := match numbers, keywords with
            | _ :: _, _ :: _ =>
                app qs [DQ ++ join " " numbers ++ DQ ++ " " ++ join " " (firstn 3 keywords)]
            | _, _ => qs
            end in
  dedup_keep_first qs.

Definition add_results (results : list (string * string)) (new : list (string * string))
    : list (string * string) :=
  fold_left (fun acc r => if str_nonempty (snd r) && negb (pair_mem r acc)
                          then (acc ++ [r])%list else acc) new results.

(** [search_duckduckgo]: a failing variation is skipped ([continue]). *)
Definition search_duckduckgo (b : SearchBackend) (query : string) (max_results : nat)
    : list (string * string) :=
  let results :=
    fold_left (fun results q =>
                 match ddgs_text b q max_results with
                 | Ok rs => add_results results rs
                 | Exn _ => results
                 end)
              (firstn 2 (search_queries query)) [] in
  firstn (max_results * 2) results.

(** [search_wikipedia]: a failing page is skipped, any other failure gives []. *)
Definition search_wikipedia (b : SearchBackend) (query : string) (max_results : nat)
    (lang : string) : list (string * string) :=
  match wiki_set_lang b lang with
  | Exn _ => []
  | Ok _ =>
      match wiki_search b query max_results with
      | Exn _ => []
      | Ok titles =>
          flat_map (fun title => match wiki_page b title with
                                 | Ok p => [p] | Exn _ => [] end)
                   (firstn max_results titles)
      end
  end.

(** [_filter_search_results] *)
Definition QUALITY_PATTERNS : list re :=
  map lit [".gov"; ".edu"; ".org";
           "reuters."; "bloomberg."; "wsj."; "bbc."; "guardian."; "nytimes.";
           "harvard."; "stanford."; "mit."; "oxford."; "cambridge.";
           "mckinsey."; "deloitte."; "gartner."; "statista."; "forrester.";
           "fortune."; "forbes."; "economist."; "ft.com"; "npr.org";
           "who.int"; "oecd."; "europa.eu"; "worldbank."; "imf."].

(** [a / max(n, 1)] on non-negative integers. *)
Definition ratio (a n : nat) : Q := Z.of_nat a # Pos.of_nat (Nat.max n 1).

Definition keep_search_result (claim_text : string) (result : string * string) : bool :=
  let claim_lower := str_lower claim_text in
  let claim_words := nub (findall WORD3 claim_lower) in
  let claim_numbers := nub (findall NUM claim_text) in
  let title_lower := str_lower (fst result) in
  let url_lower := str_lower (snd result) in
  let has_quality_domain := py_any (fun p => search p url_lower) QUALITY_PATTERNS in
  let title_words := nub (findall WORD3 title_lower) in
  let title_numbers := nub (findall NUM (fst result)) in
  let word_overlap := ratio (inter_card claim_words title_words) (length claim_words) in
  let number_match := 0 <? inter_card claim_numbers title_numbers in
  let relevance_score := (word_overlap + (if number_match then 3 # 10 else 0))%Q in
  has_quality_domain || Qlt_bool (1 # 4) relevance_score || number_match.

Definition filter_search_results (results : list (string * string)) (claim_text : string)
    : list (string * string) :=
  filter (keep_search_result claim_text) results.

(** [_filter_relevant_results]; the regex matches are lists (not sets), so
    a repeated number counts again. *)
Definition relevance_score (claim_text : string) (title : string) : nat :=
  let title_lower := str_lower title in
  let claim_numbers := findall NUM_NOPCT claim_text in
  let claim_entities := findall ENTITY_REL claim_text in
  let claim_keywords := findall KEYWORD_REL claim_text in
  2 * length (filter (fun num => contains num title_lower) claim_numbers)
  + 3 * length (filter (fun e => contains (str_lower e) title_lower) claim_entities)
  + length (filter (fun k => contains k title_lower) claim_keywords).

Definition filter_relevant_results (results : list (string * string)) (claim_text : string)
    : list (string * string) :=
  filter (fun r => 2 <=? relevance_score claim_text (fst r)) results.

(** [_calculate_confidence] *)
Definition TIER1_INDICATORS : list string :=
  [".gov"; ".edu"; ".org"; "nature."; "lancet."; "nejm."; "who.int"; "europa.eu";
   "mckinsey."; "deloitte."; "gartner."; "statista."; "oecd."; "imf."; "worldbank.";
   "wttc.org"; "unwto.org"; "iata.org"; "fda.gov"; "cdc.gov"; "eea.europa.eu"].

Definition TIER2_INDICATORS : list string :=
  ["reuters."; "bloomberg."; "wsj."; "ft.com"; "economist."; "harvard."; "stanford.";
   "mit.edu"; "pewresearch."; "weforum."; "booking.com"; "forbes."; "fortune.";
   "bbc.com"; "npr.org"; "guardian."; "nytimes."; "washingtonpost."].

(** Python's [max(a, b)] on floats: [b] when [a < b], else [a]. *)
Definition py_max (a b : Q) : Q := if Qlt_bool a b then b else a.
(** Python's [min(a, b)]: [b] when [b < a], else [a]. *)
Definition py_min (a b : Q) : Q := if Qlt_bool b a then b else a.

(** The content-match loop over the relevant results. *)
Definition content_match (claim_text : string) (relevant : list (string * string)) : Q :=
  let claim_numbers := findall NUM_NOPCT claim_text in
  let claim_percentages := findall PCT claim_text in
  let claim_keywords := nub (findall WORD3 claim_text) in
  fold_left
    (fun score (r : string * string) =>
       let title_lower := str_lower (fst r) in
       let title_keywords := nub (findall WORD3 title_lower) in
       let keyword_overlap := ratio (inter_card claim_keywords title_keywords)
                                    (length claim_keywords) in
       let score := py_max score (keyword_overlap * (4 # 10))%Q in
       let score := fold_left
                      (fun score pct =>
                         if contains pct title_lower
                            || contains (replace_char "%" " percent" pct) title_lower
                         then py_max score (1 # 2) else score)
                      claim_percentages score in
       fold_left
         (fun score num =>
            if contains (" " ++ num ++ " ") (" " ++ title_lower ++ " ")
               || contains (num ++ "%") title_lower
            then py_max score (4 # 10) else score)
         claim_numbers score)
    relevant 0%Q.

(** The three tier scores [(tier1, tier2, tier3)] of the source-quality loop. *)
Definition tier_step (acc : Q * Q * Q) (r : string * string) : Q * Q * Q :=
  let '(t1, t2, t3) := acc in
  let url_lower := str_lower (snd r) in
  if py_any (fun i => contains i url_lower) TIER1_INDICATORS then (py_max t1 (4 # 10), t2, t3)
  else if py_any (fun i => contains i url_lower) TIER2_INDICATORS then (t1, py_max t2 (1 # 4), t3)
  else (t1, t2, py_max t3 (1 # 10)).

Definition tier_scores (relevant : list (string * string)) : Q * Q * Q :=
  fold_left tier_step relevant (0%Q, 0%Q, 0%Q).

Definition calculate_confidence (results : list (string * string)) (claim : Claim) : Q :=
  match results with
  | [] => 1 # 10
  | _ =>
      let claim_text := str_lower (claim_text claim) in
      let relevant_results := filter_relevant_results results claim_text in
      match relevant_results with
      | [] => 2 # 10
      | _ =>
          let base_confidence := ((1 # 2) + content_match claim_text relevant_results)%Q in
          let '(tier1, tier2, tier3) := tier_scores relevant_results in
          let source_quality_score := (tier1 + tier2 + tier3)%Q in
          let consistency_score :=
            if 3 <=? length relevant_results then 2 # 10
            else if 2 <=? length relevant_results then 1 # 10
            else 0%Q in
          let final_confidence := (base_confidence + source_quality_score + consistency_score)%Q in
          py_min final_confidence (95 # 100)
      end
  end.

(** [_standardize_claim_language] *)
Definition HEDGES : list string := ["reportedly"; "suggests"; "indicates"; "appears"].

Definition standardize_claim_language (claim_text : string) (confidence : Q) : string :=
  if Qlt_bool confidence (4 # 10) then
    if negb (py_any (fun w => contains w (str_lower claim_text)) HEDGES) then
      if search (seqs [plus digit; chr "%"]) claim_text then
        (* r'(\d+% of [^,]+)' -> r'reportedly \1' *)
        sub (seqs [plus digit; lit "% of "; plus (RClass (fun c => negb (Ascii.eqb c ",")))])
            (fun m => (list_ascii_of_string "reportedly " ++ m)%list) claim_text
      else if negb (contains "according to" (str_lower claim_text)) then
        "According to reports, " ++ str_lower claim_text
      else claim_text
    else claim_text
  else if Qle_bool (7 # 10) confidence then
    (* re.sub(r'^reportedly ', '', claim_text, flags=re.IGNORECASE) *)
    let l := list_ascii_of_string claim_text in
    if is_prefix (list_ascii_of_string "reportedly ") (map lower_char (firstn 11 l))
    then string_of_list_ascii (skipn 11 l)
    else claim_text
  else claim_text.

(** [_verify_single_claim]: the provider chosen by [config.FACTCHECK_PROVIDER]
    ("serpapi" falls back to DuckDuckGo). *)
Definition run_search (cfg : Config) (b : SearchBackend) (query : string) : list (string * string) :=
  if String.eqb (FACTCHECK_PROVIDER cfg) "wikipedia"
  then search_wikipedia b query 5 (WIKIPEDIA_LANG cfg)
  else search_duckduckgo b query 5.

Definition verify_single_claim (cfg : Config) (b : SearchBackend) (claim : Claim) : Claim :=
  let search_query := enhance_search_query (claim_text claim) in
  let search_results := run_search cfg b search_query in
  let filtered_results := filter_search_results search_results (claim_text claim) in
  let confidence := calculate_confidence filtered_results claim in
  let sources := map snd (firstn 3 filtered_results) in
  let standardized_text := standardize_claim_language (claim_text claim) confidence in
  mkClaim standardized_text (claim_severity claim) sources confidence.

(** [verify_claims] *)
Definition verify_claims (cfg : Config) (b : SearchBackend) (claims : list Claim) : list Claim :=
  map (verify_single_claim cfg b) (deduplicate_claims claims).

End FactCheck.
Import FactCheck.

(** ** Pipeline stages (src/app/graph.py)

    The Generation Service calls, with the JSON parsing of their answers, and
    the timing advisor are parameters of the section:
    - [kp_call text] is the chat completion of [extract_key_points] (client
      creation included), [kp_parse content] the list of valid key points
      built from [_parse_json(content)] ([None] when the parse does not give a
      non-empty list);
    - [post_call platform source] is the [content] of
      [llm.invoke(PLATFORM_PROMPT...)], and [post_parse content] is
      [_parse_json(content)] with the dict test and the building of the
      post's fields other than the length check of [primary_text]: [None]
      when the parse does not give a non-empty dict, [Some (Exn e)] when
      [_validate_brand_mentions] or another field of [PlatformPost] raises
      (with [e] the whole error text), else [Some (Ok t)] with [t] the
      [primary_text] of the dict (the empty string when absent);
    - [validation_error msg v] is [str(e)] of the [ValidationError] pydantic
      raises when the validator of [primary_text] raises [ValueError(msg)]
      on the value [v];
    - [float_str x] is [str(x)] of a Python float;
    - [confidence_error x] is [str(e)] of the [ValidationError] raised when a
      [Claim] is built with a [confidence] [x] outside [0, 1];
    - [claims_call original post_text] is [llm.invoke(CLAIM_EXTRACT_PROMPT...)]
      with the construction of the [Claim]s ([None] when the answer is not a
      JSON list);
    - [rewrite_call issues post_text] is [llm.invoke(EDIT_SUGGESTIONS_PROMPT...)];
    - [suggest_times platforms text topic_hint] is [tools/schedule.py].
    The semantic-analysis stage [analyze_embeddings] writes only
    [embedding_analysis] and post metadata, which no other stage reads, and
    adds a message to [errors] when the embedding service raises; it is left
    out, so the runs modelled here are those in which that service answers. *)

Definition KeyPoint := (string * Q)%type.
Definition PostingTime := (Platform * string)%type.

Record State := mkState {
  text : string;
  topic_hint : string;
  key_points : list KeyPoint;
  drafts : list (Platform * PlatformPost);
  claims : list (Platform * list Claim);
  reviews : list (Platform * PostReview);
  timings : list PostingTime;
  errors : list string;
  (* instrumentation: the platform of every [review_post] call, in order *)
  review_log : list Platform
}.

(** Dict operations on association lists. *)
Fixpoint get {V} (k : Platform) (m : list (Platform * V)) : option V :=
  match m with
  | [] => None
  | (k', v) :: m' => if platform_eqb k k' then Some v else get k m'
  end.

Fixpoint set_in {V} (k : Platform) (v : V) (m : list (Platform * V)) : option (list (Platform * V)) :=
  match m with
  | [] => None
  | (k', v') :: m' =>
      if platform_eqb k k' then Some ((k', v) :: m')
      else option_map (cons (k', v')) (set_in k v m')
  end.

(** [d[k] = v]: replace in place, or append a new key. *)
Definition set {V} (k : Platform) (v : V) (m : list (Platform * V)) : list (Platform * V) :=
  match set_in k v m with Some m' => m' | None => (m ++ [(k, v)])%list end.

(** [s[:n]] *)
Definition py_prefix (n : nat) (s : string) : string := substring 0 n s.

(** The UTF-8 bytes of the sign U+2264 (less than or equal to). *)
Definition LE_SIGN : string :=
  String "226"%char (String "137"%char (String "164"%char EmptyString)).

(** [PlatformPost.validate_character_limits]: the value, or the message of
    the [ValueError] it raises. *)
Definition validate_character_limits (platform : Platform) (v : string) : exn_or string :=
  match platform with
  | twitter =>
      if 280 <? String.length v then Exn ("Twitter posts must be " ++ LE_SIGN ++ "280 characters")
      else Ok v
  | linkedin =>
      if (String.length v <? 100) || (1300 <? String.length v)
      then Exn "LinkedIn posts should be 100-1300 characters" else Ok v
  | instagram =>
      if (String.length v <? 125) || (2200 <? String.length v)
      then Exn "Instagram posts should be 125-2200 characters" else Ok v
  end.

(** The constraint [ge=0.0, le=1.0] of [Claim.confidence]. *)
Definition claim_confidence_ok (c : Claim) : bool :=
  Qle_bool 0 (claim_confidence c) && Qle_bool (claim_confidence c) 1.

Definition set_errors (st : State) (e : list string) : State :=
  mkState (text st) (topic_hint st) (key_points st) (drafts st) (claims st)
          (reviews st) (timings st) e (review_log st).
Definition add_error (st : State) (msg : string) : State :=
  set_errors st (errors st ++ [msg])%list.
Definition set_key_points (st : State) (v : list KeyPoint) : State :=
  mkState (text st) (topic_hint st) v (drafts st) (claims st)
          (reviews st) (timings st) (errors st) (review_log st).
Definition set_drafts (st : State) (v : list (Platform * PlatformPost)) : State :=
  mkState (text st) (topic_hint st) (key_points st) v (claims st)
          (reviews st) (timings st) (errors st) (review_log st).
Definition set_claims (st : State) (v : list (Platform * list Claim)) : State :=
  mkState (text st) (topic_hint st) (key_points st) (drafts st) v
          (reviews st) (timings st) (errors st) (review_log st).
Definition set_reviews (st : State) (v : list (Platform * PostReview)) : State :=
  mkState (text st) (topic_hint st) (key_points st) (drafts st) (claims st)
          v (timings st) (errors st) (review_log st).
Definition set_timings (st : State) (v : list PostingTime) : State :=
  mkState (text st) (topic_hint st) (key_points st) (drafts st) (claims st)
          (reviews st) v (errors st) (review_log st).
Definition log_review (st : State) (p : Platform) : State :=
  mkState (text st) (topic_hint st) (key_points st) (drafts st) (claims st)
          (reviews st) (timings st) (errors st) (review_log st ++ [p])%list.

Module Graph.
Section Stages.
Variable cfg : Config.
Variable backend : SearchBackend.
Variable confidence_error : Q -> string.
Variable kp_call : string -> exn_or string.
Variable kp_parse : string -> option (list KeyPoint).
Variable post_call : Platform -> string -> exn_or string.
Variable post_parse : string -> option (exn_or string).
Variable validation_error : string -> string -> string.
Variable float_str : Q -> string.
Variable claims_call : string -> string -> exn_or (option (list Claim)).
Variable rewrite_call : list ComplianceIssue -> string -> exn_or string.
Variable suggest_times : list Platform -> string -> string -> exn_or (list PostingTime).

Definition extract_key_points (st : State) : State :=
  if negb (str_nonempty (text st)) then
    set_key_points (add_error st "No text provided for key point extraction") []
  else
    match kp_call (text st) with
    | Exn e => set_key_points (add_error st ("Key points extraction failed: " ++ e)) []
    | Ok content =>
        match kp_parse content with
        | Some (_ :: _ as kps) => set_key_points st kps
        | Some [] =>
            set_key_points (add_error st "No valid key points found in parsed response") []
        | None =>
            set_key_points
              (add_error st ("Failed to parse key points from response: "
                             ++ py_prefix 100 content ++ "...")) []
        end
    end.

Definition PLATFORMS : list Platform := [twitter; linkedin; instagram].

(** One iteration of [generate_posts] for [platform]: the call, the parse,
    and the building of the [PlatformPost] with its length validator. *)
Definition generate_step (content_source : string) (st : State) (platform : Platform) : State :=
  let fail e := add_error st (platform_name platform ++ " post generation failed: " ++ e) in
  match post_call platform content_source with
  | Exn e => fail e
  | Ok content =>
      match post_parse content with
      | None => add_error st ("Failed to parse " ++ platform_name platform ++ " post: "
                              ++ py_prefix 100 content ++ "...")
      | Some (Exn e) => fail e
      | Some (Ok primary) =>
          match validate_character_limits platform primary with
          | Exn msg => fail (validation_error msg primary)
          | Ok v => set_drafts st (set platform (mkPost platform v None) (drafts st))
          end
      end
  end.

(** The [content_source] of [generate_posts]. *)
Definition content_source (st : State) : string :=
  match key_points st with
  | _ :: _ => "Key insights:" ++ String "010"%char (join (String "010"%char EmptyString)
                (map (fun kp => "- " ++ fst kp ++ " (importance: " ++ float_str (snd kp) ++ ")")
                     (key_points st)))
  | [] => "Original blog content (extract key insights):" ++ String "010"%char
            (py_prefix 1000 (text st))
  end.

(** [generate_posts]: [drafts] is emptied first, then filled per platform. *)
Definition generate_posts (st : State) : State :=
  fold_left (generate_step (content_source st)) PLATFORMS (set_drafts st []).

(** One iteration of [extract_claims] on the draft [(platform, post)]. *)
Definition claims_step (st : State) (d : Platform * PlatformPost) : State :=
  let '(platform, post) := d in
  match claims_call (text st) (primary_text post) with
  | Ok (Some cs) => set_claims st (set platform cs (claims st))
  | Ok None => set_claims st (set platform [] (claims st))
  | Exn e =>
      set_claims (add_error st ("Claim extraction failed for " ++ platform_name platform
                                ++ ": " ++ e))
                 (set platform [] (claims st))
  end.

(** [extract_claims]: [claims] is emptied first, then filled per draft. *)
Definition extract_claims (st : State) : State :=
  fold_left claims_step (drafts st) (set_claims st []).

(** The start offset of each platform's claims in the concatenated list. *)
Fixpoint offsets (start : nat) (m : list (Platform * list Claim)) : list (Platform * nat) :=
  match m with
  | [] => []
  | (p, cs) :: m' => (p, start) :: offsets (start + length cs) m'
  end.

(** [fact_check]: all claims verified at once, then sliced back by the
    original offsets. [verify_claims] catches every provider failure itself;
    what can still raise in the [try] block is the [Claim(...)] built by
    [_verify_single_claim], whose [confidence] must lie in [0, 1]. The
    first verified claim that breaks it raises, and the [except] branch
    records the error and leaves [claims] as it was. *)
Definition fact_check (st : State) : State :=
  let all_claims := flat_map snd (claims st) in
  let platform_claim_map := offsets 0 (claims st) in
  let verified_claims := verify_claims cfg backend all_claims in
  match find (fun c => negb (claim_confidence_ok c)) verified_claims with
  | Some c =>
      add_error st ("Unified fact-checking failed: " ++ confidence_error (claim_confidence c))
  | None =>
      set_claims st
        (map (fun pc : Platform * list Claim =>
                let start_idx := match get (fst pc) platform_claim_map with
                                 | Some i => i | None => 0 end in
                (fst pc, firstn (length (snd pc)) (skipn start_idx verified_claims)))
             (claims st))
  end.

Definition review (st : State) (platform : Platform) (text : string) : PostReview :=
  let cs := match get platform (claims st) with Some cs => cs | None => [] end in
  review_post (COMPLIANCE_MODE cfg) platform text cs.

(** One iteration of [compliance] on the draft [(platform, post)]. *)
Definition compliance_step (st : State) (d : Platform * PlatformPost) : State :=
  let '(platform, post) := d in
  log_review (set_reviews st (set platform (review st platform (primary_text post))
                                (reviews st))) platform.

(** [compliance]: one [review_post] per draft. *)
Definition compliance (st : State) : State :=
  fold_left compliance_step (drafts st) (set_reviews st []).

(** One iteration of [remediate_if_blocked] on the pair [(platform, review)]. *)
Definition remediate_one (st : State) (pr : Platform * PostReview) : State :=
  let '(platform, rv) := pr in
  match status rv with
  | block =>
      match get platform (drafts st) with
      | None => add_error st ("Remediation failed for " ++ platform_name platform ++ ": "
                              ++ q (platform_name platform))
      | Some post =>
          match rewrite_call (issues rv) (primary_text post) with
          | Exn e => add_error st ("Remediation failed for " ++ platform_name platform ++ ": " ++ e)
          | Ok content =>
              let revised_text := strip content in
              let post' := mkPost (post_platform post) revised_text
                                  (Some "Automatically revised for compliance") in
              let st := set_drafts st (set platform post' (drafts st)) in
              let new_review := review st platform revised_text in
              log_review (set_reviews st (set platform new_review (reviews st))) platform
          end
      end
  | _ => st
  end.

Definition remediate_if_blocked (st : State) : State :=
  fold_left remediate_one (reviews st) st.

Definition schedule (st : State) : State :=
  match suggest_times (map fst (drafts st)) (text st) (topic_hint st) with
  | Ok ts => set_timings st ts
  | Exn e => set_timings (add_error st ("Context-aware scheduling failed: " ++ e)) []
  end.

(** [build_graph]: the stages in their fixed order. *)
Definition run_pipeline (st : State) : State :=
  schedule (remediate_if_blocked (compliance (fact_check (extract_claims
    (generate_posts (extract_key_points st)))))).

(** The stages after claim extraction. *)
Definition run_after_claims (st : State) : State :=
  schedule (remediate_if_blocked (compliance (fact_check st))).

End Stages.
End Graph.

(** Number of [review_post] calls made for [p], from the call log. *)
Definition count_calls (p : Platform) (log : list Platform) : nat :=
  length (filter (platform_eqb p) log).

(** A stage step from [s] to [s'] leaves the entries of [p] in [drafts],
    [claims] and [reviews] and the [text] as they were, and only appends
    to [errors]. *)
Definition keeps_at (p : Platform) (s s' : State) : Prop :=
  get p (drafts s') = get p (drafts s) /\ get p (claims s') = get p (claims s) /\
  get p (reviews s') = get p (reviews s) /\ text s' = text s /\
  exists m, errors s' = (errors s ++ m)%list.

Definition is_blocked_review (rv : PostReview) : bool :=
  match status rv with block => true | _ => false end.

(** Whether the rewrite request of the remediation returns normally. *)
Definition rewrite_succeeds (rewrite_call : list ComplianceIssue -> string -> exn_or string)
    (rv : PostReview) (post : PlatformPost) : bool :=
  match rewrite_call (issues rv) (primary_text post) with Ok _ => true | Exn _ => false end.

(** ** Brand mentions and JSON-free helpers of the pipeline (src/app/graph.py) *)

Definition is_cased (c : ascii) : bool := is_lower c || is_upper c.

Definition upper_char (c : ascii) : ascii :=
  if is_lower c then ascii_of_nat (nat_of_ascii c - 32) else c.

(** [str.upper] *)
Definition str_upper (s : string) : string :=
  string_of_list_ascii (map upper_char (list_ascii_of_string s)).

(** [str.title]: a cased character is upper-cased when the character before
    it is not cased, lower-cased otherwise. *)
Fixpoint title_aux (prev_cased : bool) (l : list ascii) : list ascii :=
  match l with
  | [] => []
  | c :: l' =>
      (if is_cased c then (if prev_cased then lower_char c else upper_char c) else c)
      :: title_aux (is_cased c) l'
  end.

Definition str_title (s : string) : string :=
  string_of_list_ascii (title_aux false (list_ascii_of_string s)).

Definition starts_with_at (s : string) : bool :=
  match s with String c _ => Ascii.eqb c "@" | EmptyString => false end.

Definition VERIFIED_HANDLES : list (string * string) :=
  [("@deloitte", "Deloitte"); ("@fda", "FDA"); ("@who", "WHO"); ("@cdc", "CDC");
   ("@gartner_inc", "Gartner"); ("@bookingcom", "Booking.com");
   ("@buffer", "Buffer"); ("@statista", "Statista")].

(** String-keyed dict lookup. *)
Fixpoint lookup {V} (k : string) (m : list (string * V)) : option V :=
  match m with
  | [] => None
  | (k', v) :: m' => if String.eqb k k' then Some v else lookup k m'
  end.

(** [mention[1:]] *)
Definition drop1 (s : string) : string :=
  match s with String _ s' => s' | EmptyString => EmptyString end.

(** One iteration of [_validate_brand_mentions]. *)
Definition validate_mention (mention : string) : string :=
  let mention_lower := strip (str_lower mention) in
  match lookup mention_lower VERIFIED_HANDLES with
  | Some _ => mention
  | None =>
      if starts_with_at mention then
        match lookup mention_lower VERIFIED_HANDLES with
        | Some v => v
        | None => str_title (drop1 mention)
        end
      else mention
  end.

Definition validate_brand_mentions (mentions : list string) : list string :=
  map validate_mention mentions.

(** ** Python's [int(s)] on a string *)

Definition digit_value (c : ascii) : Z := Z.of_nat (nat_of_ascii c - 48).

Fixpoint digits_value (acc : Z) (l : list ascii) : Z :=
  match l with [] => acc | c :: l' => digits_value (acc * 10 + digit_value c)%Z l' end.

(** [int(s)]: surrounding whitespace, an optional sign, then decimal digits.
    The message quotes [s] as [repr] does for a string without quotes. *)
Definition py_int (s : string) : exn_or Z :=
  let err := Exn ("invalid literal for int() with base 10: " ++ q s) in
  let l := list_ascii_of_string (strip s) in
  let '(sign, ds) := match l with
                     | "-"%char :: l' => ((-1)%Z, l')
                     | "+"%char :: l' => (1%Z, l')
                     | _ => (1%Z, l)
                     end in
  match ds with
  | [] => err
  | _ => if forallb is_digit ds then Ok (sign * digits_value 0 ds)%Z else err
  end.

(** [_extract_year_from_claim] (src/app/tools/factcheck.py): [None] when
    [\b(20\d{2})\b] does not match. *)
Definition YEAR : re := seqs [RBound; chr "2"; chr "0"; digit; digit; RBound].

Definition extract_year_from_claim (claim_text : string) : exn_or (option Z) :=
  match findall YEAR claim_text with
  | [] => Ok None
  | y :: _ => match py_int y with Exn e => Exn e | Ok n => Ok (Some n) end
  end.

(** ** Posting-time suggestions (src/app/tools/schedule.py)

    A datetime of the target time zone is its wall-clock time, in
    microseconds since 0001-01-01T00:00 (a Monday). All the datetimes of one
    call share the [tzinfo] of [now], so Python compares and shifts them by
    wall-clock time, as here. [isoformat tz t] is [t.isoformat()] in the zone
    named [tz] (which adds the zone's UTC offset) and [clock tz] is
    [datetime.now(ZoneInfo(tz))]: both are parameters. *)
Module Schedule.

Definition US_PER_MIN : Z := 60000000.
Definition US_PER_HOUR : Z := 3600000000.
Definition US_PER_DAY : Z := 86400000000.
(** One past [datetime.max] (9999-12-31T23:59:59.999999). *)
Definition DT_END : Z := 3652059 * US_PER_DAY.

(** [dt + timedelta(...)] for a shift of [d] microseconds. *)
Definition add_td (t d : Z) : exn_or Z :=
  if (0 <=? t + d)%Z && (t + d <? DT_END)%Z then Ok (t + d)%Z
  else Exn "date value out of range".

Definition day_of (t : Z) : Z := (t / US_PER_DAY)%Z.
(** [dt.weekday()]: 0 is Monday. *)
Definition weekday (t : Z) : Z := (day_of t mod 7)%Z.
Definition hour_of (t : Z) : Z := ((t mod US_PER_DAY) / US_PER_HOUR)%Z.
Definition minute_of (t : Z) : Z := ((t mod US_PER_HOUR) / US_PER_MIN)%Z.

(** [dt.replace(hour=h, minute=m, second=0, microsecond=0)] *)
Definition replace_hm (t h m : Z) : exn_or Z :=
  if negb ((0 <=? h) && (h <=? 23))%Z then Exn "hour must be in 0..23"
  else if negb ((0 <=? m) && (m <=? 59))%Z then Exn "minute must be in 0..59"
  else Ok (day_of t * US_PER_DAY + h * US_PER_HOUR + m * US_PER_MIN)%Z.

(** [(dt.date(), dt.hour, dt.minute // 30)] *)
Definition slot_key (t : Z) : Z * Z * Z := (day_of t, hour_of t, (minute_of t / 30)%Z).

Definition key_eqb (a b : Z * Z * Z) : bool :=
  let '(a1, a2, a3) := a in let '(b1, b2, b3) := b in
  (a1 =? b1)%Z && (a2 =? b2)%Z && (a3 =? b3)%Z.

Definition key_mem (k : Z * Z * Z) (l : list (Z * Z * Z)) : bool := existsb (key_eqb k) l.

(** [set.add] *)
Definition key_add (k : Z * Z * Z) (l : list (Z * Z * Z)) : list (Z * Z * Z) :=
  if key_mem k l then l else (l ++ [k])%list.

(** [s.split(sep)] *)
Fixpoint split_on_aux (sep : ascii) (cur : list ascii) (l : list ascii) : list string :=
  match l with
  | [] => [string_of_list_ascii (rev cur)]
  | c :: l' =>
      if Ascii.eqb c sep then string_of_list_ascii (rev cur) :: split_on_aux sep [] l'
      else split_on_aux sep (c :: cur) l'
  end.

Definition split_on (sep : ascii) (s : string) : list string :=
  split_on_aux sep [] (list_ascii_of_string s).

(** [hour, minute = map(int, time_slot.split(":"))]: the items are converted
    one at a time while unpacking. *)
Definition parse_slot (time_slot : string) : exn_or (Z * Z) :=
  match split_on ":" time_slot with
  | [] => Exn "not enough values to unpack (expected 2, got 0)"
  | [a] =>
      match py_int a with
      | Exn e => Exn e
      | Ok _ => Exn "not enough values to unpack (expected 2, got 1)"
      end
  | a :: b :: rest =>
      match py_int a with
      | Exn e => Exn e
      | Ok h =>
          match py_int b with
          | Exn e => Exn e
          | Ok m =>
              match rest with
              | [] => Ok (h, m)
              | c :: _ =>
                  match py_int c with
                  | Exn e => Exn e
                  | Ok _ => Exn "too many values to unpack (expected 2)"
                  end
              end
          end
      end
  end.

Definition PLATFORM_OPTIMAL_TIMES : list (Platform * list (string * list string)) :=
  [(twitter,
    [("weekday_primary", ["12:00"; "13:00"; "14:00"; "15:00"]);
     ("weekday_secondary", ["09:00"]);
     ("breaking_news", ["immediate"]);
     ("weekend", ["10:00"; "14:00"; "16:00"])]);
   (linkedin,
    [("tuesday_thursday", ["07:00"; "08:00"; "09:00"; "12:00"; "13:00"; "14:00"; "17:00"; "18:00"]);
     ("other_weekdays", ["08:00"; "13:00"; "17:00"]);
     ("professional_morning", ["07:00"; "08:00"; "09:00"]);
     ("weekend", [])]);
   (instagram,
    [("weekday_evening", ["18:00"; "19:00"; "20:00"; "21:00"]);
     ("weekend_morning", ["10:00"; "11:00"]);
     ("weekend_evening", ["18:00"; "19:00"; "20:00"; "21:00"]);
     ("visual_content", ["19:00"; "20:00"])])].

(** [CONTENT_TYPE_PREFERENCES]: the ["platforms"] dict and the
    ["description"] of each content type. *)
Definition CONTENT_TYPE_PREFERENCES : list (string * (list (Platform * string) * string)) :=
  [("professional", ([(linkedin, "professional_morning"); (twitter, "weekday_secondary")],
                     "Professional insights work best in morning business hours"));
   ("breaking_news", ([(twitter, "breaking_news")],
                      "Breaking news should be posted immediately"));
   ("visual_lifestyle", ([(instagram, "weekday_evening")],
                         "Visual content performs best during leisure browsing"));
   ("analytical", ([(linkedin, "tuesday_thursday"); (twitter, "weekday_primary")],
                   "Data-driven content works best during professional hours"));
   ("travel", ([(instagram, "weekend_morning"); (twitter, "weekday_primary")],
               "Travel content engages well on weekends and lunch breaks"))].

Definition AUDIENCE_PATTERNS : list (string * list string) :=
  [("us", ["america"; "united states"; "us "; "usa"; "american"; "newark"; "miami"; "california"]);
   ("europe", ["europe"; "european"; "eu "; "uk"; "britain"; "germany"; "france"; "london"]);
   ("asia", ["asia"; "asian"; "china"; "japan"; "india"; "singapore"; "tokyo"]);
   ("nordics", ["greenland"; "iceland"; "denmark"; "norway"; "sweden"; "finland"]);
   ("global", ["global"; "worldwide"; "international"; "multinational"])].

Definition AUDIENCE_TIMEZONES : list (string * string) :=
  [("us", "US/Eastern"); ("europe", "Europe/London"); ("asia", "Asia/Singapore");
   ("nordics", "Europe/Copenhagen"); ("global", "US/Eastern")].

(** The second assignment of [REGULATED_INDUSTRIES], which replaces the first. *)
Definition REGULATED_INDUSTRIES : list (string * list string) :=
  [("healthcare", ["hospital"; "medical"; "health"; "patient"; "doctor"; "medicine"; "clinical"]);
   ("finance", ["bank"; "financial"; "investment"; "trading"; "crypto"; "payment"; "fintech"]);
   ("aviation", ["airline"; "airport"; "flight"; "aircraft"; "aviation"; "faa"]);
   ("pharma", ["drug"; "pharmaceutical"; "medication"; "treatment"; "therapy"])].

(** [f"{content_text} {topic_hint}".lower()] *)
Definition combined (content_text topic_hint : string) : string :=
  str_lower (content_text ++ " " ++ topic_hint).

Definition mentions_any (terms : list string) (t : string) : bool :=
  py_any (fun term => contains term t) terms.

Definition detect_content_type (content_text topic_hint : string) : string :=
  let t := combined content_text topic_hint in
  if mentions_any ["breaking"; "alert"; "urgent"; "just announced"; "developing"] t
  then "breaking_news"
  else if mentions_any ["travel"; "vacation"; "destination"; "tourism"; "flight"; "hotel"] t
  then "travel"
  else if mentions_any ["study"; "research"; "analysis"; "data"; "report"; "survey"] t
  then "analytical"
  else if mentions_any ["photos"; "images"; "beautiful"; "stunning"; "lifestyle"; "culture"] t
  then "visual_lifestyle"
  else "professional".

(** The first key (in dict order) one of whose patterns occurs in [t]. *)
Fixpoint first_match (table : list (string * list string)) (t : string) : option string :=
  match table with
  | [] => None
  | (k, patterns) :: table' => if mentions_any patterns t then Some k else first_match table' t
  end.

Definition detect_audience_geography (content_text topic_hint : string) : string :=
  match first_match AUDIENCE_PATTERNS (combined content_text topic_hint) with
  | Some region => region
  | None => "global"
  end.

Definition detect_regulated_industry (content_text topic_hint : string) : option string :=
  first_match REGULATED_INDUSTRIES (combined content_text topic_hint).

(** [AUDIENCE_TIMEZONES.get(audience_region, config.DEFAULT_TZ)] *)
Definition target_timezone (default_tz content_text topic_hint : string) : string :=
  match lookup (detect_audience_geography content_text topic_hint) AUDIENCE_TIMEZONES with
  | Some tz => tz
  | None => default_tz
  end.

Definition get_default_timing_key (platform : Platform) (now : Z) : string :=
  let current_day := weekday now in
  match platform with
  | linkedin =>
      if (1 <=? current_day)%Z && (current_day <=? 3)%Z then "tuesday_thursday"
      else "other_weekdays"
  | instagram => if (5 <=? current_day)%Z then "weekend_morning" else "weekday_evening"
  | twitter => if (current_day <? 5)%Z then "weekday_primary" else "weekend"
  end.

Definition calculate_optimal_slot_time (time_slot : string) (now : Z) (timing_context : string)
    : exn_or Z :=
  match parse_slot time_slot with
  | Exn e => Exn e
  | Ok (hour, minute) =>
      match replace_hm now hour minute with
      | Exn e => Exn e
      | Ok suggested_time =>
          if contains "weekend" timing_context && (weekday now <? 5)%Z then
            add_td suggested_time ((5 - weekday now) * US_PER_DAY)%Z
          else if (suggested_time <=? now)%Z then add_td suggested_time US_PER_DAY
          else Ok suggested_time
      end
  end.

Definition PLATFORM_REASONS : list (string * string) :=
  [("07:00", "Early morning professional browsing");
   ("08:00", "Pre-work engagement peak");
   ("09:00", "Morning commute and coffee break");
   ("12:00", "Lunch break browsing peak");
   ("13:00", "Post-lunch professional activity");
   ("14:00", "Afternoon engagement window");
   ("15:00", "Late afternoon peak");
   ("17:00", "End-of-workday browsing");
   ("18:00", "Evening leisure browsing");
   ("19:00", "Prime evening engagement");
   ("20:00", "Peak evening social time");
   ("21:00", "Late evening browsing")].

(** [if regulated_industry:] *)
Definition industry_set (regulated_industry : option string) : option string :=
  match regulated_industry with
  | Some ind => if str_nonempty ind then Some ind else None
  | None => None
  end.

Definition generate_context_rationale (platform : Platform) (content_type time_slot : string)
    (regulated_industry : option string) : string :=
  let type_description :=
    match lookup content_type CONTENT_TYPE_PREFERENCES with
    | Some (_, d) => d
    | None => "Optimal engagement time"
    end in
  let timing_reason :=
    match lookup time_slot PLATFORM_REASONS with
    | Some r => r
    | None => "Optimal engagement window"
    end in
  let base_rationale := timing_reason ++ " - " ++ type_description in
  match industry_set regulated_industry with
  | Some ind => base_rationale ++ " [COMPLIANCE REVIEW REQUIRED: " ++ str_upper ind ++ " content]"
  | None => base_rationale
  end.

(** A [PostingTime] of [suggest_times], with its datetime: its
    [local_datetime_iso] is [isoformat tz sugg_time]. *)
Record Suggestion := mkSugg {
  sugg_platform : Platform;
  sugg_time : Z;
  sugg_rationale : string
}.

(** The timing key chosen for [platform]: the content type's preference, or
    the default of the day when it has none. *)
Definition platform_timing_key (platform : Platform) (content_type : string) (now : Z) : string :=
  let pref := match lookup content_type CONTENT_TYPE_PREFERENCES with
              | Some (ps, _) => get platform ps
              | None => None
              end in
  match pref with
  | Some k => if str_nonempty k then k else get_default_timing_key platform now
  | None => get_default_timing_key platform now
  end.

Definition optimal_times (platform : Platform) (key : string) : list string :=
  match get platform PLATFORM_OPTIMAL_TIMES with
  | Some m => match lookup key m with Some ts => ts | None => ["12:00"] end
  | None => ["12:00"]
  end.

(** The loop over [optimal_times[:2]]; [used] is the shared [used_slots]. *)
Fixpoint slots_loop (platform : Platform) (content_type key : string) (now : Z)
    (regulated_industry : option string) (time_slots : list string)
    (used : list (Z * Z * Z)) : exn_or (list Suggestion * list (Z * Z * Z)) :=
  match time_slots with
  | [] => Ok ([], used)
  | time_slot :: rest =>
      match calculate_optimal_slot_time time_slot now key with
      | Exn e => Exn e
      | Ok suggested_time =>
          let shifted :=
            if key_mem (slot_key suggested_time) used then
              add_td suggested_time
                ((match platform with twitter => 1 | _ => 2 end) * US_PER_HOUR)%Z
            else Ok suggested_time in
          match shifted with
          | Exn e => Exn e
          | Ok suggested_time =>
              let used := key_add (slot_key suggested_time) used in
              let rationale := generate_context_rationale platform content_type time_slot
                                 regulated_industry in
              match slots_loop platform content_type key now regulated_industry rest used with
              | Exn e => Exn e
              | Ok (sugs, used) => Ok (mkSugg platform suggested_time rationale :: sugs, used)
              end
          end
      end
  end.

Definition get_context_aware_suggestions (platform : Platform) (content_type : string) (now : Z)
    (used : list (Z * Z * Z)) (regulated_industry : option string)
    : exn_or (list Suggestion * list (Z * Z * Z)) :=
  let key := platform_timing_key platform content_type now in
  if String.eqb key "immediate" then
    match add_td now (5 * US_PER_MIN)%Z with
    | Exn e => Exn e
    | Ok immediate_time =>
        let rationale :=
          "Breaking news - post immediately for maximum engagement" ++
          match industry_set regulated_industry with
          | Some ind => " [COMPLIANCE REQUIRED: " ++ str_upper ind ++ " content needs review]"
          | None => ""
          end in
        Ok ([mkSugg platform immediate_time rationale], used)
    end
  else slots_loop platform content_type key now regulated_industry
         (firstn 2 (optimal_times platform key)) used.

(** The loop over the platforms, with the shared [used_time_slots]. *)
Fixpoint platforms_loop (content_type : string) (now : Z) (regulated_industry : option string)
    (platforms : list Platform) (used : list (Z * Z * Z)) : exn_or (list Suggestion) :=
  match platforms with
  | [] => Ok []
  | p :: ps =>
      match get_context_aware_suggestions p content_type now used regulated_industry with
      | Exn e => Exn e
      | Ok (sugs, used) =>
          match platforms_loop content_type now regulated_industry ps used with
          | Exn e => Exn e
          | Ok rest => Ok (sugs ++ rest)%list
          end
      end
  end.

(** [list.sort(key=...)]: a stable insertion sort. *)
Fixpoint insert_by {A} (key : A -> string) (x : A) (l : list A) : list A :=
  match l with
  | [] => [x]
  | y :: l' => match String.compare (key x) (key y) with
               | Lt => x :: l
               | _ => y :: insert_by key x l'
               end
  end.

Definition sort_by {A} (key : A -> string) (l : list A) : list A :=
  fold_left (fun acc x => insert_by key x acc) l [].

Section Suggest.
Variable isoformat : string -> Z -> string.
Variable clock : string -> Z.
Variable default_tz : string.

Definition suggest_times (platforms : list Platform) (content_text topic_hint : string)
    : exn_or (list Suggestion) :=
  let content_type := detect_content_type content_text topic_hint in
  let regulated_industry := detect_regulated_industry content_text topic_hint in
  let tz := target_timezone default_tz content_text topic_hint in
  let now := clock tz in
  match platforms_loop content_type now regulated_industry platforms [] with
  | Exn e => Exn e
  | Ok suggestions =>
      let suggestions := sort_by (fun s => isoformat tz (sugg_time s)) suggestions in
      let max_posts := if String.eqb content_type "breaking_news" then 3 else 6 in
      Ok (firstn max_posts suggestions)
  end.

(** [suggest_times] as the pipeline's [schedule] stage sees it. *)
Definition posting_times (platforms : list Platform) (content_text topic_hint : string)
    : exn_or (list PostingTime) :=
  let tz := target_timezone default_tz content_text topic_hint in
  match suggest_times platforms content_text topic_hint with
  | Exn e => Exn e
  | Ok sugs => Ok (map (fun s => (sugg_platform s, isoformat tz (sugg_time s))) sugs)
  end.
End Suggest.

End Schedule.

(** * Concrete configurations and backends used by the examples *)

Definition cfg_ddg : Config :=
  {| FACTCHECK_PROVIDER := "duckduckgo"; WIKIPEDIA_LANG := "en";
     COMPLIANCE_MODE := "standard" |}.

Definition cfg_strict : Config :=
  {| FACTCHECK_PROVIDER := "duckduckgo"; WIKIPEDIA_LANG := "en";
     COMPLIANCE_MODE := "strict" |}.

(** Every call of every provider raises. *)
Definition failing_backend : SearchBackend :=
  {| ddgs_text := fun _ _ => Exn "202 Ratelimit";
     wiki_set_lang := fun _ => Exn "connection refused";
     wiki_search := fun _ _ => Exn "connection refused";
     wiki_page := fun _ => Exn "connection refused" |}.

(** The search answers with one unrelated page. *)
Definition noise_backend : SearchBackend :=
  {| ddgs_text := fun _ _ => Ok [("Weather today", "https://example.com/a")];
     wiki_set_lang := fun _ => Ok tt;
     wiki_search := fun _ _ => Ok ["Weather"];
     wiki_page := fun _ => Ok ("Weather", "https://en.wikipedia.org/wiki/Weather") |}.

(** The search answers with one unrelated page on a quality domain. *)
Definition quality_noise_backend : SearchBackend :=
  {| ddgs_text := fun _ _ => Ok [("Weather today", "https://weather.org/a")];
     wiki_set_lang := fun _ => Ok tt;
     wiki_search := fun _ _ => Ok [];
     wiki_page := fun _ => Exn "PageError" |}.

(** Every call of every search provider raises. *)
Definition always_fails (b : SearchBackend) : Prop :=
  (forall q n, exists e, ddgs_text b q n = Exn e) /\
  (forall l, exists e, wiki_set_lang b l = Exn e) /\
  (forall q n, exists e, wiki_search b q n = Exn e) /\
  (forall t, exists e, wiki_page b t = Exn e).

(** Generation Service and timing advisor answers that always succeed. *)
Definition kp_ok (_ : string) : exn_or string :=
  Ok "[{'text': 'New release shipped', 'importance': 0.8}]".
Definition kp_parse_ok (_ : string) : option (list KeyPoint) :=
  Some [("New release shipped", 4 # 5)].
Definition post_ok (_ : Platform) (_ : string) : exn_or string :=
  Ok "We shipped a new release this week. It brings faster sync, an offline mode and the redesigned dashboard many of you asked for. Thanks for all the feedback!".
(** The parse of an answer whose JSON object holds only the [primary_text]
    given by the answer itself. *)
Definition post_parse_ok (content : string) : option (exn_or string) := Some (Ok content).
(** Error texts: the validator's message, and a fixed text for a
    [confidence] out of range. *)
Definition verr_ok (msg _ : string) : string := msg.
Definition conf_err (_ : Q) : string := "confidence out of range".
(** [str] of the importances used in the examples. *)
Definition float_str_ex (x : Q) : string := if Qeq_bool x (4 # 5) then "0.8" else "0.5".
Definition claims_ok (_ _ : string) : exn_or (option (list Claim)) :=
  Ok (Some [mkClaim "Release adoption grew 40% in 2024" high [] 0]).
Definition rewrite_ok (_ : list ComplianceIssue) (t : string) : exn_or string := Ok t.

(** A generation request that raises for twitter only. *)
Definition post_tw_fails (p : Platform) (src : string) : exn_or string :=
  match p with
  | twitter => Exn "Request timed out"
  | _ => post_ok p src
  end.

(** A post that strict mode blocks, and a rewrite request that raises. *)
Definition post_restricted (_ : Platform) (_ : string) : exn_or string :=
  Ok "We diagnose problems before they reach you".
Definition rewrite_fails (_ : list ComplianceIssue) (_ : string) : exn_or string :=
  Exn "Request timed out".
Definition times_ok (ps : list Platform) (_ _ : string) : exn_or (list PostingTime) :=
  Ok (map (fun p => (p, "2026-10-16T09:00")) ps).

Definition initial_state : State :=
  mkState "Our team shipped a new release. Adoption grew 40% in 2024." EmptyString
          [] [] [] [] [] [] [].

(** A state as left by [extract_claims]: one post, one extracted claim. *)
Definition post_tw (t : string) : PlatformPost := mkPost twitter t None.

Definition state_with (t : string) (cs : list Claim) : State :=
  mkState "Our team shipped a new release." EmptyString [("New release shipped", 1 # 2)]
          [(twitter, post_tw t)] [(twitter, cs)] [] [] [] [].

(** * Sanity checks on concrete inputs *)

Example dedup_spec_example :
  map claim_text (deduplicate_claims
    [mkClaim "Buffer survey: 80% prefer remote" high [] 0;
     mkClaim "80% of workers prefer remote, per Buffer" high [] 0])
  = ["Buffer survey: 80% prefer remote"].
Proof. vm_compute. reflexivity. Qed.

Example absolute_claims_flag :
  status (review_post "standard" twitter "Results guaranteed, 100% of the time" []) = flag.
Proof. vm_compute. reflexivity. Qed.

Example strict_mode_block :
  status (review_post "strict" twitter "Results guaranteed, we diagnose 100%" []) = block.
Proof. vm_compute. reflexivity. Qed.

(** * Properties *)

Open Scope list_scope.

(** ** Status derivation *)

Lemma py_any_true_iff {A} (f : A -> bool) (l : list A) :
  py_any f l = true <-> exists x, In x l /\ f x = true.
Proof. unfold py_any. apply existsb_exists. Qed.

Lemma is_critical_iff (i : ComplianceIssue) :
  is_critical i = true <-> issue_severity i = critical.
Proof. unfold is_critical; destruct (issue_severity i); split; congruence. Qed.

Lemma is_major_iff (i : ComplianceIssue) :
  is_major i = true <-> issue_severity i = major.
Proof. unfold is_major; destruct (issue_severity i); split; congruence. Qed.

(** C1: the review status is [block] iff some issue is critical, [flag] iff
    none is critical and some is major, [pass] otherwise; in particular a
    list of minor issues only gives [pass]. *)
Theorem determine_status_spec (issues : list ComplianceIssue) :
  (determine_status issues = block <->
     exists i, In i issues /\ issue_severity i = critical) /\
  (determine_status issues = flag <->
     (~ exists i, In i issues /\ issue_severity i = critical) /\
     (exists i, In i issues /\ issue_severity i = major)) /\
  (determine_status issues = pass <->
     (~ exists i, In i issues /\ issue_severity i = critical) /\
     (~ exists i, In i issues /\ issue_severity i = major)) /\
  ((forall i, In i issues -> issue_severity i = minor) -> determine_status issues = pass).
Proof.
  assert (Hc : py_any is_critical issues = true <->
               exists i, In i issues /\ issue_severity i = critical).
  { rewrite py_any_true_iff. split; intros [i [Hi H]]; exists i;
      split; auto; apply is_critical_iff; auto. }
  assert (Hm : py_any is_major issues = true <->
               exists i, In i issues /\ issue_severity i = major).
  { rewrite py_any_true_iff. split; intros [i [Hi H]]; exists i;
      split; auto; apply is_major_iff; auto. }
  assert (Hdet : determine_status issues =
                 if py_any is_critical issues then block
                 else if py_any is_major issues then flag else pass).
  { destruct issues; reflexivity. }
  assert (Hminor : (forall i, In i issues -> issue_severity i = minor) ->
                   py_any is_critical issues = false /\ py_any is_major issues = false).
  { intros Hall. split.
    - apply Bool.not_true_iff_false; intro E.
      destruct (proj1 Hc E) as [i [Hi Hs]]. rewrite (Hall i Hi) in Hs. discriminate.
    - apply Bool.not_true_iff_false; intro E.
      destruct (proj1 Hm E) as [i [Hi Hs]]. rewrite (Hall i Hi) in Hs. discriminate. }
  rewrite Hdet, <- Hc, <- Hm.
  destruct (py_any is_critical issues), (py_any is_major issues);
    repeat split; intros; try discriminate; try reflexivity; try tauto;
    try (destruct (Hminor H); discriminate).
Qed.

(** ** Deduplication *)

Section DedupIdempotent.
Variable signature : string -> string.
Variable similar : string -> string -> bool.

(** Whether the loop keeps [c] once [unique] has been retained. *)
Definition kept_after (unique : list Claim) (c : Claim) : bool :=
  negb (str_mem (signature (claim_text c)) (map (fun e => signature (claim_text e)) unique))
  && negb (existsb (fun e => similar (claim_text c) (claim_text e)) unique).

(** [accepted unique ys]: started after [unique], the loop keeps every
    element of [ys]. *)
Inductive accepted : list Claim -> list Claim -> Prop :=
| acc_nil unique : accepted unique []
| acc_cons unique y ys :
    kept_after unique y = true -> accepted (unique ++ [y]) ys -> accepted unique (y :: ys).

Lemma dedup_loop_accepted (unique ys : list Claim) :
  accepted unique ys ->
  dedup_loop signature similar (map (fun e => signature (claim_text e)) unique) unique ys
  = unique ++ ys.
Proof.
  induction 1 as [unique | unique y ys Hk Hacc IH].
  - simpl. rewrite app_nil_r. reflexivity.
  - simpl. unfold kept_after in Hk. rewrite Hk.
    rewrite map_app in IH. simpl in IH.
    rewrite IH, <- app_assoc. reflexivity.
Qed.

Lemma dedup_loop_output (unique xs : list Claim) :
  exists ys,
    dedup_loop signature similar (map (fun e => signature (claim_text e)) unique) unique xs
    = unique ++ ys /\ accepted unique ys.
Proof.
  revert unique. induction xs as [| x xs IH]; intros unique; simpl.
  - exists []. split; [rewrite app_nil_r; reflexivity | constructor].
  - destruct (negb (str_mem (signature (claim_text x))
                     (map (fun e => signature (claim_text e)) unique))
              && negb (existsb (fun e => similar (claim_text x) (claim_text e)) unique))
      eqn:Hk.
    + destruct (IH (unique ++ [x])) as [ys [Heq Hacc]].
      rewrite map_app in Heq. simpl in Heq.
      exists (x :: ys). rewrite Heq, <- app_assoc. split; [reflexivity |].
      constructor; auto.
    + apply IH.
Qed.

Lemma dedup_with_idempotent (claims : list Claim) :
  dedup_with signature similar (dedup_with signature similar claims)
  = dedup_with signature similar claims.
Proof.
  unfold dedup_with.
  destruct (dedup_loop_output [] claims) as [ys [Heq Hacc]].
  simpl in Heq. rewrite Heq.
  apply (dedup_loop_accepted [] ys Hacc).
Qed.
End DedupIdempotent.

(** C3: deduplication is idempotent: running [_deduplicate_claims] on its
    own output returns that output unchanged. *)
Theorem deduplicate_claims_idempotent (claims : list Claim) :
  deduplicate_claims (deduplicate_claims claims) = deduplicate_claims claims.
Proof. unfold deduplicate_claims. apply dedup_with_idempotent. Qed.

(** ** Single-claim verification keeps the severity *)

(** C9: the claim returned by [_verify_single_claim] has the severity of the
    input claim; only its text, sources and confidence are recomputed. *)
Theorem verify_single_claim_severity (cfg : Config) (b : SearchBackend) (c : Claim) :
  claim_severity (verify_single_claim cfg b c) = claim_severity c /\
  exists t srcs conf, verify_single_claim cfg b c = mkClaim t (claim_severity c) srcs conf.
Proof.
  split; [reflexivity |].
  do 3 eexists. reflexivity.
Qed.

(** ** Confidence scoring *)

Lemma Qlt_bool_iff (a b : Q) : Qlt_bool a b = true <-> (a < b)%Q.
Proof.
  unfold Qlt_bool. rewrite negb_true_iff. split; intro H.
  - apply Qnot_le_lt. intro Hle. apply Qle_bool_iff in Hle. congruence.
  - apply Bool.not_true_iff_false. intro Hle. apply Qle_bool_iff in Hle.
    apply (Qlt_not_le _ _ H Hle).
Qed.

Lemma Qlt_bool_false (a b : Q) : Qlt_bool a b = false <-> (b <= a)%Q.
Proof.
  unfold Qlt_bool. rewrite negb_false_iff. apply Qle_bool_iff.
Qed.

Lemma py_max_ge_l (a b : Q) : (a <= py_max a b)%Q.
Proof.
  unfold py_max. destruct (Qlt_bool a b) eqn:E.
  - apply Qlt_le_weak, Qlt_bool_iff, E.
  - apply Qle_refl.
Qed.

Lemma py_max_ge_r (a b : Q) : (b <= py_max a b)%Q.
Proof.
  unfold py_max. destruct (Qlt_bool a b) eqn:E.
  - apply Qle_refl.
  - apply Qlt_bool_false, E.
Qed.

(** A loop whose body never lowers the accumulator ends above its start. *)
Lemma fold_left_increasing {A} (f : Q -> A -> Q) (l : list A) (a : Q) :
  (forall acc x, (acc <= f acc x)%Q) -> (a <= fold_left f l a)%Q.
Proof.
  intros Hf. revert a. induction l as [| x l IH]; intros a; simpl.
  - apply Qle_refl.
  - apply Qle_trans with (f a x); auto.
Qed.

Lemma content_match_nonneg (t : string) (rs : list (string * string)) :
  (0 <= content_match t rs)%Q.
Proof.
  unfold content_match. apply fold_left_increasing. intros acc r.
  cbv zeta.
  eapply Qle_trans; [apply (py_max_ge_l acc) |].
  refine (Qle_trans _ _ _ (fold_left_increasing _ _ _ _) (fold_left_increasing _ _ _ _)).
  - intros s pct. destruct (_ || _); [apply py_max_ge_l | apply Qle_refl].
  - intros s num. destruct (_ || _); [apply py_max_ge_l | apply Qle_refl].
Qed.

(** The invariant of the source-quality loop: the three tiers stay
    non-negative and, once one result has been seen, their sum is at least
    the tier-3 weight. *)
Definition tiers_ok (seen : bool) (acc : Q * Q * Q) : Prop :=
  let '(t1, t2, t3) := acc in
  (0 <= t1)%Q /\ (0 <= t2)%Q /\ (0 <= t3)%Q /\
  (seen = true -> (1 # 10 <= t1 + t2 + t3)%Q).

Lemma Qle_sum3 (a b c a' b' c' : Q) :
  (a <= a')%Q -> (b <= b')%Q -> (c <= c')%Q -> (a + b + c <= a' + b' + c')%Q.
Proof. intros. apply Qplus_le_compat; [apply Qplus_le_compat|]; auto. Qed.

Lemma tier_scores_ok (rs : list (string * string)) (seen : bool) (acc : Q * Q * Q) :
  tiers_ok seen acc ->
  tiers_ok (seen || match rs with [] => false | _ => true end)
           (fold_left tier_step rs acc).
Proof.
  revert seen acc. induction rs as [| r rs IH]; intros seen [[t1 t2] t3] Hok.
  - simpl. rewrite orb_false_r. exact Hok.
  - cbn [fold_left].
    change (seen || match r :: rs with [] => false | _ => true end) with (seen || true).
    replace (seen || true) with (true || match rs with [] => false | _ => true end)
      by (rewrite !orb_true_r; reflexivity).
    apply IH. destruct Hok as [H1 [H2 [H3 _]]].
    assert (Hm : forall a w, (0 <= a)%Q -> (0 <= py_max a w)%Q)
      by (intros; eapply Qle_trans; [eassumption | apply py_max_ge_l]).
    cbn beta iota zeta delta [tier_step].
    destruct (py_any (fun i => contains i (str_lower (snd r))) TIER1_INDICATORS);
      [| destruct (py_any (fun i => contains i (str_lower (snd r))) TIER2_INDICATORS)];
      unfold tiers_ok; repeat split; auto; intros _.
    + eapply Qle_trans; [| apply (Qle_sum3 (4 # 10) 0 0); [apply py_max_ge_r | | ]; eauto].
      vm_compute; discriminate.
    + eapply Qle_trans; [| apply (Qle_sum3 0 (1 # 4) 0); [| apply py_max_ge_r | ]; eauto].
      vm_compute; discriminate.
    + eapply Qle_trans; [| apply (Qle_sum3 0 0 (1 # 10)); [| | apply py_max_ge_r]; eauto].
      vm_compute; discriminate.
Qed.

Lemma py_min_cases (a b : Q) :
  (py_min a b = b /\ (b < a)%Q) \/ (py_min a b = a /\ (a <= b)%Q).
Proof.
  unfold py_min. destruct (Qlt_bool b a) eqn:E.
  - left. split; [reflexivity | apply Qlt_bool_iff, E].
  - right. split; [reflexivity | apply Qlt_bool_false, E].
Qed.

(** The score is 0.1 (no result), 0.2 (results, none relevant), or a
    capped sum of at least 0.5 + 0.1. *)
Lemma calculate_confidence_cases (results : list (string * string)) (claim : Claim) :
  calculate_confidence results claim = 1 # 10 \/
  calculate_confidence results claim = 2 # 10 \/
  (6 # 10 <= calculate_confidence results claim <= 95 # 100)%Q.
Proof.
  unfold calculate_confidence.
  destruct results as [| r0 rs0]; [left; reflexivity |].
  destruct (filter_relevant_results (r0 :: rs0) (str_lower (claim_text claim)))
    as [| r rs] eqn:Hrel; [right; left; reflexivity |].
  right; right.
  pose proof (tier_scores_ok (r :: rs) false (0%Q, 0%Q, 0%Q)) as Ht.
  unfold tier_scores.
  destruct (fold_left tier_step (r :: rs) (0%Q, 0%Q, 0%Q)) as [[t1 t2] t3].
  destruct Ht as [H1 [H2 [H3 H4]]]; [vm_compute; repeat split; discriminate |].
  specialize (H4 eq_refl).
  pose proof (content_match_nonneg (str_lower (claim_text claim)) (r :: rs)) as Hc.
  set (cm := content_match (str_lower (claim_text claim)) (r :: rs)) in *.
  set (cons_score := if 3 <=? length (r :: rs) then 2 # 10
                     else if 2 <=? length (r :: rs) then 1 # 10 else 0%Q).
  assert (Hcs : (0 <= cons_score)%Q).
  { unfold cons_score. destruct (3 <=? _); [| destruct (2 <=? _)];
      vm_compute; discriminate. }
  destruct (py_min_cases ((1 # 2) + cm + (t1 + t2 + t3) + cons_score) (95 # 100))
    as [[-> _] | [-> Hle]].
  - split; vm_compute; discriminate.
  - split; [lra | exact Hle].
Qed.

(** C2: every claim returned by [verify_claims] has a confidence between
    0.1 and 0.95. *)
Theorem verify_claims_confidence_bounds (cfg : Config) (b : SearchBackend)
    (claims : list Claim) (c : Claim) :
  In c (verify_claims cfg b claims) ->
  (1 # 10 <= claim_confidence c <= 95 # 100)%Q.
Proof.
  unfold verify_claims. intros Hin.
  apply in_map_iff in Hin as [c0 [<- _]].
  unfold verify_single_claim; cbn [claim_confidence].
  destruct (calculate_confidence_cases
              (filter_search_results (run_search cfg b (enhance_search_query (claim_text c0)))
                 (claim_text c0)) c0) as [-> | [-> | [Hl Hh]]].
  - split; vm_compute; discriminate.
  - split; vm_compute; discriminate.
  - split; [| exact Hh]. apply Qle_trans with (6 # 10); [vm_compute; discriminate | exact Hl].
Qed.

(** ** Compliance tiers on verified claims *)

Lemma confidence_issue_outside_gap (c : Claim) :
  (claim_confidence c = 1 # 10 \/ claim_confidence c = 2 # 10 \/
   (6 # 10 <= claim_confidence c)%Q) ->
  match claim_confidence_issue c with
  | Some i => rule_id i = "low_confidence_claim"
  | None => True
  end.
Proof.
  destruct c as [t sev srcs conf]; cbn [claim_confidence]. intros Hc.
  unfold claim_confidence_issue; cbn [claim_confidence claim_severity claim_sources].
  destruct sev; [exact I | |].
  - destruct (Qlt_bool conf (25 # 100)); reflexivity.
  - destruct Hc as [-> | [-> | Hge]]; [reflexivity | reflexivity |].
    rewrite (proj2 (Qlt_bool_false conf (3 # 10))) by lra.
    rewrite (proj2 (Qlt_bool_false conf (5 # 10))) by lra.
    rewrite (proj2 (Qlt_bool_false conf (6 # 10))) by lra.
    exact I.
Qed.

(** C10: a freshly verified claim has confidence 0.1, 0.2 or at least 0.6,
    never strictly between 0.2 and 0.6; hence neither the [unsourced_claim]
    tier (confidence in [0.3, 0.5)) nor the [attribution_note] tier
    (confidence below 0.6 with sources) fires on it. *)
Theorem verified_confidence_gap (cfg : Config) (b : SearchBackend) (c : Claim) :
  let v := verify_single_claim cfg b c in
  (claim_confidence v = 1 # 10 \/ claim_confidence v = 2 # 10 \/
   (6 # 10 <= claim_confidence v)%Q) /\
  ~ (2 # 10 < claim_confidence v < 6 # 10)%Q /\
  ~ In "unsourced_claim" (map rule_id (check_claim_confidence [v])) /\
  ~ In "attribution_note" (map rule_id (check_claim_confidence [v])).
Proof.
  intros v.
  assert (Hv : claim_confidence v = 1 # 10 \/ claim_confidence v = 2 # 10 \/
               (6 # 10 <= claim_confidence v)%Q).
  { unfold v, verify_single_claim; cbn [claim_confidence].
    destruct (calculate_confidence_cases
                (filter_search_results (run_search cfg b (enhance_search_query (claim_text c)))
                   (claim_text c)) c) as [H | [H | [H _]]]; auto. }
  pose proof (confidence_issue_outside_gap v Hv) as Hi.
  split; [exact Hv |].
  split.
  { intros [Hl Hh]. destruct Hv as [E | [E | E]]; rewrite ?E in Hl, Hh; lra. }
  unfold check_claim_confidence; cbn [flat_map].
  destruct (claim_confidence_issue v) as [i |]; cbn.
  - rewrite Hi. split; intros [H | []]; discriminate.
  - split; intros [].
Qed.

(** C4 (amended): for a high-severity claim the [attribution_note] issue is
    raised exactly when its confidence lies in [0.3, 0.6) and it has at least
    two sources; with two sources a confidence in [0.3, 0.5) is enough. *)
Theorem attribution_note_iff (c : Claim) :
  claim_severity c = high ->
  (In "attribution_note" (map rule_id (check_claim_confidence [c])) <->
   (3 # 10 <= claim_confidence c < 6 # 10)%Q /\ 2 <= length (claim_sources c)).
Proof.
  destruct c as [t sev srcs conf]; cbn [claim_severity claim_confidence claim_sources].
  intros ->.
  unfold check_claim_confidence; cbn [flat_map].
  unfold claim_confidence_issue; cbn [claim_confidence claim_severity claim_sources].
  destruct (Qlt_bool conf (3 # 10)) eqn:E3.
  - apply Qlt_bool_iff in E3. cbn. split; [intros [H | []]; discriminate | lra].
  - apply Qlt_bool_false in E3.
    destruct (length srcs =? 0) eqn:Ez.
    + (* no source: at most [unsourced_claim], and fewer than two sources *)
      apply Nat.eqb_eq in Ez. rewrite Ez.
      destruct (Qlt_bool conf (5 # 10)), (Qlt_bool conf (6 # 10)); cbn;
        (split; [intros [H | []]; discriminate | intros [_ H]; lia]) ||
        (split; [intros [] | intros [_ H]; lia]).
    + rewrite andb_false_r. cbn [negb].
      destruct (Qlt_bool conf (6 # 10)) eqn:E6; cbn [andb].
      * apply Qlt_bool_iff in E6.
        destruct (2 <=? length srcs) eqn:E2; cbn.
        -- apply Nat.leb_le in E2. split; [intros _; split; [lra | exact E2] | auto].
        -- apply Nat.leb_gt in E2. split; [intros [] | lia].
      * apply Qlt_bool_false in E6. cbn. split; [intros [] | lra].
Qed.

(** ** Scores when nothing relevant survives *)

(** C5 (amended): when no search result survives [_filter_search_results]
    (also when the search returned results that the filter dropped) the
    confidence is 0.1; when some survive it but none passes
    [_filter_relevant_results] it is 0.2. *)
Theorem verify_single_claim_no_relevant (cfg : Config) (b : SearchBackend) (c : Claim) :
  let filtered := filter_search_results
                    (run_search cfg b (enhance_search_query (claim_text c))) (claim_text c) in
  (filtered = [] -> claim_confidence (verify_single_claim cfg b c) = 1 # 10) /\
  (filtered <> [] -> filter_relevant_results filtered (str_lower (claim_text c)) = [] ->
   claim_confidence (verify_single_claim cfg b c) = 2 # 10).
Proof.
  intros filtered. unfold verify_single_claim; cbn [claim_confidence]. fold filtered.
  split.
  - intros ->. reflexivity.
  - intros Hne Hrel. unfold calculate_confidence.
    destruct filtered as [| r rs]; [congruence |]. rewrite Hrel. reflexivity.
Qed.

Lemma verify_single_claim_no_relevant_witness :
  let c := mkClaim "Cats like milk" high [] 0 in
  (filter_search_results (run_search cfg_ddg noise_backend (enhance_search_query (claim_text c)))
     (claim_text c) = [] /\
   claim_confidence (verify_single_claim cfg_ddg noise_backend c) = 1 # 10) /\
  (filter_search_results
     (run_search cfg_ddg quality_noise_backend (enhance_search_query (claim_text c)))
     (claim_text c) <> [] /\
   claim_confidence (verify_single_claim cfg_ddg quality_noise_backend c) = 2 # 10).
Proof.
  intros c. split; split.
  - vm_compute; reflexivity.
  - apply (proj1 (verify_single_claim_no_relevant cfg_ddg noise_backend c)).
    vm_compute. reflexivity.
  - vm_compute; discriminate.
  - apply (proj2 (verify_single_claim_no_relevant cfg_ddg quality_noise_backend c)).
    + vm_compute; discriminate.
    + vm_compute; reflexivity.
Defined.

(** C5 counterexample: the search returns a result, none survives the
    filtering, and the confidence is 0.1, not 0.2. *)
Lemma raw_result_but_floor_confidence :
  let c := mkClaim "Cats like milk" high [] 0 in
  run_search cfg_ddg noise_backend (enhance_search_query (claim_text c)) <> [] /\
  filter_search_results (run_search cfg_ddg noise_backend (enhance_search_query (claim_text c)))
    (claim_text c) = [] /\
  claim_confidence (verify_single_claim cfg_ddg noise_backend c) = 1 # 10.
Proof.
  intros c. vm_compute. split; [discriminate | split; reflexivity].
Qed.

(** ** Search provider failure *)

Lemma fold_left_fixed {A B} (f : A -> B -> A) (l : list B) (a : A) :
  (forall x, In x l -> f a x = a) -> fold_left f l a = a.
Proof.
  revert a. induction l as [| x l IH]; intros a Hf; simpl; [reflexivity |].
  rewrite (Hf x (or_introl eq_refl)). apply IH. intros y Hy. apply Hf. right. exact Hy.
Qed.

Lemma run_search_fails (cfg : Config) (b : SearchBackend) (query : string) :
  always_fails b -> run_search cfg b query = [].
Proof.
  intros [Hd [Hl _]]. unfold run_search.
  destruct (String.eqb (FACTCHECK_PROVIDER cfg) "wikipedia").
  - unfold search_wikipedia. destruct (Hl (WIKIPEDIA_LANG cfg)) as [e ->]. reflexivity.
  - unfold search_duckduckgo. rewrite fold_left_fixed; [destruct (5 * 2); reflexivity |].
    intros q _. destruct (Hd q 5) as [e ->]. reflexivity.
Qed.

Lemma verify_single_claim_fails (cfg : Config) (b : SearchBackend) (c : Claim) :
  always_fails b -> claim_confidence (verify_single_claim cfg b c) = 1 # 10.
Proof.
  intros Hb. unfold verify_single_claim. rewrite (run_search_fails cfg b _ Hb). reflexivity.
Qed.

Lemma in_firstn_skipn {A} (x : A) (n m : nat) (l : list A) :
  In x (firstn n (skipn m l)) -> In x l.
Proof.
  intros H.
  assert (H1 : In x (skipn m l)).
  { rewrite <- (firstn_skipn n (skipn m l)). apply in_or_app. left. exact H. }
  clear H. revert l H1. induction m as [| m IH]; intros l H.
  - exact H.
  - destruct l as [| y l]; [destruct H | right; apply IH, H].
Qed.

Lemma verify_claims_confidence_ok (cfg : Config) (b : SearchBackend) (cs : list Claim) (c : Claim) :
  In c (verify_claims cfg b cs) -> claim_confidence_ok c = true.
Proof.
  unfold verify_claims. intros Hin.
  apply in_map_iff in Hin as [c0 [<- _]].
  unfold claim_confidence_ok, verify_single_claim; cbn [claim_confidence].
  apply andb_true_intro. rewrite !Qle_bool_iff.
  destruct (calculate_confidence_cases
              (filter_search_results (run_search cfg b (enhance_search_query (claim_text c0)))
                 (claim_text c0)) c0) as [-> | [-> | [Hl Hh]]].
  - split; vm_compute; discriminate.
  - split; vm_compute; discriminate.
  - split.
    + apply Qle_trans with (6 # 10); [vm_compute; discriminate | exact Hl].
    + apply Qle_trans with (95 # 100); [exact Hh | vm_compute; discriminate].
Qed.

Lemma find_none_of {A} (f : A -> bool) (l : list A) :
  (forall x, In x l -> f x = false) -> find f l = None.
Proof.
  induction l as [| x l IH]; intros H; simpl; [reflexivity |].
  rewrite (H x (or_introl eq_refl)). apply IH. intros y Hy. apply H. right. exact Hy.
Qed.

(** The [Claim(...)] built by [_verify_single_claim] never raises: no
    verified claim breaks the [confidence] constraint. *)
Lemma fact_check_no_invalid (cfg : Config) (b : SearchBackend) (cs : list Claim) :
  find (fun c => negb (claim_confidence_ok c)) (verify_claims cfg b cs) = None.
Proof.
  apply find_none_of. intros x Hx.
  rewrite (verify_claims_confidence_ok cfg b cs x Hx). reflexivity.
Qed.

Lemma fact_check_errors (cfg : Config) (b : SearchBackend) ce (st : State) :
  errors (Graph.fact_check cfg b ce st) = errors st.
Proof.
  unfold Graph.fact_check. rewrite fact_check_no_invalid. reflexivity.
Qed.

Lemma fact_check_claims_from_verified (cfg : Config) (b : SearchBackend) ce (st : State) (c : Claim) :
  In c (flat_map snd (claims (Graph.fact_check cfg b ce st))) ->
  In c (verify_claims cfg b (flat_map snd (claims st))).
Proof.
  unfold Graph.fact_check; rewrite fact_check_no_invalid; cbn [claims set_claims].
  intros H. apply in_flat_map in H as [[p cs] [Hin Hc]].
  apply in_map_iff in Hin as [[p' cs'] [Heq _]]. cbn in Heq. inversion Heq; subst.
  eapply in_firstn_skipn. exact Hc.
Qed.

Lemma compliance_keeps (cfg : Config) (st : State) :
  claims (Graph.compliance cfg st) = claims st /\ errors (Graph.compliance cfg st) = errors st /\
  drafts (Graph.compliance cfg st) = drafts st.
Proof.
  unfold Graph.compliance.
  assert (H : forall l st', claims st' = claims st -> errors st' = errors st ->
            drafts st' = drafts st ->
            claims (fold_left (Graph.compliance_step cfg) l st') = claims st /\
            errors (fold_left (Graph.compliance_step cfg) l st') = errors st /\
            drafts (fold_left (Graph.compliance_step cfg) l st') = drafts st).
  { induction l as [| [p post] l IH]; intros st' H1 H2 H3; simpl; auto. }
  apply H; reflexivity.
Qed.

Lemma remediate_one_keeps_claims (cfg : Config) rewrite_call (st : State) pr :
  claims (Graph.remediate_one cfg rewrite_call st pr) = claims st.
Proof.
  destruct pr as [p rv]. unfold Graph.remediate_one.
  destruct (status rv); try reflexivity.
  destruct (get p (drafts st)) as [post |]; [| reflexivity].
  destruct (rewrite_call (issues rv) (primary_text post)); reflexivity.
Qed.

Lemma remediate_keeps_claims (cfg : Config) rewrite_call (st : State) :
  claims (Graph.remediate_if_blocked cfg rewrite_call st) = claims st.
Proof.
  unfold Graph.remediate_if_blocked. generalize (reviews st). intros l.
  revert st. induction l as [| pr l IH]; intros st; simpl; [reflexivity |].
  rewrite IH. apply remediate_one_keeps_claims.
Qed.

Lemma schedule_keeps_claims suggest_times (st : State) :
  claims (Graph.schedule suggest_times st) = claims st.
Proof.
  unfold Graph.schedule. destruct (suggest_times _ _ _); reflexivity.
Qed.

(** C6 (amended): when every search call fails, every claim of the
    pipeline's result has the floor confidence 0.1, and the verification
    stage adds nothing to [errors]: the search functions swallow provider
    failures and return an empty result list, and every claim it builds
    has a valid confidence, so its handler never fires. *)
Theorem search_failure_floor_confidence (cfg : Config) (b : SearchBackend) :
  always_fails b ->
  (forall ce kp_call kp_parse post_call post_parse verr fstr claims_call rewrite_call suggest_times
          st c,
     In c (flat_map snd (claims (Graph.run_pipeline cfg b ce kp_call kp_parse post_call post_parse
                                   verr fstr claims_call rewrite_call suggest_times st))) ->
     claim_confidence c = 1 # 10) /\
  (forall ce st, errors (Graph.fact_check cfg b ce st) = errors st).
Proof.
  intros Hb. split.
  - intros ce kp_call kp_parse post_call post_parse verr fstr claims_call rewrite_call suggest_times
      st c Hc.
    unfold Graph.run_pipeline in Hc.
    rewrite schedule_keeps_claims, remediate_keeps_claims,
      (proj1 (compliance_keeps cfg _)) in Hc.
    apply fact_check_claims_from_verified in Hc.
    unfold verify_claims in Hc. apply in_map_iff in Hc as [c0 [<- _]].
    apply verify_single_claim_fails, Hb.
  - intros ce st. apply fact_check_errors.
Qed.

Lemma failing_backend_always_fails : always_fails failing_backend.
Proof. repeat split; intros; eexists; reflexivity. Defined.

Lemma search_failure_floor_confidence_witness :
  exists c,
    In c (flat_map snd (claims (Graph.run_pipeline cfg_ddg failing_backend conf_err kp_ok kp_parse_ok
                                  post_ok post_parse_ok verr_ok float_str_ex claims_ok rewrite_ok times_ok
                                  initial_state))) /\
    claim_confidence c = 1 # 10.
Proof.
  eexists. split.
  - vm_compute. left. reflexivity.
  - apply (proj1 (search_failure_floor_confidence cfg_ddg failing_backend
                    failing_backend_always_fails)
             conf_err kp_ok kp_parse_ok post_ok post_parse_ok verr_ok float_str_ex claims_ok
             rewrite_ok times_ok initial_state).
    vm_compute. left. reflexivity.
Defined.

(** C6 counterexample: with every search call failing and every other stage
    succeeding, the pipeline ends with an empty [errors] list. *)
Lemma search_failure_no_error :
  errors (Graph.run_pipeline cfg_ddg failing_backend conf_err kp_ok kp_parse_ok post_ok
            post_parse_ok verr_ok float_str_ex claims_ok rewrite_ok times_ok initial_state) = [].
Proof. vm_compute. reflexivity. Qed.

(** ** Witnesses and counterexample for the confidence claims *)

Lemma verify_claims_confidence_bounds_witness :
  exists c,
    In c (verify_claims cfg_ddg quality_noise_backend [mkClaim "Cats like milk" high [] 0]) /\
    (1 # 10 <= claim_confidence c <= 95 # 100)%Q.
Proof.
  eexists. split.
  - vm_compute. left. reflexivity.
  - apply (verify_claims_confidence_bounds cfg_ddg quality_noise_backend
             [mkClaim "Cats like milk" high [] 0]).
    vm_compute. left. reflexivity.
Defined.

Lemma attribution_note_iff_witness :
  In "attribution_note"
     (map rule_id (check_claim_confidence
        [mkClaim "Gartner: 55% of firms use AI" high ["https://a.org"; "https://b.org"] (55 # 100)])).
Proof.
  apply (proj2 (attribution_note_iff
                  (mkClaim "Gartner: 55% of firms use AI" high
                     ["https://a.org"; "https://b.org"] (55 # 100)) eq_refl)).
  cbn. split; [split; lra | cbn; lia].
Defined.

(** C4 counterexample: a high-severity claim with confidence 0.4 (below 0.5)
    and two sources gets an [attribution_note]. *)
Lemma attribution_note_below_half :
  let c := mkClaim "Gartner: 40% of firms use AI" high ["https://a.org"; "https://b.org"] (4 # 10) in
  (claim_confidence c < 1 # 2)%Q /\
  In "attribution_note" (map rule_id (check_claim_confidence [c])).
Proof. intros c. split; [vm_compute; reflexivity | vm_compute; left; reflexivity]. Qed.

(** ** Dict lemmas *)

Lemma platform_eqb_iff (a b : Platform) : platform_eqb a b = true <-> a = b.
Proof. destruct a, b; cbn; split; congruence. Qed.

Lemma platform_eqb_refl (a : Platform) : platform_eqb a a = true.
Proof. apply platform_eqb_iff. reflexivity. Qed.

Lemma set_in_some {V} (q : Platform) (v : V) (m m' : list (Platform * V)) :
  set_in q v m = Some m' ->
  forall p, get p m' = if platform_eqb p q then Some v else get p m.
Proof.
  revert m'. induction m as [| [k w] m IH]; intros m' H p; cbn in H; [discriminate |].
  destruct (platform_eqb q k) eqn:Eqk.
  - inversion H; subst. apply platform_eqb_iff in Eqk; subst k. cbn.
    destruct (platform_eqb p q); reflexivity.
  - destruct (set_in q v m) as [m'' |] eqn:E; cbn in H; [| discriminate].
    inversion H; subst. cbn. rewrite (IH m'' eq_refl p).
    destruct (platform_eqb p k) eqn:Epk; [| reflexivity].
    apply platform_eqb_iff in Epk; subst k.
    destruct (platform_eqb p q) eqn:Epq; [| reflexivity].
    apply platform_eqb_iff in Epq; subst q. rewrite platform_eqb_refl in Eqk. discriminate.
Qed.

Lemma set_in_none {V} (q : Platform) (v : V) (m : list (Platform * V)) :
  set_in q v m = None -> ~ In q (map fst m).
Proof.
  induction m as [| [k w] m IH]; intros H; cbn in *; [tauto |].
  destruct (platform_eqb q k) eqn:Eqk; [discriminate |].
  destruct (set_in q v m); cbn in H; [discriminate |].
  intros [-> | Hin]; [rewrite platform_eqb_refl in Eqk; discriminate | exact (IH eq_refl Hin)].
Qed.

Lemma get_none {V} (p : Platform) (m : list (Platform * V)) :
  ~ In p (map fst m) -> get p m = None.
Proof.
  induction m as [| [k w] m IH]; intros H; cbn in *; [reflexivity |].
  destruct (platform_eqb p k) eqn:E.
  - apply platform_eqb_iff in E. subst. tauto.
  - apply IH. tauto.
Qed.

Lemma get_app {V} (p : Platform) (m1 m2 : list (Platform * V)) :
  get p (m1 ++ m2) = match get p m1 with Some v => Some v | None => get p m2 end.
Proof.
  induction m1 as [| [k w] m1 IH]; cbn; [reflexivity |].
  destruct (platform_eqb p k); [reflexivity | exact IH].
Qed.

Lemma get_set {V} (p q : Platform) (v : V) (m : list (Platform * V)) :
  get p (set q v m) = if platform_eqb p q then Some v else get p m.
Proof.
  unfold set. destruct (set_in q v m) as [m' |] eqn:E.
  - apply set_in_some. exact E.
  - rewrite get_app. cbn. apply set_in_none in E.
    destruct (platform_eqb p q) eqn:Epq.
    + apply platform_eqb_iff in Epq; subst. rewrite (get_none q m E).
      rewrite ?platform_eqb_refl. reflexivity.
    + destruct (get p m); reflexivity.
Qed.

Lemma set_fresh {V} (q : Platform) (v : V) (m : list (Platform * V)) :
  ~ In q (map fst m) -> set q v m = m ++ [(q, v)].
Proof.
  intros H. unfold set. destruct (set_in q v m) as [m' |] eqn:E; [| reflexivity].
  exfalso. apply H. clear H. revert m' E.
  induction m as [| [k w] m IH]; intros m' E; cbn in *; [discriminate |].
  destruct (platform_eqb q k) eqn:Eqk.
  - left. symmetry. apply platform_eqb_iff, Eqk.
  - destruct (set_in q v m) as [m'' |]; [right; exact (IH m'' eq_refl) | discriminate].
Qed.

Lemma count_calls_snoc (p q : Platform) (log : list Platform) :
  count_calls p (log ++ [q]) = count_calls p log + (if platform_eqb p q then 1 else 0).
Proof.
  unfold count_calls. rewrite filter_app, length_app. cbn.
  destruct (platform_eqb p q); reflexivity.
Qed.

(** ** Number of compliance reviews per platform *)

Lemma review_depends_on_claims (cfg : Config) (st st' : State) p t :
  claims st' = claims st -> Graph.review cfg st' p t = Graph.review cfg st p t.
Proof. intros H. unfold Graph.review. rewrite H. reflexivity. Qed.

Lemma compliance_fold (cfg : Config) (st : State) :
  forall l st', claims st' = claims st ->
    NoDup (map fst (reviews st') ++ map fst l) ->
    review_log (fold_left (Graph.compliance_step cfg) l st') = review_log st' ++ map fst l /\
    map fst (reviews (fold_left (Graph.compliance_step cfg) l st'))
      = map fst (reviews st') ++ map fst l /\
    (forall q, get q (reviews (fold_left (Graph.compliance_step cfg) l st')) =
               match get q l with
               | Some post => Some (Graph.review cfg st q (primary_text post))
               | None => get q (reviews st')
               end).
Proof.
  induction l as [| [p post] l IH]; intros st' Hc Hnd; cbn [fold_left map].
  - rewrite !app_nil_r. split; [reflexivity | split; [reflexivity | intros q; reflexivity]].
  - assert (Hfresh : ~ In p (map fst (reviews st'))).
    { intros Hin. apply NoDup_remove_2 in Hnd. apply Hnd. apply in_or_app. left. exact Hin. }
    assert (Hnd' : NoDup (map fst (reviews (Graph.compliance_step cfg st' (p, post)))
                          ++ map fst l)).
    { cbn. rewrite set_fresh by exact Hfresh. rewrite map_app, <- app_assoc. exact Hnd. }
    destruct (IH (Graph.compliance_step cfg st' (p, post)) Hc Hnd') as [H1 [H2 H3]].
    assert (Hpl : ~ In p (map fst l)).
    { intros Hin. apply NoDup_remove_2 in Hnd. apply Hnd. apply in_or_app. right. exact Hin. }
    split; [| split].
    + rewrite H1. cbn. rewrite <- app_assoc. reflexivity.
    + rewrite H2. cbn. rewrite set_fresh by exact Hfresh. rewrite map_app, <- app_assoc.
      reflexivity.
    + intros q. rewrite H3. cbn [get].
      destruct (platform_eqb q p) eqn:Eqp.
      * apply platform_eqb_iff in Eqp; subst q. rewrite (get_none p l Hpl).
        cbn. rewrite get_set, platform_eqb_refl.
        rewrite (review_depends_on_claims cfg st st' p _ Hc). reflexivity.
      * destruct (get q l); [reflexivity |]. cbn. rewrite get_set, Eqp. reflexivity.
Qed.

Lemma remediate_one_count (cfg : Config) rewrite_call (st : State) (p q : Platform) rv :
  count_calls p (review_log (Graph.remediate_one cfg rewrite_call st (q, rv))) =
  count_calls p (review_log st) +
  (if platform_eqb p q then
     match get q (drafts st) with
     | Some post => if is_blocked_review rv && rewrite_succeeds rewrite_call rv post then 1 else 0
     | None => 0
     end
   else 0).
Proof.
  unfold Graph.remediate_one, is_blocked_review, rewrite_succeeds, count_calls.
  destruct (status rv) eqn:Hs; cbn [andb];
    try (destruct (platform_eqb p q); [destruct (get q (drafts st)) |]; cbn; lia).
  destruct (get q (drafts st)) as [post |]; cbn.
  - destruct (rewrite_call (issues rv) (primary_text post)); cbn.
    + destruct (platform_eqb p q); lia.
    + rewrite filter_app, length_app. cbn. destruct (platform_eqb p q); cbn; lia.
  - destruct (platform_eqb p q); lia.
Qed.

Lemma remediate_one_drafts_other (cfg : Config) rewrite_call (st : State) (p q : Platform) rv :
  platform_eqb p q = false ->
  get p (drafts (Graph.remediate_one cfg rewrite_call st (q, rv))) = get p (drafts st).
Proof.
  intros Hpq. unfold Graph.remediate_one.
  destruct (status rv); try reflexivity.
  destruct (get q (drafts st)) as [post |]; [| reflexivity].
  destruct (rewrite_call (issues rv) (primary_text post)); [reflexivity |].
  cbn. rewrite get_set, Hpq. reflexivity.
Qed.

Lemma remediate_fold_count (cfg : Config) rewrite_call (p : Platform) :
  forall l st, NoDup (map fst l) ->
    count_calls p (review_log (fold_left (Graph.remediate_one cfg rewrite_call) l st)) =
    count_calls p (review_log st) +
    match get p l with
    | Some rv =>
        match get p (drafts st) with
        | Some post => if is_blocked_review rv && rewrite_succeeds rewrite_call rv post then 1 else 0
        | None => 0
        end
    | None => 0
    end.
Proof.
  induction l as [| [q rv] l IH]; intros st Hnd; cbn [fold_left get].
  - lia.
  - inversion Hnd as [| x xs Hq Hnd' Heq]; subst.
    rewrite (IH _ Hnd'), remediate_one_count.
    destruct (platform_eqb p q) eqn:Epq.
    + apply platform_eqb_iff in Epq; subst q. rewrite (get_none p l Hq). lia.
    + rewrite remediate_one_drafts_other by exact Epq. lia.
Qed.

Lemma count_calls_app (p : Platform) (l1 l2 : list Platform) :
  count_calls p (l1 ++ l2) = count_calls p l1 + count_calls p l2.
Proof. unfold count_calls. rewrite filter_app, length_app. reflexivity. Qed.

Lemma count_keys {V} (p : Platform) (m : list (Platform * V)) :
  NoDup (map fst m) ->
  count_calls p (map fst m) = match get p m with Some _ => 1 | None => 0 end.
Proof.
  induction m as [| [k w] m IH]; intros Hnd; [reflexivity |].
  inversion Hnd as [| x xs Hk Hnd' Heq]; subst.
  cbn [map get]. unfold count_calls. cbn [filter].
  destruct (platform_eqb p k) eqn:E.
  - apply platform_eqb_iff in E; subst k. rewrite platform_eqb_refl. cbn [length].
    fold (count_calls p (map fst m)). rewrite IH by exact Hnd'.
    rewrite (get_none p m Hk). reflexivity.
  - cbn [fst]. rewrite E. fold (count_calls p (map fst m)). apply IH. exact Hnd'.
Qed.

Lemma set_in_keys {V} (q : Platform) (v : V) (m m' : list (Platform * V)) :
  set_in q v m = Some m' -> map fst m' = map fst m.
Proof.
  revert m'. induction m as [| [k w] m IH]; intros m' H; cbn in H; [discriminate |].
  destruct (platform_eqb q k).
  - injection H as <-. reflexivity.
  - destruct (set_in q v m) as [m'' |] eqn:E; cbn in H; [| discriminate].
    injection H as <-. cbn. rewrite (IH m'' eq_refl). reflexivity.
Qed.

Lemma set_keys_nodup {V} (q : Platform) (v : V) (m : list (Platform * V)) :
  NoDup (map fst m) -> NoDup (map fst (set q v m)).
Proof.
  intros Hnd. unfold set. destruct (set_in q v m) as [m' |] eqn:E.
  - rewrite (set_in_keys q v m m' E). exact Hnd.
  - rewrite map_app. cbn.
    apply (Permutation_NoDup (Permutation_cons_append (map fst m) q)).
    constructor; [apply set_in_none with (v := v); exact E | exact Hnd].
Qed.

Lemma generate_posts_shape post_call post_parse verr fstr (st : State) :
  NoDup (map fst (drafts (Graph.generate_posts post_call post_parse verr fstr st))) /\
  review_log (Graph.generate_posts post_call post_parse verr fstr st) = review_log st.
Proof.
  assert (H : forall src l st', NoDup (map fst (drafts st')) -> review_log st' = review_log st ->
     NoDup (map fst (drafts (fold_left (Graph.generate_step post_call post_parse verr src) l st'))) /\
     review_log (fold_left (Graph.generate_step post_call post_parse verr src) l st') = review_log st).
  { intros src. induction l as [| p l IH]; intros st' H1 H2; cbn [fold_left]; [auto |].
    unfold Graph.generate_step.
    destruct (post_call p src) as [e | content]; [apply IH; cbn; auto |].
    destruct (post_parse content) as [[e | primary] |]; [apply IH; cbn; auto | | apply IH; cbn; auto].
    destruct (validate_character_limits p primary); apply IH; cbn; auto.
    apply set_keys_nodup. exact H1. }
  unfold Graph.generate_posts. apply H; [constructor | reflexivity].
Qed.

Lemma extract_key_points_log kp_call kp_parse (st : State) :
  review_log (Graph.extract_key_points kp_call kp_parse st) = review_log st.
Proof.
  unfold Graph.extract_key_points.
  destruct (negb (str_nonempty (text st))); [reflexivity |].
  destruct (kp_call (text st)) as [e | content]; [reflexivity |].
  destruct (kp_parse content) as [[| k ks] |]; reflexivity.
Qed.

Lemma extract_claims_keeps claims_call (st : State) :
  drafts (Graph.extract_claims claims_call st) = drafts st /\
  review_log (Graph.extract_claims claims_call st) = review_log st.
Proof.
  unfold Graph.extract_claims.
  assert (H : forall l st', drafts st' = drafts st -> review_log st' = review_log st ->
     drafts (fold_left (Graph.claims_step claims_call) l st') = drafts st /\
     review_log (fold_left (Graph.claims_step claims_call) l st') = review_log st).
  { induction l as [| [p post] l IH]; intros st' H1 H2; cbn [fold_left]; [auto |].
    apply IH; unfold Graph.claims_step;
      destruct (claims_call (text st') (primary_text post)) as [e | [cs |]]; cbn; auto. }
  apply H; reflexivity.
Qed.

Lemma schedule_keeps_log suggest_times (st : State) :
  review_log (Graph.schedule suggest_times st) = review_log st.
Proof. unfold Graph.schedule. destruct (suggest_times _ _ _); reflexivity. Qed.

(** The number of reviews of [p] made by [compliance] followed by
    [remediate_if_blocked], when the drafts have distinct platforms. *)
Lemma review_count_after_compliance (cfg : Config) rewrite_call (st : State) (p : Platform) :
  NoDup (map fst (drafts st)) ->
  count_calls p (review_log (Graph.remediate_if_blocked cfg rewrite_call
                              (Graph.compliance cfg st))) =
  count_calls p (review_log st) +
  match get p (drafts st) with
  | None => 0
  | Some post =>
      let rv := Graph.review cfg st p (primary_text post) in
      if is_blocked_review rv && rewrite_succeeds rewrite_call rv post then 2 else 1
  end.
Proof.
  intros Hnd.
  destruct (compliance_fold cfg st (drafts st) (set_reviews st []) eq_refl Hnd)
    as [H1 [H2 H3]].
  fold (Graph.compliance cfg st) in H1, H2, H3.
  destruct (compliance_keeps cfg st) as [_ [_ Hd]].
  unfold Graph.remediate_if_blocked.
  rewrite remediate_fold_count by (rewrite H2; exact Hnd).
  rewrite H1, H3, Hd, count_calls_app, count_keys by exact Hnd. cbn [review_log set_reviews].
  destruct (get p (drafts st)) as [post |]; cbn [get set_reviews reviews].
  - destruct (is_blocked_review _ && rewrite_succeeds _ _ _); lia.
  - lia.
Qed.

Lemma fact_check_keeps cfg b ce (st : State) :
  drafts (Graph.fact_check cfg b ce st) = drafts st /\
  review_log (Graph.fact_check cfg b ce st) = review_log st.
Proof.
  unfold Graph.fact_check.
  destruct (find _ _); split; reflexivity.
Qed.

(** C8 (amended): in one run of the pipeline, [review_post] is called for a
    platform [p] once per draft of [p] by [compliance], plus once more only
    when that first review is [block] and the rewrite request of
    [remediate_if_blocked] returns normally; no other call follows,
    whatever the status of the second review. A platform without a draft
    is not reviewed. *)
Theorem review_calls_per_platform cfg b ce kp_call kp_parse post_call post_parse verr fstr
    claims_call rewrite_call suggest_times (st : State) (p : Platform) :
  let st1 := Graph.fact_check cfg b ce (Graph.extract_claims claims_call
               (Graph.generate_posts post_call post_parse verr fstr
                  (Graph.extract_key_points kp_call kp_parse st))) in
  count_calls p (review_log (Graph.run_pipeline cfg b ce kp_call kp_parse post_call post_parse verr fstr
                              claims_call rewrite_call suggest_times st)) =
  count_calls p (review_log st) +
  match get p (drafts st1) with
  | None => 0
  | Some post =>
      let rv := Graph.review cfg st1 p (primary_text post) in
      if is_blocked_review rv && rewrite_succeeds rewrite_call rv post then 2 else 1
  end.
Proof.
  intros st1. unfold Graph.run_pipeline. fold st1.
  rewrite schedule_keeps_log.
  destruct (generate_posts_shape post_call post_parse verr fstr
              (Graph.extract_key_points kp_call kp_parse st)) as [Hnd Hlog].
  destruct (extract_claims_keeps claims_call
              (Graph.generate_posts post_call post_parse verr fstr
                 (Graph.extract_key_points kp_call kp_parse st))) as [Hd Hl].
  rewrite review_count_after_compliance.
  - unfold st1. rewrite !(proj2 (fact_check_keeps _ _ _ _)), Hl, Hlog, extract_key_points_log.
    reflexivity.
  - unfold st1. rewrite (proj1 (fact_check_keeps _ _ _ _)), Hd. exact Hnd.
Qed.

(** C8: a counterexample. The first review of the twitter post is [block],
    the rewrite request raises, and [review_post] is called once only for
    twitter in the whole run. *)
Lemma blocked_but_reviewed_once :
  let st1 := Graph.fact_check cfg_strict failing_backend conf_err (Graph.extract_claims claims_ok
               (Graph.generate_posts post_restricted post_parse_ok verr_ok float_str_ex
                  (Graph.extract_key_points kp_ok kp_parse_ok initial_state))) in
  get twitter (drafts st1) = Some (mkPost twitter "We diagnose problems before they reach you" None) /\
  status (Graph.review cfg_strict st1 twitter "We diagnose problems before they reach you") = block /\
  count_calls twitter (review_log (Graph.run_pipeline cfg_strict failing_backend conf_err
                                     kp_ok kp_parse_ok post_restricted post_parse_ok verr_ok float_str_ex
                                     claims_ok rewrite_fails times_ok initial_state)) = 1.
Proof. vm_compute. split; [reflexivity | split; reflexivity]. Qed.

(** ** Exception handling of the stages *)

Lemma extract_claims_raising (e : string) (st : State) :
  (forall q, get q (claims (Graph.extract_claims (fun _ _ => Exn e) st)) =
             match get q (drafts st) with Some _ => Some [] | None => None end) /\
  errors (Graph.extract_claims (fun _ _ => Exn e) st) =
    errors st ++ map (fun d : Platform * PlatformPost =>
                        ("Claim extraction failed for " ++ platform_name (fst d) ++ ": " ++ e)%string)
                     (drafts st).
Proof.
  unfold Graph.extract_claims.
  assert (H : forall l st',
    (forall q, get q (claims (fold_left (Graph.claims_step (fun _ _ => Exn e)) l st')) =
               match get q l with Some _ => Some [] | None => get q (claims st') end) /\
    errors (fold_left (Graph.claims_step (fun _ _ => Exn e)) l st') =
      errors st' ++ map (fun d : Platform * PlatformPost =>
                          ("Claim extraction failed for " ++ platform_name (fst d) ++ ": " ++ e)%string) l).
  { induction l as [| [p post] l IH]; intros st'; cbn [fold_left].
    - split; [intros q; reflexivity | rewrite app_nil_r; reflexivity].
    - destruct (IH (Graph.claims_step (fun _ _ => Exn e) st' (p, post))) as [H1 H2].
      split.
      + intros q. rewrite H1. cbn [get Graph.claims_step claims set_claims].
        rewrite get_set.
        destruct (platform_eqb q p); destruct (get q l); reflexivity.
      + rewrite H2. cbn. rewrite <- app_assoc. reflexivity. }
  destruct (H (drafts st) (set_claims st [])) as [H1 H2].
  split; [intros q; rewrite H1; destruct (get q (drafts st)); reflexivity | exact H2].
Qed.

Lemma remediate_raising (cfg : Config) (e : string) (st : State) :
  reviews (Graph.remediate_if_blocked cfg (fun _ _ => Exn e) st) = reviews st /\
  drafts (Graph.remediate_if_blocked cfg (fun _ _ => Exn e) st) = drafts st /\
  errors (Graph.remediate_if_blocked cfg (fun _ _ => Exn e) st) =
    errors st ++ flat_map (fun pr : Platform * PostReview =>
                 if is_blocked_review (snd pr) then
                   [("Remediation failed for " ++ platform_name (fst pr) ++ ": " ++
                     match get (fst pr) (drafts st) with
                     | Some _ => e
                     | None => Compliance.q (platform_name (fst pr))
                     end)%string]
                 else []) (reviews st).
Proof.
  unfold Graph.remediate_if_blocked.
  assert (H : forall l st', reviews st' = reviews st -> drafts st' = drafts st ->
    reviews (fold_left (Graph.remediate_one cfg (fun _ _ => Exn e)) l st') = reviews st /\
    drafts (fold_left (Graph.remediate_one cfg (fun _ _ => Exn e)) l st') = drafts st /\
    errors (fold_left (Graph.remediate_one cfg (fun _ _ => Exn e)) l st') =
      errors st' ++ flat_map (fun pr : Platform * PostReview =>
                 if is_blocked_review (snd pr) then
                   [("Remediation failed for " ++ platform_name (fst pr) ++ ": " ++
                     match get (fst pr) (drafts st) with
                     | Some _ => e
                     | None => Compliance.q (platform_name (fst pr))
                     end)%string]
                 else []) l).
  { induction l as [| [p rv] l IH]; intros st' Hr Hd; cbn [fold_left].
    - rewrite app_nil_r. auto.
    - assert (Hstep : Graph.remediate_one cfg (fun _ _ => Exn e) st' (p, rv) =
        if is_blocked_review rv then
          add_error st' ("Remediation failed for " ++ platform_name p ++ ": " ++
                         match get p (drafts st) with
                         | Some _ => e
                         | None => Compliance.q (platform_name p)
                         end)%string
        else st').
      { unfold Graph.remediate_one, is_blocked_review. rewrite Hd.
        destruct (status rv); [reflexivity | reflexivity |].
        destruct (get p (drafts st)); reflexivity. }
      rewrite Hstep. cbn [flat_map fst snd].
      destruct (is_blocked_review rv).
      + match goal with |- context [fold_left _ l ?s] => destruct (IH s Hr Hd) as [H1 [H2 H3]] end.
        split; [exact H1 | split; [exact H2 |]]. rewrite H3. cbn. rewrite <- app_assoc.
        reflexivity.
      + apply IH; assumption. }
  apply H; reflexivity.
Qed.

Lemma keeps_at_refl (p : Platform) (s : State) : keeps_at p s s.
Proof. repeat split; auto. exists []. rewrite app_nil_r. reflexivity. Qed.

Lemma keeps_at_trans (p : Platform) (s1 s2 s3 : State) :
  keeps_at p s1 s2 -> keeps_at p s2 s3 -> keeps_at p s1 s3.
Proof.
  intros [A1 [B1 [C1 [D1 [m1 E1]]]]] [A2 [B2 [C2 [D2 [m2 E2]]]]].
  repeat split; try congruence. exists (m1 ++ m2). rewrite E2, E1, app_assoc. reflexivity.
Qed.

Lemma keeps_at_error (p : Platform) (s s' : State) (msg : string) :
  keeps_at p s s' -> In msg (errors s) -> In msg (errors s').
Proof.
  intros [_ [_ [_ [_ [m E]]]]] H. rewrite E. apply in_or_app. left. exact H.
Qed.

Lemma fold_keeps_at {A} (f : State -> A -> State) (p : Platform) (l : list A) :
  (forall s x, In x l -> keeps_at p s (f s x)) ->
  forall st, keeps_at p st (fold_left f l st).
Proof.
  induction l as [| x l IH]; intros Hf st; cbn [fold_left]; [apply keeps_at_refl |].
  apply keeps_at_trans with (f st x); [apply Hf; left; reflexivity |].
  apply IH. intros s y Hy. apply Hf. right. exact Hy.
Qed.

Lemma keeps_at_add_error (p : Platform) (s : State) (msg : string) :
  keeps_at p s (add_error s msg).
Proof. repeat split. exists [msg]. reflexivity. Qed.

Lemma nodup_split {V} (p : Platform) (v : V) (m : list (Platform * V)) :
  NoDup (map fst m) -> In (p, v) m ->
  exists l1 l2, m = l1 ++ (p, v) :: l2 /\ ~ In p (map fst l1) /\ ~ In p (map fst l2).
Proof.
  intros Hnd Hin. apply in_split in Hin as [l1 [l2 ->]].
  exists l1, l2. split; [reflexivity |].
  rewrite map_app in Hnd. cbn in Hnd. apply NoDup_remove_2 in Hnd.
  split; intros H; apply Hnd, in_or_app; auto.
Qed.

Lemma not_in_keys_eqb {V} (p : Platform) (l : list (Platform * V)) (x : Platform * V) :
  ~ In p (map fst l) -> In x l -> platform_eqb p (fst x) = false.
Proof.
  intros Hn Hx. destruct (platform_eqb p (fst x)) eqn:E; [| reflexivity].
  apply platform_eqb_iff in E. subst. exfalso. apply Hn, in_map, Hx.
Qed.

Lemma generate_step_other post_call post_parse verr src (s : State) (p q : Platform) :
  platform_eqb p q = false ->
  keeps_at p s (Graph.generate_step post_call post_parse verr src s q).
Proof.
  intros Hpq. unfold Graph.generate_step.
  destruct (post_call q src) as [e | content]; [apply keeps_at_add_error |].
  destruct (post_parse content) as [[e | t] |]; try apply keeps_at_add_error.
  destruct (validate_character_limits q t); [apply keeps_at_add_error |].
  repeat split; cbn; [rewrite get_set, Hpq; reflexivity |].
  exists []. rewrite app_nil_r. reflexivity.
Qed.

(** A platform whose step of [generate_posts] only records [msg] ends with
    no draft and [msg] in [errors], whatever the other platforms do. *)
Lemma generate_posts_failed_at post_call post_parse verr fstr (st : State) (p : Platform) msg :
  (forall s, Graph.generate_step post_call post_parse verr (Graph.content_source fstr st) s p =
             add_error s msg) ->
  get p (drafts (Graph.generate_posts post_call post_parse verr fstr st)) = None /\
  In msg (errors (Graph.generate_posts post_call post_parse verr fstr st)).
Proof.
  intros Hstep.
  assert (Hsplit : exists l1 l2, Graph.PLATFORMS = l1 ++ p :: l2 /\
                                 ~ In p l1 /\ ~ In p l2).
  { destruct p; [exists [], [linkedin; instagram] | exists [twitter], [instagram]
                | exists [twitter; linkedin], []];
      cbn; repeat split; intuition discriminate. }
  destruct Hsplit as [l1 [l2 [Hl [H1 H2]]]].
  assert (Hother : forall l, ~ In p l -> forall s x, In x l ->
            keeps_at p s (Graph.generate_step post_call post_parse verr
                            (Graph.content_source fstr st) s x)).
  { intros l Hn s x Hx. apply generate_step_other.
    destruct (platform_eqb p x) eqn:E; [| reflexivity].
    apply platform_eqb_iff in E. subst. contradiction. }
  unfold Graph.generate_posts. rewrite Hl, fold_left_app. cbn [fold_left].
  set (s1 := fold_left _ l1 (set_drafts st [])).
  pose proof (fold_keeps_at _ p l1 (Hother l1 H1) (set_drafts st [])) as K1.
  fold s1 in K1.
  pose proof (fold_keeps_at _ p l2 (Hother l2 H2)
                (Graph.generate_step post_call post_parse verr (Graph.content_source fstr st) s1 p)) as K2.
  rewrite Hstep in K2 |- *.
  destruct K2 as [D2 _]. split.
  - rewrite D2. cbn. destruct K1 as [D1 _]. rewrite D1. reflexivity.
  - eapply keeps_at_error; [exact (fold_keeps_at _ p l2 (Hother l2 H2) _) |].
    cbn. apply in_or_app. right. left. reflexivity.
Qed.

Lemma claims_step_other claims_call (s : State) (p q : Platform) (post : PlatformPost) :
  platform_eqb p q = false -> keeps_at p s (Graph.claims_step claims_call s (q, post)).
Proof.
  intros Hpq. unfold Graph.claims_step.
  destruct (claims_call (text s) (primary_text post)) as [e | [cs |]];
    repeat split; cbn; try (rewrite get_set, Hpq; reflexivity).
  - exists [("Claim extraction failed for " ++ platform_name q ++ ": " ++ e)%string]. reflexivity.
  - exists []. rewrite app_nil_r. reflexivity.
  - exists []. rewrite app_nil_r. reflexivity.
Qed.

Lemma remediate_one_other (cfg : Config) rewrite_call (s : State) (p q : Platform) rv :
  platform_eqb p q = false -> keeps_at p s (Graph.remediate_one cfg rewrite_call s (q, rv)).
Proof.
  intros Hpq. unfold Graph.remediate_one.
  destruct (status rv); try apply keeps_at_refl.
  destruct (get q (drafts s)) as [post |]; [| apply keeps_at_add_error].
  destruct (rewrite_call (issues rv) (primary_text post)); [apply keeps_at_add_error |].
  repeat split; cbn; try (rewrite get_set, Hpq; reflexivity).
  exists []. rewrite app_nil_r. reflexivity.
Qed.

Lemma get_split {V} (p : Platform) (v : V) (l1 l2 : list (Platform * V)) :
  ~ In p (map fst l1) -> get p (l1 ++ (p, v) :: l2) = Some v.
Proof. intros Hn. rewrite get_app, get_none by exact Hn. cbn. rewrite platform_eqb_refl. reflexivity. Qed.

(** C7 (amended): when the external call of a stage raises, the stage
    records a message carrying the exception text in [errors], for the
    failing platform even when the others succeed. [extract_key_points]
    leaves no key points; [generate_posts] leaves no draft for a platform
    whose call raises or whose post fails the length validator of
    [PlatformPost]; [extract_claims] gives the failing platform the empty
    claim list; [schedule] leaves no timings. [fact_check] never records an
    error: its handler cannot fire. [remediate_if_blocked] records the
    failure of a blocked platform but keeps its review and draft, so the
    blocked review stays. *)
Theorem stage_exception_handling (cfg : Config) :
  (forall kp_call kp_parse (st : State) (e : string),
     str_nonempty (text st) = true -> kp_call (text st) = Exn e ->
     key_points (Graph.extract_key_points kp_call kp_parse st) = [] /\
     errors (Graph.extract_key_points kp_call kp_parse st) =
       errors st ++ [("Key points extraction failed: " ++ e)%string]) /\
  (forall post_call post_parse verr fstr (st : State) (p : Platform) (e : string),
     post_call p (Graph.content_source fstr st) = Exn e ->
     get p (drafts (Graph.generate_posts post_call post_parse verr fstr st)) = None /\
     In (platform_name p ++ " post generation failed: " ++ e)%string
        (errors (Graph.generate_posts post_call post_parse verr fstr st))) /\
  (forall post_call post_parse verr fstr (st : State) (p : Platform) content t msg,
     post_call p (Graph.content_source fstr st) = Ok content ->
     post_parse content = Some (Ok t) ->
     validate_character_limits p t = Exn msg ->
     get p (drafts (Graph.generate_posts post_call post_parse verr fstr st)) = None /\
     In (platform_name p ++ " post generation failed: " ++ verr msg t)%string
        (errors (Graph.generate_posts post_call post_parse verr fstr st))) /\
  (forall claims_call (st : State) (p : Platform) (post : PlatformPost) (e : string),
     NoDup (map fst (drafts st)) -> In (p, post) (drafts st) ->
     claims_call (text st) (primary_text post) = Exn e ->
     get p (claims (Graph.extract_claims claims_call st)) = Some [] /\
     In ("Claim extraction failed for " ++ platform_name p ++ ": " ++ e)%string
        (errors (Graph.extract_claims claims_call st))) /\
  (forall b ce (st : State), errors (Graph.fact_check cfg b ce st) = errors st) /\
  (forall rewrite_call (st : State) (p : Platform) rv (post : PlatformPost) (e : string),
     NoDup (map fst (reviews st)) -> In (p, rv) (reviews st) -> status rv = block ->
     get p (drafts st) = Some post -> rewrite_call (issues rv) (primary_text post) = Exn e ->
     get p (reviews (Graph.remediate_if_blocked cfg rewrite_call st)) = Some rv /\
     get p (drafts (Graph.remediate_if_blocked cfg rewrite_call st)) = Some post /\
     In ("Remediation failed for " ++ platform_name p ++ ": " ++ e)%string
        (errors (Graph.remediate_if_blocked cfg rewrite_call st))) /\
  (forall suggest_times (st : State) (e : string),
     suggest_times (map fst (drafts st)) (text st) (topic_hint st) = Exn e ->
     timings (Graph.schedule suggest_times st) = [] /\
     errors (Graph.schedule suggest_times st) =
       errors st ++ [("Context-aware scheduling failed: " ++ e)%string]).
Proof.
  split; [| split; [| split; [| split; [| split; [| split]]]]].
  - intros kp_call kp_parse st e Ht He. unfold Graph.extract_key_points.
    rewrite Ht. cbn [negb]. rewrite He. split; reflexivity.
  - intros post_call post_parse verr fstr st p e He.
    apply generate_posts_failed_at. intros s.
    unfold Graph.generate_step. rewrite He. reflexivity.
  - intros post_call post_parse verr fstr st p content t msg Hc Hp Hv.
    apply generate_posts_failed_at. intros s.
    unfold Graph.generate_step. rewrite Hc, Hp, Hv. reflexivity.
  - intros claims_call st p post e Hnd Hin He.
    destruct (nodup_split p post (drafts st) Hnd Hin) as [l1 [l2 [Hl [H1 H2]]]].
    assert (Hother : forall l, ~ In p (map fst l) -> forall s x, In x l ->
              keeps_at p s (Graph.claims_step claims_call s x)).
    { intros l Hn s [q post'] Hx. apply claims_step_other.
      exact (not_in_keys_eqb p l (q, post') Hn Hx). }
    unfold Graph.extract_claims. rewrite Hl, fold_left_app. cbn [fold_left].
    set (s1 := fold_left _ l1 (set_claims st [])).
    pose proof (fold_keeps_at _ p l1 (Hother l1 H1) (set_claims st [])) as K1. fold s1 in K1.
    pose proof (fold_keeps_at _ p l2 (Hother l2 H2)
                  (Graph.claims_step claims_call s1 (p, post))) as K2.
    assert (Hs : Graph.claims_step claims_call s1 (p, post) =
                 set_claims (add_error s1 ("Claim extraction failed for " ++ platform_name p
                                           ++ ": " ++ e)) (set p [] (claims s1))).
    { unfold Graph.claims_step. destruct K1 as [_ [_ [_ [Ht _]]]].
      rewrite Ht. cbn [text set_claims]. rewrite He. reflexivity. }
    rewrite Hs in K2 |- *. split.
    + destruct K2 as [_ [C2 _]]. rewrite C2. cbn. rewrite get_set, platform_eqb_refl.
      reflexivity.
    + eapply keeps_at_error; [exact K2 |]. cbn. apply in_or_app. right. left. reflexivity.
  - intros b ce st. apply fact_check_errors.
  - intros rewrite_call st p rv post e Hnd Hin Hb Hd He.
    destruct (nodup_split p rv (reviews st) Hnd Hin) as [l1 [l2 [Hl [H1 H2]]]].
    assert (Hother : forall l, ~ In p (map fst l) -> forall s x, In x l ->
              keeps_at p s (Graph.remediate_one cfg rewrite_call s x)).
    { intros l Hn s [q rv'] Hx. apply remediate_one_other.
      exact (not_in_keys_eqb p l (q, rv') Hn Hx). }
    unfold Graph.remediate_if_blocked. rewrite Hl, fold_left_app. cbn [fold_left].
    set (s1 := fold_left _ l1 st).
    pose proof (fold_keeps_at _ p l1 (Hother l1 H1) st) as K1. fold s1 in K1.
    pose proof (fold_keeps_at _ p l2 (Hother l2 H2)
                  (Graph.remediate_one cfg rewrite_call s1 (p, rv))) as K2.
    assert (Hs : Graph.remediate_one cfg rewrite_call s1 (p, rv) =
                 add_error s1 ("Remediation failed for " ++ platform_name p ++ ": " ++ e)).
    { unfold Graph.remediate_one. rewrite Hb. destruct K1 as [D1 _].
      rewrite D1, Hd, He. reflexivity. }
    rewrite Hs in K2 |- *.
    destruct K1 as [D1 [_ [R1 _]]]. split; [| split].
    + destruct K2 as [_ [_ [R2 _]]]. rewrite R2. cbn. rewrite R1, Hl.
      apply get_split. exact H1.
    + destruct K2 as [D2 _]. rewrite D2. cbn. rewrite D1. exact Hd.
    + eapply keeps_at_error; [exact K2 |]. cbn. apply in_or_app. right. left. reflexivity.
  - intros suggest_times st e He. unfold Graph.schedule. rewrite He. split; reflexivity.
Qed.

Lemma stage_exception_handling_witness :
  get linkedin (drafts (Graph.generate_posts post_tw_fails post_parse_ok verr_ok float_str_ex initial_state))
    <> None /\
  (get twitter (drafts (Graph.generate_posts post_tw_fails post_parse_ok verr_ok float_str_ex initial_state))
     = None /\
   In (platform_name twitter ++ " post generation failed: " ++ "Request timed out")%string
      (errors (Graph.generate_posts post_tw_fails post_parse_ok verr_ok float_str_ex initial_state))) /\
  (get linkedin (drafts (Graph.generate_posts post_restricted post_parse_ok verr_ok float_str_ex initial_state))
     = None /\
   In (platform_name linkedin ++ " post generation failed: "
       ++ verr_ok "LinkedIn posts should be 100-1300 characters"
                  "We diagnose problems before they reach you")%string
      (errors (Graph.generate_posts post_restricted post_parse_ok verr_ok float_str_ex initial_state))).
Proof.
  split; [vm_compute; discriminate | split].
  - apply (proj1 (proj2 (stage_exception_handling cfg_ddg)) post_tw_fails post_parse_ok verr_ok
             float_str_ex initial_state twitter "Request timed out").
    reflexivity.
  - apply (proj1 (proj2 (proj2 (stage_exception_handling cfg_ddg))) post_restricted post_parse_ok
             verr_ok float_str_ex initial_state linkedin "We diagnose problems before they reach you").
    + reflexivity.
    + reflexivity.
    + vm_compute. reflexivity.
Defined.

(** C7: a counterexample. The rewrite request of [remediate_if_blocked]
    raises on a blocked twitter post: the error is recorded, but the review
    of twitter is still the blocked one computed before the stage. *)
Lemma remediation_failure_keeps_blocked_review :
  let st := Graph.compliance cfg_strict
              (state_with "We diagnose problems before they reach you" []) in
  let st' := Graph.remediate_if_blocked cfg_strict rewrite_fails st in
  option_map status (get twitter (reviews st)) = Some block /\
  reviews st' = reviews st /\
  errors st' = ["Remediation failed for twitter: Request timed out"].
Proof. vm_compute. split; [reflexivity | split; reflexivity]. Qed.

(** * Further properties of the regex engine, the fact-check, compliance and
      search helpers, brand mentions and the scheduler *)

(** The language of a pattern: [lang r u] when [r] can match exactly [u]
    (word boundaries are only checked by the matcher). *)
Inductive lang : re -> list ascii -> Prop :=
| lang_class f c : f c = true -> lang (RClass f) [c]
| lang_eps : lang REps []
| lang_bound : lang RBound []
| lang_seq a b u v : lang a u -> lang b v -> lang (RSeq a b) (u ++ v)
| lang_altl a b u : lang a u -> lang (RAlt a b) u
| lang_altr a b u : lang b u -> lang (RAlt a b) u
| lang_star0 g a : lang (RStar g a) []
| lang_starS g a u v : lang a u -> lang (RStar g a) v -> lang (RStar g a) (u ++ v).

Lemma mt_sound {T} (r : re) : forall fuel prev s (k : option ascii -> list ascii -> option T) x,
  mt fuel r prev s k = Some x ->
  exists u p' s', s = u ++ s' /\ lang r u /\ k p' s' = Some x.
Proof.
  induction r as [f | | | a IHa b IHb | a IHa b IHb | g a IHa]; intros fuel prev s k x H.
  - destruct s as [| c s]; simpl in H; [discriminate |].
    destruct (f c) eqn:Ef; [| discriminate].
    exists [c], (Some c), s. repeat split; auto. constructor; auto.
  - exists [], prev, s. repeat split; auto. constructor.
  - simpl in H. destruct (xorb _ _); [| discriminate].
    exists [], prev, s. repeat split; auto. constructor.
  - simpl in H. destruct (IHa _ _ _ _ _ H) as [u [p1 [s1 [E1 [A1 K1]]]]].
    destruct (IHb _ _ _ _ _ K1) as [v [p2 [s2 [E2 [A2 K2]]]]].
    exists (u ++ v), p2, s2. subst. rewrite app_assoc. repeat split; auto.
    constructor; auto.
  - simpl in H. destruct (mt fuel a prev s k) eqn:E.
    + inversion H; subst.
      destruct (IHa _ _ _ _ _ E) as [u [p1 [s1 [E1 [A1 K1]]]]].
      exists u, p1, s1. repeat split; auto. apply lang_altl; auto.
    + destruct (IHb _ _ _ _ _ H) as [u [p1 [s1 [E1 [A1 K1]]]]].
      exists u, p1, s1. repeat split; auto. apply lang_altr; auto.
  - simpl in H. revert H.
    match goal with |- ?F fuel prev s = Some x -> _ => set (st := F) end.
    assert (Hst : forall m p s0, st m p s0 = Some x ->
              exists u p' s', s0 = u ++ s' /\ lang (RStar g a) u /\ k p' s' = Some x).
    { induction m as [| m IHm]; intros p s0 H0.
      - exists [], p, s0. repeat split; auto. constructor.
      - assert (Hmore : forall y, mt fuel a p s0
                   (fun p' s' => if length s' <? length s0 then st m p' s' else None) = Some y ->
                   y = x -> exists u p' s', s0 = u ++ s' /\ lang (RStar g a) u /\ k p' s' = Some x).
        { intros y Hy ->.
          destruct (IHa _ _ _ _ _ Hy) as [u [p1 [s1 [E1 [A1 K1]]]]].
          destruct (length s1 <? length s0); [| discriminate].
          destruct (IHm _ _ K1) as [v [p2 [s2 [E2 [A2 K2]]]]].
          exists (u ++ v), p2, s2. subst. rewrite app_assoc. repeat split; auto.
          constructor; auto. }
        assert (Hk : k p s0 = Some x ->
                   exists u p' s', s0 = u ++ s' /\ lang (RStar g a) u /\ k p' s' = Some x).
        { intros Hk. exists [], p, s0. repeat split; auto. constructor. }
        change (st (S m) p s0) with
          (let more := mt fuel a p s0 (fun p' s' => if length s' <? length s0 then st m p' s' else None) in
           if g then match more with Some x => Some x | None => k p s0 end
           else match k p s0 with Some x => Some x | None => more end) in H0.
        cbv zeta in H0.
        destruct g.
        + destruct (mt fuel a p s0 _) eqn:E; [inversion H0; subst; eauto | auto].
        + destruct (k p s0) eqn:E; [inversion H0; subst; auto |].
          destruct (mt fuel a p s0 _) eqn:E2; [inversion H0; subst; eauto | discriminate]. }
    apply Hst.
Qed.

Lemma match_at_sound (r : re) prev s rest :
  match_at r prev s = Some rest -> exists u, s = u ++ rest /\ lang r u.
Proof.
  unfold match_at. intros H.
  destruct (mt_sound _ _ _ _ _ _ H) as [u [p' [s' [E [A K]]]]].
  inversion K; subst. eauto.
Qed.

Lemma findall_aux_sound (r : re) fuel : forall prev s m,
  In m (findall_aux fuel r prev s) -> lang r m.
Proof.
  induction fuel as [| fuel IH]; intros prev s m H; [destruct H |].
  simpl in H. destruct s as [| c s'].
  - destruct (match_at r prev []) eqn:E; [| destruct H].
    destruct H as [<- | []].
    destruct (match_at_sound _ _ _ _ E) as [u [Eu A]].
    destruct u; [auto | discriminate].
  - destruct (match_at r prev (c :: s')) eqn:E.
    + destruct (match_at_sound _ _ _ _ E) as [u [Eu A]].
      destruct (length l <? length (c :: s')) eqn:L.
      * destruct H as [<- | H]; [| eapply IH; eauto].
        rewrite Eu, length_app, Nat.add_sub, firstn_app, Nat.sub_diag, firstn_all. simpl.
        rewrite app_nil_r. auto.
      * destruct H as [<- | H]; [| eapply IH; eauto].
        apply Nat.ltb_ge in L. rewrite Eu, length_app in L.
        destruct u; [auto | simpl in L; lia].
    + eapply IH; eauto.
Qed.

Lemma findall_sound (r : re) (s m : string) :
  In m (findall r s) -> lang r (list_ascii_of_string m).
Proof.
  unfold findall. intros H. apply in_map_iff in H as [u [<- H]].
  rewrite list_ascii_of_string_of_list_ascii. eapply findall_aux_sound; eauto.
Qed.

Definition has_digit (u : list ascii) : Prop := exists c, In c u /\ is_digit c = true.

(** [re.sub] leaves alone a text in which the pattern cannot match. *)
Lemma sub_aux_no_match (r : re) repl fuel : forall prev s,
  (forall u, lang r u -> has_digit u) -> (forall c, In c s -> is_digit c = false) ->
  sub_aux fuel r repl prev s = s.
Proof.
  induction fuel as [| fuel IH]; intros prev s Hr Hs; [reflexivity |].
  simpl. destruct s as [| c s']; [reflexivity |].
  destruct (match_at r prev (c :: s')) eqn:E.
  - exfalso. destruct (match_at_sound _ _ _ _ E) as [u [Eu A]].
    destruct (Hr u A) as [d [Hd Dd]].
    rewrite (Hs d) in Dd; [discriminate |]. rewrite Eu. apply in_or_app; auto.
  - f_equal. apply IH; auto. intros d Hd; apply Hs; right; auto.
Qed.

Lemma sub_no_match (r : re) repl (s : string) :
  (forall u, lang r u -> has_digit u) ->
  (forall c, In c (list_ascii_of_string s) -> is_digit c = false) ->
  sub r repl s = s.
Proof.
  intros Hr Hs. unfold sub. rewrite sub_aux_no_match; auto.
  apply string_of_list_ascii_of_string.
Qed.

Lemma has_digit_app_l u v : has_digit u -> has_digit (u ++ v).
Proof. intros [c [H D]]. exists c. split; auto. apply in_or_app; auto. Qed.
Lemma has_digit_app_r u v : has_digit v -> has_digit (u ++ v).
Proof. intros [c [H D]]. exists c. split; auto. apply in_or_app; auto. Qed.

Lemma seq_digit_l a b : (forall u, lang a u -> has_digit u) ->
  forall u, lang (RSeq a b) u -> has_digit u.
Proof. intros H u A. inversion A; subst. apply has_digit_app_l; auto. Qed.
Lemma seq_digit_r a b : (forall u, lang b u -> has_digit u) ->
  forall u, lang (RSeq a b) u -> has_digit u.
Proof. intros H u A. inversion A; subst. apply has_digit_app_r; auto. Qed.
Lemma digit_digit : forall u, lang digit u -> has_digit u.
Proof. intros u A. inversion A; subst. exists c. split; [left |]; auto. Qed.
Lemma plus_digit : forall u, lang (plus digit) u -> has_digit u.
Proof. apply seq_digit_l, digit_digit. Qed.

(** X1: [_enhance_search_query] returns unchanged a claim text made of ASCII
    characters (code points below 128) none of which is a digit 0-9: each of
    its four patterns needs a [\d] to match, and on ASCII text [\d] matches
    exactly 0-9. *)
Theorem enhance_search_query_no_digit (claim_text : string) :
  (forall c, In c (list_ascii_of_string claim_text) ->
     nat_of_ascii c < 128 /\ is_digit c = false) ->
  enhance_search_query claim_text = claim_text.
Proof.
  intros Ha. assert (H : forall c, In c (list_ascii_of_string claim_text) -> is_digit c = false)
    by (intros c Hc; apply (Ha c Hc)).
  unfold enhance_search_query, seqs. cbn [fold_right].
  rewrite (sub_no_match _ _ claim_text); [| apply seq_digit_l, plus_digit | auto].
  rewrite (sub_no_match _ _ claim_text);
    [| apply seq_digit_r, seq_digit_r, seq_digit_l, plus_digit | auto].
  rewrite (sub_no_match _ _ claim_text);
    [| apply seq_digit_r, seq_digit_r, seq_digit_l, plus_digit | auto].
  rewrite (sub_no_match _ _ claim_text);
    [| apply seq_digit_r, seq_digit_l, plus_digit | auto].
  reflexivity.
Qed.

Lemma lang_year u : lang YEAR u ->
  exists a b, u = ["2"%char; "0"%char; a; b] /\ is_digit a = true /\ is_digit b = true.
Proof.
  unfold YEAR, seqs, chr, digit; cbn [fold_right]. intros A.
  repeat match goal with
  | H : lang (RSeq _ _) _ |- _ => inversion H; subst; clear H
  | H : lang RBound _ |- _ => inversion H; subst; clear H
  | H : lang REps _ |- _ => inversion H; subst; clear H
  | H : lang (RClass _) _ |- _ => inversion H; subst; clear H
  end.
  repeat match goal with H : Ascii.eqb _ _ = true |- _ => apply Ascii.eqb_eq in H; subst end.
  simpl. do 2 eexists. split; [reflexivity | auto].
Qed.

Lemma digit_not_space (c : ascii) : is_digit c = true -> is_space c = false.
Proof. destruct c as [[] [] [] [] [] [] [] []]; vm_compute; congruence. Qed.

Lemma digit_value_range (c : ascii) : is_digit c = true -> (0 <= digit_value c <= 9)%Z.
Proof.
  unfold is_digit, digit_value. intros H.
  apply andb_true_iff in H as [H1 H2]. apply Nat.leb_le in H1, H2. lia.
Qed.

(** X2: [_extract_year_from_claim] never raises. It returns [None] when the
    text has no match of [\b(20\d{2})\b]; otherwise it returns the year of the
    first match, which lies between 2000 and 2099. *)
Theorem extract_year_from_claim_range (claim_text : string) :
  match extract_year_from_claim claim_text with
  | Exn _ => False
  | Ok None => findall YEAR claim_text = []
  | Ok (Some year) => (2000 <= year <= 2099)%Z
  end.
Proof.
  unfold extract_year_from_claim.
  destruct (findall YEAR claim_text) as [| y ys] eqn:E; [reflexivity |].
  assert (Hy : In y (findall YEAR claim_text)) by (rewrite E; left; auto).
  destruct (lang_year _ (findall_sound _ _ _ Hy)) as [a [b [Ey [Da Db]]]].
  rewrite <- (string_of_list_ascii_of_string y), Ey.
  unfold py_int, strip. rewrite !list_ascii_of_string_of_list_ascii.
  assert (Hs : rev (drop_spaces (rev (drop_spaces ["2"%char; "0"%char; a; b])))
               = ["2"%char; "0"%char; a; b]).
  { change (drop_spaces ["2"%char; "0"%char; a; b]) with ["2"%char; "0"%char; a; b].
    cbn [rev app drop_spaces]. rewrite (digit_not_space b Db). reflexivity. }
  rewrite Hs. cbn [forallb]. rewrite Da, Db.
  pose proof (digit_value_range a Da). pose proof (digit_value_range b Db).
  replace (is_digit "2"%char) with true by reflexivity.
  replace (is_digit "0"%char) with true by reflexivity.
  replace (digit_value "2"%char) with 2%Z by reflexivity.
  replace (digit_value "0"%char) with 0%Z by reflexivity.
  cbn - [digit_value Z.mul Z.add]. rewrite Z.mul_1_l.
  replace (digit_value "2"%char) with 2%Z by reflexivity.
  replace (digit_value "0"%char) with 0%Z by reflexivity. lia.
Qed.

Definition status_rank (s : Status) : nat :=
  match s with pass => 0 | flag => 1 | block => 2 end.

Lemma determine_status_rank (issues : list ComplianceIssue) :
  status_rank (determine_status issues) =
  if py_any is_critical issues then 2 else if py_any is_major issues then 1 else 0.
Proof.
  destruct issues as [| i l]; [reflexivity |]. cbn [determine_status].
  destruct (py_any is_critical _); [reflexivity |]. destruct (py_any is_major _); reflexivity.
Qed.

Lemma py_any_incl {A} (f : A -> bool) (l l' : list A) :
  incl l l' -> py_any f l = true -> py_any f l' = true.
Proof.
  intros Hi H. apply py_any_true_iff in H as [x [Hx Fx]].
  apply py_any_true_iff. exists x. auto.
Qed.

Lemma determine_status_mono (l l' : list ComplianceIssue) :
  incl l l' -> status_rank (determine_status l) <= status_rank (determine_status l').
Proof.
  intros Hi. rewrite !determine_status_rank.
  destruct (py_any is_critical l) eqn:C.
  - rewrite (py_any_incl _ _ _ Hi C). lia.
  - destruct (py_any is_major l) eqn:M.
    + rewrite (py_any_incl _ _ _ Hi M). destruct (py_any is_critical l'); lia.
    + destruct (py_any is_critical l'), (py_any is_major l'); lia.
Qed.

(** X3: [_determine_status] is monotone: adding issues to the list never
    lowers the status in the order pass < flag < block. *)
Theorem determine_status_monotone (l l' : list ComplianceIssue) :
  incl l l' -> status_rank (determine_status l) <= status_rank (determine_status l').
Proof. apply determine_status_mono. Qed.

Lemma claim_confidence_issue_severity (c : Claim) (i : ComplianceIssue) :
  claim_confidence_issue c = Some i ->
  claim_severity c <> low /\ issue_severity i <> critical.
Proof.
  unfold claim_confidence_issue. destruct (claim_severity c).
  - discriminate.
  - destruct (Qlt_bool _ _); intros H; inversion H; subst; cbn; split; discriminate.
  - destruct (Qlt_bool _ (3 # 10)); [intros H; inversion H; subst; cbn; split; discriminate |].
    destruct (Qlt_bool _ (5 # 10) && _); [intros H; inversion H; subst; cbn; split; discriminate |].
    destruct (Qlt_bool _ (6 # 10) && _ && _); [intros H; inversion H; subst; cbn; split; discriminate |].
    discriminate.
Qed.

Lemma check_claim_confidence_shape_aux (claims : list Claim) :
  length (check_claim_confidence claims) <= length claims /\
  (forall i, In i (check_claim_confidence claims) -> issue_severity i <> critical) /\
  check_claim_confidence (filter (fun c => match claim_severity c with low => true | _ => false end) claims) = [].
Proof.
  unfold check_claim_confidence. split; [| split].
  - induction claims as [| c cs IH]; [reflexivity |]. cbn [flat_map].
    rewrite length_app. destruct (claim_confidence_issue c); cbn; lia.
  - intros i H. apply in_flat_map in H as [c [_ H]].
    destruct (claim_confidence_issue c) eqn:E; [| destruct H].
    destruct H as [<- | []]. apply (claim_confidence_issue_severity c). auto.
  - induction claims as [| c cs IH]; [reflexivity |]. cbn [filter].
    destruct (claim_severity c) eqn:S; auto. cbn [flat_map].
    destruct (claim_confidence_issue c) eqn:E; auto.
    apply claim_confidence_issue_severity in E. tauto.
Qed.

(** X4: [_check_claim_confidence] reports at most one issue per claim and
    never a critical one, and it reports nothing for a list of low-severity
    claims. *)
Theorem check_claim_confidence_shape (claims : list Claim) :
  length (check_claim_confidence claims) <= length claims /\
  (forall i, In i (check_claim_confidence claims) -> issue_severity i <> critical) /\
  check_claim_confidence (filter (fun c => match claim_severity c with low => true | _ => false end) claims) = [].
Proof. apply check_claim_confidence_shape_aux. Qed.

Lemma non_strict_not_critical (compliance_mode : string) (platform : Platform) (t : string)
    (claims : list Claim) (i : ComplianceIssue) :
  String.eqb compliance_mode "strict" = false ->
  In i (issues (review_post compliance_mode platform t claims)) -> issue_severity i <> critical.
Proof.
  intros Hm. unfold review_post. rewrite Hm. cbn [issues]. rewrite app_nil_r.
  intros H. apply in_app_or in H as [H | H]; [| apply in_app_or in H as [H | H]].
  - unfold check_profanity in H. apply in_map_iff in H as [w [<- _]]. discriminate.
  - unfold check_absolute_claims in H. apply in_map_iff in H as [w [<- _]]. discriminate.
  - apply (proj1 (proj2 (check_claim_confidence_shape_aux claims))). auto.
Qed.

(** X5: Outside the strict compliance mode, [review_post] never gives the
    status block: no issue it can report is critical, and major issues are
    only reported in strict mode. *)
Theorem review_post_non_strict_never_blocks (compliance_mode : string) (platform : Platform)
    (t : string) (claims : list Claim) :
  String.eqb compliance_mode "strict" = false ->
  status (review_post compliance_mode platform t claims) <> block.
Proof.
  intros Hm Hb.
  assert (Hr : status_rank (status (review_post compliance_mode platform t claims)) = 2)
    by (rewrite Hb; reflexivity).
  unfold review_post in Hr at 1. cbn [status] in Hr. rewrite determine_status_rank in Hr.
  destruct (py_any is_critical _) eqn:C.
  - apply py_any_true_iff in C as [i [Hi Ci]].
    apply (non_strict_not_critical compliance_mode platform t claims i Hm); [exact Hi |].
    unfold is_critical in Ci. destruct (issue_severity i); congruence.
  - destruct (py_any is_major _); discriminate.
Qed.

(** X6: The status of [review_post] in any compliance mode is at most its
    status in strict mode, on the same post and claims. *)
Theorem review_post_strict_at_least (compliance_mode : string) (platform : Platform)
    (t : string) (claims : list Claim) :
  status_rank (status (review_post compliance_mode platform t claims))
  <= status_rank (status (review_post "strict" platform t claims)).
Proof.
  unfold review_post. cbn [status]. apply determine_status_mono.
  intros i Hi. rewrite !app_assoc in *. apply in_app_or in Hi as [Hi | Hi];
    [apply in_or_app; left; exact Hi |].
  destruct (String.eqb compliance_mode "strict") eqn:E.
  - apply String.eqb_eq in E. subst. apply in_or_app; right. exact Hi.
  - destruct Hi.
Qed.

Lemma lower_char_idem (c : ascii) : lower_char (lower_char c) = lower_char c.
Proof. destruct c as [[] [] [] [] [] [] [] []]; reflexivity. Qed.

Lemma str_lower_idem (s : string) : str_lower (str_lower s) = str_lower s.
Proof.
  unfold str_lower. rewrite list_ascii_of_string_of_list_ascii, map_map.
  f_equal. apply map_ext. apply lower_char_idem.
Qed.

(** X7: [review_post] depends on the post text only through its lower-cased
    form: lower-casing the text first gives the same review. *)
Theorem review_post_case_insensitive (compliance_mode : string) (platform : Platform)
    (t : string) (claims : list Claim) :
  review_post compliance_mode platform (str_lower t) claims
  = review_post compliance_mode platform t claims.
Proof.
  unfold review_post, check_profanity, check_absolute_claims, check_strict_mode.
  rewrite !str_lower_idem. reflexivity.
Qed.

(** [subseq l l']: [l] is [l'] with some elements removed, in order. *)
Inductive subseq {A} : list A -> list A -> Prop :=
| subseq_nil : subseq [] []
| subseq_keep x l l' : subseq l l' -> subseq (x :: l) (x :: l')
| subseq_drop x l l' : subseq l l' -> subseq l (x :: l').

Lemma subseq_nil_l {A} (l : list A) : subseq [] l.
Proof. induction l; constructor; auto. Qed.

Lemma subseq_length {A} (l l' : list A) : subseq l l' -> length l <= length l'.
Proof. induction 1; cbn; lia. Qed.

Lemma dedup_loop_subseq signature similar (xs : list Claim) : forall seen unique,
  exists ys, dedup_loop signature similar seen unique xs = unique ++ ys /\ subseq ys xs.
Proof.
  induction xs as [| x xs IH]; intros seen unique; cbn [dedup_loop].
  - exists []. rewrite app_nil_r. split; [reflexivity | constructor].
  - destruct (negb _ && negb _).
    + destruct (IH (seen ++ [signature (claim_text x)]) (unique ++ [x])) as [ys [E S]].
      exists (x :: ys). rewrite E, <- app_assoc. split; [reflexivity | constructor; auto].
    + destruct (IH seen unique) as [ys [E S]].
      exists ys. split; [exact E | constructor; auto].
Qed.

Lemma deduplicate_claims_subseq_aux (claims : list Claim) :
  subseq (deduplicate_claims claims) claims /\
  (forall c rest, claims = c :: rest -> exists kept, deduplicate_claims claims = c :: kept).
Proof.
  split.
  - unfold deduplicate_claims, dedup_with.
    destruct (dedup_loop_subseq claim_signature are_claims_similar claims [] []) as [ys [E S]].
    rewrite E. exact S.
  - intros c rest ->. unfold deduplicate_claims, dedup_with. cbn [dedup_loop].
    cbn [str_mem existsb negb andb].
    destruct (dedup_loop_subseq claim_signature are_claims_similar rest
                ([] ++ [claim_signature (claim_text c)]) ([] ++ [c])) as [ys [E _]].
    rewrite E. exists ys. reflexivity.
Qed.

(** X8: [_deduplicate_claims] keeps a subsequence of the claims in their
    original order, and always keeps the first claim of a nonempty list. *)
Theorem deduplicate_claims_subseq (claims : list Claim) :
  subseq (deduplicate_claims claims) claims /\
  (forall c rest, claims = c :: rest -> exists kept, deduplicate_claims claims = c :: kept).
Proof. apply deduplicate_claims_subseq_aux. Qed.

(** X9: [verify_claims] returns at most as many claims as it is given, and it
    returns an empty list exactly when it is given none. *)
Theorem verify_claims_length (cfg : Config) (b : SearchBackend) (claims : list Claim) :
  length (verify_claims cfg b claims) <= length claims /\
  (verify_claims cfg b claims = [] <-> claims = []).
Proof.
  unfold verify_claims. rewrite length_map. split.
  - apply subseq_length, deduplicate_claims_subseq_aux.
  - destruct claims as [| c rest]; [split; reflexivity |].
    destruct (proj2 (deduplicate_claims_subseq_aux (c :: rest)) c rest eq_refl) as [kept E].
    rewrite E. split; discriminate.
Qed.

Lemma in_firstn_l {A} (x : A) n (l : list A) : In x (firstn n l) -> In x l.
Proof. intros H. rewrite <- (firstn_skipn n l). apply in_or_app. left. exact H. Qed.

(** X10: [_verify_single_claim] attaches at most three sources, and each
    source is the url of a result that the search returned for the enhanced
    query. *)
Theorem verify_single_claim_sources (cfg : Config) (b : SearchBackend) (c : Claim) :
  length (claim_sources (verify_single_claim cfg b c)) <= 3 /\
  forall url, In url (claim_sources (verify_single_claim cfg b c)) ->
    exists title, In (title, url) (run_search cfg b (enhance_search_query (claim_text c))).
Proof.
  unfold verify_single_claim. cbn [claim_sources]. split.
  - rewrite length_map, length_firstn. lia.
  - intros url H. apply in_map_iff in H as [[title u] [<- H]].
    apply in_firstn_l in H. unfold filter_search_results in H.
    apply filter_In in H as [H _]. exists title. exact H.
Qed.

Definition pair_eqb (x y : string * string) : bool :=
  String.eqb (fst x) (fst y) && String.eqb (snd x) (snd y).

Lemma pair_mem_iff x l : pair_mem x l = true <-> In x l.
Proof.
  induction l as [| y l IH]; cbn; [split; [discriminate | tauto] |].
  rewrite orb_true_iff, IH, andb_true_iff, !String.eqb_eq.
  destruct x, y; cbn. split.
  - intros [[-> ->] | H]; auto.
  - intros [H | H]; [inversion H; auto | auto].
Qed.

Lemma add_results_inv (new : list (string * string)) : forall acc,
  NoDup acc -> Forall (fun r => str_nonempty (snd r) = true) acc ->
  NoDup (add_results acc new) /\ Forall (fun r => str_nonempty (snd r) = true) (add_results acc new).
Proof.
  unfold add_results. induction new as [| r new IH]; intros acc Hnd Hne; cbn [fold_left]; auto.
  apply IH.
  - destruct (str_nonempty (snd r) && negb (pair_mem r acc)) eqn:E; auto.
    apply andb_true_iff in E as [_ E]. apply negb_true_iff in E.
    apply (Permutation_NoDup (Permutation_cons_append acc r)).
    constructor; auto. intros Hin. apply pair_mem_iff in Hin. congruence.
  - destruct (str_nonempty (snd r) && negb (pair_mem r acc)) eqn:E; auto.
    apply andb_true_iff in E as [E _]. apply Forall_app. split; auto.
Qed.

Lemma NoDup_firstn {A} n (l : list A) : NoDup l -> NoDup (firstn n l).
Proof.
  intros H. rewrite <- (firstn_skipn n l) in H. apply NoDup_app_remove_r in H. exact H.
Qed.

(** X11: [search_duckduckgo] returns at most [2 * max_results] results,
    without duplicate (title, url) pairs and each with a nonempty url. *)
Theorem search_duckduckgo_results (b : SearchBackend) (query : string) (max_results : nat) :
  length (search_duckduckgo b query max_results) <= max_results * 2 /\
  NoDup (search_duckduckgo b query max_results) /\
  Forall (fun r => str_nonempty (snd r) = true) (search_duckduckgo b query max_results).
Proof.
  unfold search_duckduckgo.
  assert (H : forall qs acc, NoDup acc -> Forall (fun r => str_nonempty (snd r) = true) acc ->
    let res := fold_left (fun results q => match ddgs_text b q max_results with
                                           | Ok rs => add_results results rs
                                           | Exn _ => results end) qs acc in
    NoDup res /\ Forall (fun r => str_nonempty (snd r) = true) res).
  { induction qs as [| q qs IH]; intros acc H1 H2; cbn [fold_left]; auto.
    apply IH; destruct (ddgs_text b q max_results); auto; apply add_results_inv; auto. }
  destruct (H (firstn 2 (search_queries query)) [] (NoDup_nil _) (Forall_nil _)) as [H1 H2].
  split; [| split].
  - apply firstn_le_length.
  - apply NoDup_firstn. exact H1.
  - apply Forall_forall. intros x Hx. apply in_firstn_l in Hx.
    rewrite Forall_forall in H2. auto.
Qed.

(** X12: [search_wikipedia] returns at most [max_results] pages. It returns []
    when setting the language or the search raises, and each page it returns
    was fetched for a title of the search result. *)
Theorem search_wikipedia_results (b : SearchBackend) (query : string) (max_results : nat)
    (lang : string) :
  length (search_wikipedia b query max_results lang) <= max_results /\
  ((exists e, wiki_set_lang b lang = Exn e) \/ (exists e, wiki_search b query max_results = Exn e) ->
   search_wikipedia b query max_results lang = []) /\
  (forall r, In r (search_wikipedia b query max_results lang) ->
   exists title, In title (match wiki_search b query max_results with Ok ts => ts | Exn _ => [] end)
                 /\ wiki_page b title = Ok r).
Proof.
  unfold search_wikipedia. split; [| split].
  - destruct (wiki_set_lang b lang); [cbn; lia |].
    destruct (wiki_search b query max_results) as [e | titles]; [cbn; lia |].
    assert (Hf : forall ts, length (flat_map (fun title => match wiki_page b title with
                     | Ok p => [p] | Exn _ => [] end) ts) <= length ts).
    { induction ts as [| t ts IH]; cbn; [lia |].
      destruct (wiki_page b t); cbn; lia. }
    etransitivity; [apply Hf | apply firstn_le_length].
  - intros [[e E] | [e E]]; rewrite E; [reflexivity |].
    destruct (wiki_set_lang b lang); reflexivity.
  - intros r H. destruct (wiki_set_lang b lang); [destruct H |].
    destruct (wiki_search b query max_results) as [e | titles]; [destruct H |].
    apply in_flat_map in H as [title [Ht H]].
    destruct (wiki_page b title) eqn:E; [destruct H |].
    destruct H as [<- | []]. exists title. split; [apply (in_firstn_l _ _ _ Ht) | exact E].
Qed.

Lemma title_first_char (c : ascii) :
  Ascii.eqb (if is_cased c then (if false then lower_char c else upper_char c) else c) "@"
  = Ascii.eqb c "@".
Proof. destruct c as [[] [] [] [] [] [] [] []]; reflexivity. Qed.

Lemma starts_with_at_title (s : string) : starts_with_at (str_title s) = starts_with_at s.
Proof.
  destruct s as [| c s]; [reflexivity |].
  unfold str_title. cbn [list_ascii_of_string title_aux string_of_list_ascii starts_with_at].
  apply title_first_char.
Qed.

(** X13: [_validate_brand_mentions] returns one mention per input mention. An
    output that starts with @ is either an input that is an allowlisted
    handle, or comes from an input starting with @@, with its first @ dropped
    and the rest title-cased. *)
Theorem validate_brand_mentions_tags (mentions : list string) :
  length (validate_brand_mentions mentions) = length mentions /\
  forall o, In o (validate_brand_mentions mentions) -> starts_with_at o = true ->
    (In o mentions /\ exists brand, lookup (strip (str_lower o)) VERIFIED_HANDLES = Some brand)
    \/ (exists m, In m mentions /\ String.prefix "@@" m = true /\ o = str_title (drop1 m)).
Proof.
  unfold validate_brand_mentions. split; [apply length_map |].
  intros o Ho Ha. apply in_map_iff in Ho as [m [<- Hm]].
  unfold validate_mention in *.
  destruct (lookup (strip (str_lower m)) VERIFIED_HANDLES) as [v |] eqn:E.
  - left. split; [exact Hm | exists v; exact E].
  - destruct (starts_with_at m) eqn:Am.
    + right. exists m. split; [exact Hm | split; [| reflexivity]].
      rewrite starts_with_at_title in Ha.
      destruct m as [| c [| d m']]; cbn in Am, Ha |- *; try discriminate.
      apply Ascii.eqb_eq in Am, Ha. subst. destruct m'; reflexivity.
    + rewrite Am in Ha. discriminate.
Qed.

Lemma validate_mention_idem (m : string) :
  String.prefix "@@" m = false -> validate_mention (validate_mention m) = validate_mention m.
Proof.
  intros Hp.
  destruct (lookup (strip (str_lower m)) VERIFIED_HANDLES) as [v |] eqn:E.
  - assert (Ho : validate_mention m = m) by (unfold validate_mention; rewrite E; reflexivity).
    rewrite !Ho. reflexivity.
  - destruct (starts_with_at m) eqn:Am.
    + assert (Hd : starts_with_at (drop1 m) = false).
      { destruct m as [| c [| d m']]; cbn in Am, Hp |- *; try reflexivity.
        apply Ascii.eqb_eq in Am. subst c.
        destruct (Ascii.eqb d "@") eqn:Ed; [| reflexivity].
        apply Ascii.eqb_eq in Ed. subst d. destruct m'; vm_compute in Hp; discriminate. }
      assert (Ho : validate_mention m = str_title (drop1 m))
        by (unfold validate_mention; rewrite E, Am; reflexivity).
      rewrite !Ho. unfold validate_mention.
      destruct (lookup (strip (str_lower (str_title (drop1 m)))) VERIFIED_HANDLES); [reflexivity |].
      rewrite starts_with_at_title, Hd. reflexivity.
    + assert (Ho : validate_mention m = m) by (unfold validate_mention; rewrite E, Am; reflexivity).
      rewrite !Ho. reflexivity.
Qed.

(** X14: Applying [_validate_brand_mentions] twice gives the same result as
    applying it once, when no mention starts with @@. *)
Theorem validate_brand_mentions_idempotent (mentions : list string) :
  (forall m, In m mentions -> String.prefix "@@" m = false) ->
  validate_brand_mentions (validate_brand_mentions mentions) = validate_brand_mentions mentions.
Proof.
  intros H. unfold validate_brand_mentions. rewrite map_map.
  apply map_ext_in. intros m Hm. apply validate_mention_idem, H, Hm.
Qed.

Import Schedule.

Lemma add_td_ok (t d : Z) : (0 <= t + d < DT_END)%Z -> add_td t d = Ok (t + d)%Z.
Proof.
  intros H. unfold add_td.
  replace ((0 <=? t + d)%Z && (t + d <? DT_END)%Z) with true; [reflexivity |].
  symmetry. apply andb_true_iff. split; [apply Z.leb_le | apply Z.ltb_lt]; lia.
Qed.

Lemma replace_hm_ok (t h m : Z) : (0 <= h <= 23)%Z -> (0 <= m <= 59)%Z ->
  replace_hm t h m = Ok (day_of t * US_PER_DAY + h * US_PER_HOUR + m * US_PER_MIN)%Z.
Proof.
  intros Hh Hm. unfold replace_hm.
  replace ((0 <=? h) && (h <=? 23))%Z with true
    by (symmetry; apply andb_true_iff; split; apply Z.leb_le; lia).
  replace ((0 <=? m) && (m <=? 59))%Z with true
    by (symmetry; apply andb_true_iff; split; apply Z.leb_le; lia).
  reflexivity.
Qed.

Lemma day_bounds (now : Z) : (0 <= now)%Z ->
  (0 <= day_of now /\ day_of now * US_PER_DAY <= now < day_of now * US_PER_DAY + US_PER_DAY
   /\ 0 <= weekday now < 7 /\ day_of now = 7 * (day_of now / 7) + weekday now)%Z.
Proof.
  intros H. unfold weekday, day_of, US_PER_DAY. Z.div_mod_to_equations. lia.
Qed.

Lemma calculate_optimal_slot_time_bounds_aux (time_slot : string) (now : Z) (timing_context : string)
    (hour minute : Z) :
  parse_slot time_slot = Ok (hour, minute) -> (0 <= hour <= 23)%Z -> (0 <= minute <= 59)%Z ->
  (0 <= now)%Z -> (now + 7 * US_PER_DAY < DT_END)%Z ->
  exists t, calculate_optimal_slot_time time_slot now timing_context = Ok t /\
            (now < t < now + 6 * US_PER_DAY)%Z.
Proof.
  intros Hp Hh Hm H0 H1. unfold calculate_optimal_slot_time. rewrite Hp, replace_hm_ok by auto.
  destruct (day_bounds now H0) as [Hd [Hlo [Hw Hdw]]].
  assert (Hr : (0 <= hour * US_PER_HOUR + minute * US_PER_MIN < US_PER_DAY)%Z)
    by (unfold US_PER_HOUR, US_PER_MIN, US_PER_DAY; lia).
  destruct (contains "weekend" timing_context && (weekday now <? 5)%Z) eqn:E.
  - apply andb_true_iff in E as [_ E]. apply Z.ltb_lt in E.
    rewrite add_td_ok by (unfold DT_END, US_PER_DAY in *; lia).
    eexists. split; [reflexivity |]. unfold US_PER_DAY in *; lia.
  - destruct (_ <=? now)%Z eqn:L.
    + apply Z.leb_le in L. rewrite add_td_ok by (unfold DT_END, US_PER_DAY in *; lia).
      eexists. split; [reflexivity |]. unfold US_PER_DAY in *; lia.
    + apply Z.leb_gt in L. eexists. split; [reflexivity |]. unfold US_PER_DAY in *; lia.
Qed.

(** X15: For a slot [HH:MM] with a valid hour and minute,
    [_calculate_optimal_slot_time] returns a time strictly after [now] and
    less than six days after it. *)
Theorem calculate_optimal_slot_time_bounds (time_slot : string) (now : Z) (timing_context : string)
    (hour minute : Z) :
  parse_slot time_slot = Ok (hour, minute) -> (0 <= hour <= 23)%Z -> (0 <= minute <= 59)%Z ->
  (0 <= now)%Z -> (now + 7 * US_PER_DAY < DT_END)%Z ->
  exists t, calculate_optimal_slot_time time_slot now timing_context = Ok t /\
            (now < t < now + 6 * US_PER_DAY)%Z.
Proof. apply calculate_optimal_slot_time_bounds_aux. Qed.

Lemma weekday_shift (t k : Z) : (0 <= t)%Z -> (0 <= k)%Z ->
  (weekday (t + k * US_PER_DAY) = (weekday t + k) mod 7)%Z.
Proof.
  intros H1 H2. unfold weekday, day_of.
  rewrite Z.div_add by (unfold US_PER_DAY; lia).
  rewrite Z.add_mod_idemp_l by lia. reflexivity.
Qed.

Lemma day_of_add (d r : Z) : (0 <= r < US_PER_DAY)%Z -> day_of (d * US_PER_DAY + r) = d.
Proof.
  intros H. unfold day_of. rewrite Z.add_comm, Z.div_add by (unfold US_PER_DAY; lia).
  rewrite Z.div_small by exact H. reflexivity.
Qed.

Lemma mod_day_add (d r : Z) : (0 <= r < US_PER_DAY)%Z -> ((d * US_PER_DAY + r) mod US_PER_DAY = r)%Z.
Proof.
  intros H. rewrite Z.add_comm, Z.mod_add by (unfold US_PER_DAY; lia).
  apply Z.mod_small. exact H.
Qed.

Lemma weekday_replace (now h m : Z) : (0 <= h <= 23)%Z -> (0 <= m <= 59)%Z ->
  weekday (day_of now * US_PER_DAY + h * US_PER_HOUR + m * US_PER_MIN) = weekday now.
Proof.
  intros Hh Hm. unfold weekday. rewrite <- Z.add_assoc, day_of_add; [reflexivity |].
  unfold US_PER_DAY, US_PER_HOUR, US_PER_MIN. lia.
Qed.

Lemma hour_minute_of (d h m : Z) : (0 <= h <= 23)%Z -> (0 <= m <= 59)%Z ->
  hour_of (d * US_PER_DAY + h * US_PER_HOUR + m * US_PER_MIN) = h /\
  minute_of (d * US_PER_DAY + h * US_PER_HOUR + m * US_PER_MIN) = m.
Proof.
  intros Hh Hm. unfold hour_of, minute_of.
  rewrite <- Z.add_assoc, mod_day_add by (unfold US_PER_DAY, US_PER_HOUR, US_PER_MIN; lia).
  split.
  - rewrite Z.add_comm, Z.div_add by (unfold US_PER_HOUR; lia).
    rewrite Z.div_small by (unfold US_PER_HOUR, US_PER_MIN; lia). reflexivity.
  - replace (d * US_PER_DAY + (h * US_PER_HOUR + m * US_PER_MIN))%Z
      with (m * US_PER_MIN + (d * 24 + h) * US_PER_HOUR)%Z
      by (unfold US_PER_DAY, US_PER_HOUR; ring).
    rewrite Z.mod_add by (unfold US_PER_HOUR; lia).
    rewrite Z.mod_small by (unfold US_PER_HOUR, US_PER_MIN; lia).
    rewrite Z.div_mul by (unfold US_PER_MIN; lia). reflexivity.
Qed.

(** X16: On a weekday, a slot whose timing context contains weekend is moved
    to the Saturday of the same week: the day of the result is the day of
    [now] plus [5 - now.weekday()], and its time of day is the slot's hour
    and minute. *)
Theorem weekend_slot_on_saturday (time_slot : string) (now : Z) (timing_context : string)
    (hour minute : Z) :
  parse_slot time_slot = Ok (hour, minute) -> (0 <= hour <= 23)%Z -> (0 <= minute <= 59)%Z ->
  (0 <= now)%Z -> (now + 7 * US_PER_DAY < DT_END)%Z ->
  contains "weekend" timing_context = true -> (weekday now < 5)%Z ->
  exists t, calculate_optimal_slot_time time_slot now timing_context = Ok t /\
            day_of t = (day_of now + (5 - weekday now))%Z /\
            weekday t = 5%Z /\ hour_of t = hour /\ minute_of t = minute.
Proof.
  intros Hp Hh Hm H0 H1 Hc Hw. unfold calculate_optimal_slot_time. rewrite Hp, replace_hm_ok by auto.
  rewrite Hc. replace (weekday now <? 5)%Z with true by (symmetry; apply Z.ltb_lt; exact Hw).
  destruct (day_bounds now H0) as [Hd [Hlo [Hw' Hdw]]].
  rewrite add_td_ok by (unfold DT_END, US_PER_DAY, US_PER_HOUR, US_PER_MIN in *; lia).
  eexists. split; [reflexivity |].
  replace (day_of now * US_PER_DAY + hour * US_PER_HOUR + minute * US_PER_MIN
           + (5 - weekday now) * US_PER_DAY)%Z
    with ((day_of now + (5 - weekday now)) * US_PER_DAY + hour * US_PER_HOUR
          + minute * US_PER_MIN)%Z by ring.
  destruct (hour_minute_of (day_of now + (5 - weekday now)) hour minute Hh Hm) as [-> ->].
  assert (Hday : day_of ((day_of now + (5 - weekday now)) * US_PER_DAY + hour * US_PER_HOUR
                         + minute * US_PER_MIN) = (day_of now + (5 - weekday now))%Z)
    by (rewrite <- Z.add_assoc, day_of_add by (unfold US_PER_DAY, US_PER_HOUR, US_PER_MIN; lia);
        reflexivity).
  split; [exact Hday | split; [| split; reflexivity]].
  unfold weekday at 1. rewrite Hday.
  rewrite Hdw at 1.
  replace (7 * (day_of now / 7) + weekday now + (5 - weekday now))%Z
    with (5 + (day_of now / 7) * 7)%Z by ring.
  rewrite Z.mod_add by lia. reflexivity.
Qed.

(** X17: On a Sunday, a slot whose timing context contains weekend and whose
    time of day has already passed is scheduled on the next day, a Monday
    (the day of [now] plus one), at the slot's hour and minute: no move to
    the weekend happens, only the shift by one day. *)
Theorem weekend_slot_sunday_passed (time_slot : string) (now : Z) (timing_context : string)
    (hour minute : Z) :
  parse_slot time_slot = Ok (hour, minute) -> (0 <= hour <= 23)%Z -> (0 <= minute <= 59)%Z ->
  (0 <= now)%Z -> (now + 7 * US_PER_DAY < DT_END)%Z ->
  contains "weekend" timing_context = true -> weekday now = 6%Z ->
  (hour * US_PER_HOUR + minute * US_PER_MIN <= now mod US_PER_DAY)%Z ->
  exists t, calculate_optimal_slot_time time_slot now timing_context = Ok t /\
            day_of t = (day_of now + 1)%Z /\
            weekday t = 0%Z /\ hour_of t = hour /\ minute_of t = minute.
Proof.
  intros Hp Hh Hm H0 H1 Hc Hw Hpassed.
  unfold calculate_optimal_slot_time. rewrite Hp, replace_hm_ok by auto.
  rewrite Hc, Hw. replace (6 <? 5)%Z with false by reflexivity. cbn [andb].
  destruct (day_bounds now H0) as [Hd [Hlo [Hw' Hdw]]].
  assert (Hnow : now = (day_of now * US_PER_DAY + now mod US_PER_DAY)%Z)
    by (unfold day_of; rewrite Z.mul_comm; apply Z.div_mod; unfold US_PER_DAY; lia).
  replace (day_of now * US_PER_DAY + hour * US_PER_HOUR + minute * US_PER_MIN <=? now)%Z
    with true by (symmetry; apply Z.leb_le; lia).
  rewrite add_td_ok by (unfold DT_END, US_PER_DAY, US_PER_HOUR, US_PER_MIN in *; lia).
  eexists. split; [reflexivity |].
  replace (day_of now * US_PER_DAY + hour * US_PER_HOUR + minute * US_PER_MIN + US_PER_DAY)%Z
    with ((day_of now + 1) * US_PER_DAY + hour * US_PER_HOUR + minute * US_PER_MIN)%Z by ring.
  destruct (hour_minute_of (day_of now + 1) hour minute Hh Hm) as [-> ->].
  assert (Hday : day_of ((day_of now + 1) * US_PER_DAY + hour * US_PER_HOUR
                         + minute * US_PER_MIN) = (day_of now + 1)%Z)
    by (rewrite <- Z.add_assoc, day_of_add by (unfold US_PER_DAY, US_PER_HOUR, US_PER_MIN; lia);
        reflexivity).
  split; [exact Hday | split; [| split; reflexivity]].
  unfold weekday at 1. rewrite Hday.
  rewrite Hdw at 1. rewrite Hw.
  replace (7 * (day_of now / 7) + 6 + 1)%Z with (0 + (day_of now / 7 + 1) * 7)%Z by ring.
  rewrite Z.mod_add by lia. reflexivity.
Qed.

Definition slot_ok (slot : string) : bool :=
  match parse_slot slot with
  | Ok (h, m) => (0 <=? h)%Z && (h <=? 23)%Z && (0 <=? m)%Z && (m <=? 59)%Z
  | Exn _ => false
  end.

Definition count_suggestions (p : Platform) (l : list Suggestion) : nat :=
  length (filter (fun s => platform_eqb p (sugg_platform s)) l).

Lemma slot_ok_spec (slot : string) : slot_ok slot = true ->
  exists h m, parse_slot slot = Ok (h, m) /\ (0 <= h <= 23)%Z /\ (0 <= m <= 59)%Z.
Proof.
  unfold slot_ok. destruct (parse_slot slot) as [e | [h m]]; [discriminate |].
  intros H. rewrite !andb_true_iff, !Z.leb_le in H. exists h, m. repeat split; tauto.
Qed.

Lemma lookup_in {V} (k : string) (m : list (string * V)) (v : V) :
  lookup k m = Some v -> In (k, v) m.
Proof.
  induction m as [| [k' w] m IH]; cbn; [discriminate |].
  destruct (String.eqb k k') eqn:E.
  - intros H. inversion H; subst. apply String.eqb_eq in E. subst. left. reflexivity.
  - intros H. right. auto.
Qed.

Lemma optimal_times_ok (p : Platform) (key : string) :
  key <> "breaking_news" -> forallb slot_ok (optimal_times p key) = true.
Proof.
  intros Hk. unfold optimal_times.
  destruct p; cbn [get PLATFORM_OPTIMAL_TIMES platform_eqb];
    (destruct (lookup key _) as [ts |] eqn:E; [| vm_compute; reflexivity]);
    apply lookup_in in E; cbn in E;
    repeat (destruct E as [E | E]; [inversion E; subst; solve [vm_compute; reflexivity | congruence] |]);
    destruct E.
Qed.

Lemma optimal_times_nonempty (p : Platform) (key : string) :
  optimal_times p key = [] -> p = linkedin /\ key = "weekend".
Proof.
  unfold optimal_times.
  destruct p; cbn [get PLATFORM_OPTIMAL_TIMES platform_eqb];
    (destruct (lookup key _) as [ts |] eqn:E; [| discriminate]);
    apply lookup_in in E; cbn in E;
    repeat (destruct E as [E | E]; [inversion E; subst; solve [discriminate | auto] |]);
    destruct E.
Qed.

Ltac decide_ifs :=
  repeat match goal with |- context [if ?b then _ else _] => destruct b end.

Lemma platform_timing_key_facts (p : Platform) (content_type : string) (now : Z) :
  platform_timing_key p content_type now <> "immediate" /\
  (platform_timing_key p content_type now = "breaking_news" ->
   content_type = "breaking_news" /\ p = twitter) /\
  (p = linkedin -> platform_timing_key p content_type now <> "weekend").
Proof.
  unfold platform_timing_key, get_default_timing_key.
  destruct (lookup content_type CONTENT_TYPE_PREFERENCES) as [[ps d] |] eqn:E.
  - apply lookup_in in E. cbn in E.
    repeat (destruct E as [E | E];
            [inversion E; subst; destruct p; cbn [get platform_eqb str_nonempty];
             decide_ifs; repeat split; intros; subst; try discriminate; reflexivity |]).
    destruct E.
  - destruct p; decide_ifs; repeat split; intros; subst; discriminate.
Qed.

(** X18: The immediate-posting branch of [_get_context_aware_suggestions] is
    never taken: no platform and content type get the timing key immediate, so
    every call goes through the loop over the first two optimal slots. *)
Theorem get_context_aware_suggestions_no_immediate (platform : Platform) (content_type : string)
    (now : Z) (used : list (Z * Z * Z)) (regulated_industry : option string) :
  get_context_aware_suggestions platform content_type now used regulated_industry
  = slots_loop platform content_type (platform_timing_key platform content_type now) now
      regulated_industry
      (firstn 2 (optimal_times platform (platform_timing_key platform content_type now))) used.
Proof.
  unfold get_context_aware_suggestions. cbv zeta.
  destruct (platform_timing_key_facts platform content_type now) as [Hi _].
  rewrite (proj2 (String.eqb_neq _ _) Hi). reflexivity.
Qed.

Lemma forallb_firstn {A} (f : A -> bool) n (l : list A) :
  forallb f l = true -> forallb f (firstn n l) = true.
Proof.
  rewrite !forallb_forall. intros H x Hx. apply H.
  rewrite <- (firstn_skipn n l). apply in_or_app. left. exact Hx.
Qed.

Lemma slots_loop_ok (p : Platform) (content_type key : string) (now : Z)
    (regulated_industry : option string) (slots : list string) :
  forallb slot_ok slots = true -> (0 <= now)%Z -> (now + 7 * US_PER_DAY < DT_END)%Z ->
  forall used, exists sugs used',
    slots_loop p content_type key now regulated_industry slots used = Ok (sugs, used') /\
    length sugs = length slots /\
    Forall (fun s => sugg_platform s = p /\ (now < sugg_time s < now + 7 * US_PER_DAY)%Z) sugs.
Proof.
  intros Hs H0 H1. induction slots as [| slot slots IH]; intros used.
  - exists [], used. split; [reflexivity | split; [reflexivity | constructor]].
  - cbn [forallb] in Hs. apply andb_true_iff in Hs as [Hs1 Hs2].
    destruct (slot_ok_spec slot Hs1) as [h [m [Hp [Hh Hm]]]].
    destruct (calculate_optimal_slot_time_bounds_aux slot now key h m Hp Hh Hm H0 H1)
      as [t [Ht Hb]].
    cbn [slots_loop]. rewrite Ht.
    assert (Hsh : exists t', (if key_mem (slot_key t) used then
                    add_td t ((match p with twitter => 1 | _ => 2 end) * US_PER_HOUR)%Z
                  else Ok t) = Ok t' /\ (now < t' < now + 7 * US_PER_DAY)%Z).
    { destruct (key_mem (slot_key t) used).
      - rewrite add_td_ok by (destruct p; unfold DT_END, US_PER_DAY, US_PER_HOUR in *; lia).
        eexists. split; [reflexivity |]. destruct p; unfold US_PER_DAY, US_PER_HOUR in *; lia.
      - eexists. split; [reflexivity | unfold US_PER_DAY in *; lia]. }
    destruct Hsh as [t' [-> Hb']].
    destruct (IH Hs2 (key_add (slot_key t') used)) as [sugs [used' [E [L F]]]].
    rewrite E. exists (mkSugg p t' (generate_context_rationale p content_type slot regulated_industry) :: sugs), used'.
    split; [reflexivity | split; [cbn; rewrite L; reflexivity |]].
    constructor; [split; [reflexivity | exact Hb'] | exact F].
Qed.

Lemma get_context_aware_suggestions_ok (p : Platform) (content_type : string) (now : Z)
    (used : list (Z * Z * Z)) (regulated_industry : option string) :
  ~ (content_type = "breaking_news" /\ p = twitter) ->
  (0 <= now)%Z -> (now + 7 * US_PER_DAY < DT_END)%Z ->
  exists sugs used',
    get_context_aware_suggestions p content_type now used regulated_industry = Ok (sugs, used') /\
    1 <= length sugs <= 2 /\
    Forall (fun s => sugg_platform s = p /\ (now < sugg_time s < now + 7 * US_PER_DAY)%Z) sugs.
Proof.
  intros Hct H0 H1. unfold get_context_aware_suggestions.
  destruct (platform_timing_key_facts p content_type now) as [Hi [Hb Hw]].
  set (key := platform_timing_key p content_type now) in *.
  replace (String.eqb key "immediate") with false by (symmetry; apply String.eqb_neq; exact Hi).
  assert (Hok : forallb slot_ok (firstn 2 (optimal_times p key)) = true).
  { apply forallb_firstn, optimal_times_ok. intros E. apply Hct, Hb, E. }
  destruct (slots_loop_ok p content_type key now regulated_industry _ Hok H0 H1 used)
    as [sugs [used' [E [L F]]]].
  exists sugs, used'. split; [exact E | split; [| exact F]].
  rewrite L, length_firstn.
  destruct (optimal_times p key) eqn:Eo.
  - destruct (optimal_times_nonempty p key Eo) as [-> ->]. exfalso. apply (Hw eq_refl). reflexivity.
  - cbn [length]. lia.
Qed.

Lemma count_suggestions_app (p : Platform) (l1 l2 : list Suggestion) :
  count_suggestions p (l1 ++ l2) = count_suggestions p l1 + count_suggestions p l2.
Proof. unfold count_suggestions. rewrite filter_app, length_app. reflexivity. Qed.

Lemma count_suggestions_one (p q : Platform) (l : list Suggestion) :
  Forall (fun s => sugg_platform s = q) l ->
  count_suggestions p l = if platform_eqb p q then length l else 0.
Proof.
  unfold count_suggestions. induction l as [| s l IH]; intros H.
  - destruct (platform_eqb p q); reflexivity.
  - apply Forall_cons_iff in H as [Hs Hl]. cbn [filter]. rewrite Hs.
    destruct (platform_eqb p q) eqn:E; cbn [length]; rewrite (IH Hl); reflexivity.
Qed.

Lemma platforms_loop_ok (content_type : string) (now : Z) (regulated_industry : option string)
    (platforms : list Platform) :
  content_type <> "breaking_news" -> (0 <= now)%Z -> (now + 7 * US_PER_DAY < DT_END)%Z ->
  forall used, exists l,
    platforms_loop content_type now regulated_industry platforms used = Ok l /\
    Forall (fun s => In (sugg_platform s) platforms /\
                     (now < sugg_time s < now + 7 * US_PER_DAY)%Z) l /\
    length l <= 2 * length platforms /\
    (NoDup platforms -> forall p,
       (In p platforms -> 1 <= count_suggestions p l <= 2) /\
       (~ In p platforms -> count_suggestions p l = 0)).
Proof.
  intros Hct H0 H1. induction platforms as [| q ps IH]; intros used.
  - exists []. split; [reflexivity | split; [constructor | split; [cbn; lia |]]].
    intros _ p. split; [intros [] | reflexivity].
  - cbn [platforms_loop].
    destruct (get_context_aware_suggestions_ok q content_type now used regulated_industry
                (fun H => Hct (proj1 H)) H0 H1)
      as [sugs [used' [E [L F]]]].
    rewrite E. destruct (IH used') as [rest [E2 [F2 [L2 C2]]]]. rewrite E2.
    exists (sugs ++ rest). split; [reflexivity | split; [| split]].
    + apply Forall_app. split.
      * eapply Forall_impl; [| exact F]. intros s [Hs Hb]. split; [left; auto | exact Hb].
      * eapply Forall_impl; [| exact F2]. intros s [Hs Hb]. split; [right; auto | exact Hb].
    + rewrite length_app. cbn [length]. lia.
    + intros Hnd p. inversion Hnd as [| x xs Hq Hnd']; subst.
      rewrite count_suggestions_app.
      assert (Fq : Forall (fun s => sugg_platform s = q) sugs).
      { eapply Forall_impl; [| exact F]. intros s Hs. apply Hs. }
      rewrite (count_suggestions_one p q sugs Fq).
      destruct (C2 Hnd' p) as [Ci Cn].
      destruct (platform_eqb p q) eqn:Epq.
      * apply platform_eqb_iff in Epq. subst q. rewrite (Cn Hq).
        split; [intros _; lia | intros Hn; exfalso; apply Hn; left; reflexivity].
      * assert (Hpq : p <> q) by (intros ->; rewrite platform_eqb_refl in Epq; discriminate).
        split.
        -- intros [-> | Hin]; [congruence | apply Ci in Hin; lia].
        -- intros Hn. apply Cn. intros Hin. apply Hn. right. exact Hin.
Qed.

Lemma insert_by_perm {A} (key : A -> string) (x : A) (l : list A) :
  Permutation (insert_by key x l) (x :: l).
Proof.
  induction l as [| y l IH]; cbn; [reflexivity |].
  destruct (String.compare (key x) (key y)); try reflexivity;
    (etransitivity; [apply perm_skip, IH | apply perm_swap]).
Qed.

Lemma sort_by_perm {A} (key : A -> string) (l : list A) : Permutation (sort_by key l) l.
Proof.
  unfold sort_by.
  assert (H : forall acc, Permutation (fold_left (fun acc x => insert_by key x acc) l acc) (acc ++ l)).
  { induction l as [| x l IH]; intros acc; cbn; [rewrite app_nil_r; reflexivity |].
    rewrite IH. rewrite (insert_by_perm key x acc).
    apply Permutation_middle. }
  apply H.
Qed.

(** Adjacent elements in order of their keys. *)
Fixpoint sorted_by {A} (key : A -> string) (l : list A) : Prop :=
  match l with
  | x :: ((y :: _) as l') => String.compare (key x) (key y) <> Gt /\ sorted_by key l'
  | _ => True
  end.

Definition hd_ok {A} (key : A -> string) (a : A) (l : list A) : Prop :=
  match l with [] => True | b :: _ => String.compare (key a) (key b) <> Gt end.

Lemma sorted_by_cons {A} (key : A -> string) a l :
  sorted_by key (a :: l) <-> hd_ok key a l /\ sorted_by key l.
Proof. destruct l; cbn; tauto. Qed.

Lemma insert_by_hd {A} (key : A -> string) x y l :
  hd_ok key y l -> String.compare (key y) (key x) <> Gt -> hd_ok key y (insert_by key x l).
Proof.
  intros H Hyx. destruct l as [| z l]; cbn; [exact Hyx |].
  destruct (String.compare (key x) (key z)); cbn; auto.
Qed.

Lemma insert_by_sorted {A} (key : A -> string) (x : A) (l : list A) :
  sorted_by key l -> sorted_by key (insert_by key x l).
Proof.
  induction l as [| y l IH]; intros H; cbn; [exact I |].
  apply sorted_by_cons in H as [Hh Hs].
  destruct (String.compare (key x) (key y)) eqn:E.
  - apply sorted_by_cons. split; [| apply IH, Hs].
    apply insert_by_hd; [exact Hh | rewrite String.compare_antisym, E; discriminate].
  - apply sorted_by_cons. split; [cbn; rewrite E; discriminate |].
    apply sorted_by_cons. split; assumption.
  - apply sorted_by_cons. split; [| apply IH, Hs].
    apply insert_by_hd; [exact Hh | rewrite String.compare_antisym, E; discriminate].
Qed.

Lemma sort_by_sorted {A} (key : A -> string) (l : list A) : sorted_by key (sort_by key l).
Proof.
  unfold sort_by.
  assert (H : forall acc, sorted_by key acc ->
                sorted_by key (fold_left (fun acc x => insert_by key x acc) l acc)).
  { induction l as [| x l IH]; intros acc Hacc; cbn; [exact Hacc |].
    apply IH, insert_by_sorted, Hacc. }
  apply H. exact I.
Qed.

Lemma sorted_by_firstn {A} (key : A -> string) n (l : list A) :
  sorted_by key l -> sorted_by key (firstn n l).
Proof.
  revert n. induction l as [| x l IH]; intros n H; destruct n; cbn; try exact I.
  destruct l as [| y l]; destruct n; cbn in *; try exact I.
  destruct H as [Hxy H]. split; [exact Hxy |].
  specialize (IH (S n) H). exact IH.
Qed.

(** X19: [suggest_times] returns its suggestions in ascending order of their
    ISO datetime strings. *)
Theorem suggest_times_sorted isoformat clock default_tz (platforms : list Platform)
    (content_text topic_hint : string) :
  match suggest_times isoformat clock default_tz platforms content_text topic_hint with
  | Ok l => sorted_by (fun s => isoformat (target_timezone default_tz content_text topic_hint)
                                          (sugg_time s)) l
  | Exn _ => True
  end.
Proof.
  unfold suggest_times.
  destruct (platforms_loop _ _ _ platforms []) as [e | l]; [exact I |].
  apply sorted_by_firstn, sort_by_sorted.
Qed.

Definition clock_in_range (clock : string -> Z) : Prop :=
  forall tz, (0 <= clock tz /\ clock tz + 7 * US_PER_DAY < DT_END)%Z.

(** X20: When the content is not breaking news, [suggest_times] returns at
    most six suggestions. Each is for one of the requested platforms and lies
    strictly after the current time and less than seven days after it. *)
Theorem suggest_times_ok isoformat clock default_tz (platforms : list Platform)
    (content_text topic_hint : string) :
  detect_content_type content_text topic_hint <> "breaking_news" ->
  clock_in_range clock ->
  let now := clock (target_timezone default_tz content_text topic_hint) in
  exists l, suggest_times isoformat clock default_tz platforms content_text topic_hint = Ok l /\
    length l <= 6 /\
    Forall (fun s => In (sugg_platform s) platforms /\
                     (now < sugg_time s < now + 7 * US_PER_DAY)%Z) l.
Proof.
  intros Hct Hc now. unfold suggest_times. fold now.
  destruct (Hc (target_timezone default_tz content_text topic_hint)) as [H0 H1].
  destruct (platforms_loop_ok (detect_content_type content_text topic_hint) now
              (detect_regulated_industry content_text topic_hint) platforms Hct H0 H1 [])
    as [l [E [F _]]].
  rewrite E. eexists. split; [reflexivity |].
  replace (String.eqb (detect_content_type content_text topic_hint) "breaking_news") with false
    by (symmetry; apply String.eqb_neq; exact Hct).
  split; [apply firstn_le_length |].
  apply Forall_forall. intros s Hs.
  assert (Hs' : In s (sort_by (fun s => isoformat (target_timezone default_tz content_text topic_hint)
                                                   (sugg_time s)) l)).
  { rewrite <- (firstn_skipn 6 (sort_by _ l)). apply in_or_app. left. exact Hs. }
  apply (Permutation_in _ (sort_by_perm _ l)) in Hs'.
  rewrite Forall_forall in F. apply F, Hs'.
Qed.

Definition BREAKING_NEWS_ERROR : string :=
  "invalid literal for int() with base 10: 'immediate'".

Lemma twitter_breaking_news_fails (now : Z) used reg :
  get_context_aware_suggestions twitter "breaking_news" now used reg = Exn BREAKING_NEWS_ERROR.
Proof. reflexivity. Qed.

Lemma platforms_loop_breaking_news (now : Z) reg (platforms : list Platform) :
  In twitter platforms -> (0 <= now)%Z -> (now + 7 * US_PER_DAY < DT_END)%Z ->
  forall used, platforms_loop "breaking_news" now reg platforms used = Exn BREAKING_NEWS_ERROR.
Proof.
  intros Hin H0 H1. induction platforms as [| p ps IH]; [destruct Hin |].
  intros used. cbn [platforms_loop].
  destruct p.
  - rewrite twitter_breaking_news_fails. reflexivity.
  - destruct (get_context_aware_suggestions_ok linkedin "breaking_news" now used reg)
      as [sugs [used' [E _]]]; [intros [_ H]; discriminate | exact H0 | exact H1 |].
    rewrite E. rewrite IH; [reflexivity |].
    destruct Hin as [H | H]; [discriminate | exact H].
  - destruct (get_context_aware_suggestions_ok instagram "breaking_news" now used reg)
      as [sugs [used' [E _]]]; [intros [_ H]; discriminate | exact H0 | exact H1 |].
    rewrite E. rewrite IH; [reflexivity |].
    destruct Hin as [H | H]; [discriminate | exact H].
Qed.

Lemma suggest_times_breaking_news_twitter_aux isoformat clock default_tz
    (platforms : list Platform) (content_text topic_hint : string) :
  detect_content_type content_text topic_hint = "breaking_news" ->
  In twitter platforms -> clock_in_range clock ->
  suggest_times isoformat clock default_tz platforms content_text topic_hint
  = Exn BREAKING_NEWS_ERROR.
Proof.
  intros Hct Hin Hc. unfold suggest_times. rewrite Hct.
  destruct (Hc (target_timezone default_tz content_text topic_hint)) as [H0 H1].
  rewrite platforms_loop_breaking_news by assumption. reflexivity.
Qed.

(** X21: When the content is detected as breaking news and twitter is among
    the platforms, [suggest_times] raises ValueError(invalid literal for int()
    with base 10: 'immediate'), from the slot immediate of twitter's
    breaking_news times. *)
Theorem suggest_times_breaking_news_twitter isoformat clock default_tz
    (platforms : list Platform) (content_text topic_hint : string) :
  detect_content_type content_text topic_hint = "breaking_news" ->
  In twitter platforms -> clock_in_range clock ->
  suggest_times isoformat clock default_tz platforms content_text topic_hint
  = Exn BREAKING_NEWS_ERROR.
Proof. apply suggest_times_breaking_news_twitter_aux. Qed.

(** X22: For a state whose text is breaking news and whose drafts include
    twitter, the schedule stage of the pipeline records the error
    Context-aware scheduling failed: invalid literal for int() with base 10:
    'immediate' and sets the timings to []. *)
Theorem schedule_breaking_news_twitter isoformat clock default_tz (st : State) :
  detect_content_type (text st) (topic_hint st) = "breaking_news" ->
  In twitter (map fst (drafts st)) -> clock_in_range clock ->
  Graph.schedule (posting_times isoformat clock default_tz) st
  = set_timings (add_error st ("Context-aware scheduling failed: " ++ BREAKING_NEWS_ERROR)) [].
Proof.
  intros Hct Hin Hc. unfold Graph.schedule, posting_times.
  rewrite suggest_times_breaking_news_twitter_aux by assumption. reflexivity.
Qed.

Lemma count_suggestions_perm p (l1 l2 : list Suggestion) :
  Permutation l1 l2 -> count_suggestions p l1 = count_suggestions p l2.
Proof.
  unfold count_suggestions. induction 1; cbn [filter].
  - reflexivity.
  - destruct (platform_eqb p (sugg_platform x)); cbn; congruence.
  - destruct (platform_eqb p (sugg_platform x)), (platform_eqb p (sugg_platform y)); reflexivity.
  - congruence.
Qed.

Lemma NoDup_platforms_length (ps : list Platform) : NoDup ps -> length ps <= 3.
Proof.
  intros H. change 3 with (length [twitter; linkedin; instagram]).
  apply NoDup_incl_length; [exact H |].
  intros [] _; cbn; tauto.
Qed.

(** X23: When the content is not breaking news and the platforms are distinct,
    the limit of six cuts nothing: the result of [suggest_times] is a
    reordering of all the suggestions collected over the platforms. Every
    requested platform gets one or two suggestions and no other platform
    any. *)
Theorem suggest_times_per_platform isoformat clock default_tz (platforms : list Platform)
    (content_text topic_hint : string) :
  detect_content_type content_text topic_hint <> "breaking_news" ->
  NoDup platforms -> clock_in_range clock ->
  exists all l,
    platforms_loop (detect_content_type content_text topic_hint)
      (clock (target_timezone default_tz content_text topic_hint))
      (detect_regulated_industry content_text topic_hint) platforms [] = Ok all /\
    suggest_times isoformat clock default_tz platforms content_text topic_hint = Ok l /\
    Permutation l all /\
    forall p, (In p platforms -> 1 <= count_suggestions p l <= 2) /\
              (~ In p platforms -> count_suggestions p l = 0).
Proof.
  intros Hct Hnd Hc. unfold suggest_times.
  destruct (Hc (target_timezone default_tz content_text topic_hint)) as [H0 H1].
  destruct (platforms_loop_ok (detect_content_type content_text topic_hint)
              (clock (target_timezone default_tz content_text topic_hint))
              (detect_regulated_industry content_text topic_hint) platforms Hct H0 H1 [])
    as [l [E [_ [Hlen Hcnt]]]].
  rewrite E. exists l. eexists. split; [reflexivity | split; [reflexivity |]].
  replace (String.eqb (detect_content_type content_text topic_hint) "breaking_news") with false
    by (symmetry; apply String.eqb_neq; exact Hct).
  pose proof (NoDup_platforms_length platforms Hnd) as Hp.
  rewrite firstn_all2
    by (rewrite (Permutation_length (sort_by_perm _ l)); lia).
  split; [apply sort_by_perm |].
  intros p. rewrite (count_suggestions_perm p _ _ (sort_by_perm _ l)). apply Hcnt, Hnd.
Qed.

Lemma first_match_key (table : list (string * list string)) (t k : string) :
  first_match table t = Some k -> In k (map fst table).
Proof.
  induction table as [| [k' ps] table IH]; cbn; [discriminate |].
  destruct (mentions_any ps t); [intros H; inversion H; left; reflexivity | intros H; right; auto].
Qed.

(** X24: The audience time zone of [suggest_times] never falls back to
    [config.DEFAULT_TZ]: it is always one of US/Eastern, Europe/London,
    Asia/Singapore and Europe/Copenhagen. *)
Theorem target_timezone_known (d1 d2 content_text topic_hint : string) :
  target_timezone d1 content_text topic_hint = target_timezone d2 content_text topic_hint /\
  In (target_timezone d1 content_text topic_hint)
     ["US/Eastern"; "Europe/London"; "Asia/Singapore"; "Europe/Copenhagen"].
Proof.
  unfold target_timezone, detect_audience_geography.
  destruct (first_match AUDIENCE_PATTERNS _) as [k |] eqn:E.
  - apply first_match_key in E. cbn in E.
    destruct E as [<- | [<- | [<- | [<- | [<- | []]]]]]; cbn; tauto.
  - cbn; tauto.
Qed.

(** ** Witnesses of the further properties *)

Lemma enhance_search_query_no_digit_witness :
  enhance_search_query "Remote work is here to stay" = "Remote work is here to stay".
Proof.
  apply enhance_search_query_no_digit. intros c Hc.
  assert (H : forallb (fun c => (nat_of_ascii c <? 128) && negb (is_digit c))
                (list_ascii_of_string "Remote work is here to stay") = true) by reflexivity.
  rewrite forallb_forall in H. specialize (H c Hc).
  apply andb_true_iff in H as [H1 H2]. apply Nat.ltb_lt in H1.
  split; [exact H1 | destruct (is_digit c); [discriminate | reflexivity]].
Defined.

Lemma determine_status_monotone_witness :
  status_rank (determine_status [mkIssue "absolute_claim" minor "m" "s"])
  <= status_rank (determine_status [mkIssue "absolute_claim" minor "m" "s";
                                    mkIssue "profanity" critical "m" "s"]).
Proof. apply determine_status_monotone. intros i [<- | []]. left. reflexivity. Defined.

Lemma review_post_non_strict_never_blocks_witness :
  status (review_post "standard" twitter "We guarantee 100% results, damn" []) <> block.
Proof. apply review_post_non_strict_never_blocks. reflexivity. Defined.

Lemma validate_brand_mentions_idempotent_witness :
  validate_brand_mentions (validate_brand_mentions ["@FDA"; "@acme_corp"; "Nike"])
  = validate_brand_mentions ["@FDA"; "@acme_corp"; "Nike"].
Proof.
  apply validate_brand_mentions_idempotent. intros m Hm.
  repeat (destruct Hm as [<- | Hm]; [reflexivity |]). destruct Hm.
Defined.

Lemma calculate_optimal_slot_time_bounds_witness :
  exists t, calculate_optimal_slot_time "12:00" (739000 * US_PER_DAY + 10 * US_PER_HOUR)%Z
              "tuesday_thursday" = Ok t /\
            (739000 * US_PER_DAY + 10 * US_PER_HOUR < t
             < 739000 * US_PER_DAY + 10 * US_PER_HOUR + 6 * US_PER_DAY)%Z.
Proof.
  apply (calculate_optimal_slot_time_bounds "12:00" _ "tuesday_thursday" 12 0);
    [reflexivity | lia | lia | unfold US_PER_DAY, US_PER_HOUR; lia
    | unfold DT_END, US_PER_DAY, US_PER_HOUR; lia].
Defined.

Lemma weekend_slot_on_saturday_witness :
  exists t, calculate_optimal_slot_time "10:00" (739000 * US_PER_DAY + 10 * US_PER_HOUR)%Z
              "weekend_morning" = Ok t /\
            day_of t = (day_of (739000 * US_PER_DAY + 10 * US_PER_HOUR)
                        + (5 - weekday (739000 * US_PER_DAY + 10 * US_PER_HOUR)))%Z /\
            weekday t = 5%Z /\ hour_of t = 10%Z /\ minute_of t = 0%Z.
Proof.
  apply weekend_slot_on_saturday;
    [reflexivity | lia | lia | unfold US_PER_DAY, US_PER_HOUR; lia
    | unfold DT_END, US_PER_DAY, US_PER_HOUR; lia | reflexivity | vm_compute; reflexivity].
Defined.

Lemma weekend_slot_sunday_passed_witness :
  exists t, calculate_optimal_slot_time "10:00" (739003 * US_PER_DAY + 20 * US_PER_HOUR)%Z
              "weekend_morning" = Ok t /\
            day_of t = (day_of (739003 * US_PER_DAY + 20 * US_PER_HOUR) + 1)%Z /\
            weekday t = 0%Z /\ hour_of t = 10%Z /\ minute_of t = 0%Z.
Proof.
  apply weekend_slot_sunday_passed;
    [reflexivity | lia | lia | unfold US_PER_DAY, US_PER_HOUR; lia
    | unfold DT_END, US_PER_DAY, US_PER_HOUR; lia | reflexivity | vm_compute; reflexivity
    | vm_compute; discriminate].
Defined.

(** A fixed clock, ten o'clock on day 739000 (a Thursday), and a stand-in
    for [datetime.isoformat]. *)
Definition clock_fixed (_ : string) : Z := (739000 * US_PER_DAY + 10 * US_PER_HOUR)%Z.
Definition iso_stub (tz : string) (t : Z) : string := tz.

Lemma clock_fixed_in_range : clock_in_range clock_fixed.
Proof. intros tz. unfold clock_fixed, DT_END, US_PER_DAY, US_PER_HOUR. lia. Qed.

Lemma suggest_times_ok_witness :
  exists l, suggest_times iso_stub clock_fixed "UTC" [twitter; linkedin]
              "A new study in London" "" = Ok l /\
    length l <= 6 /\
    Forall (fun s => In (sugg_platform s) [twitter; linkedin] /\
                     (clock_fixed "Europe/London" < sugg_time s
                      < clock_fixed "Europe/London" + 7 * US_PER_DAY)%Z) l.
Proof.
  apply suggest_times_ok; [vm_compute; discriminate | exact clock_fixed_in_range].
Defined.

Lemma suggest_times_per_platform_witness :
  exists all l,
    platforms_loop (detect_content_type "A new study in London" "")
      (clock_fixed (target_timezone "UTC" "A new study in London" ""))
      (detect_regulated_industry "A new study in London" "") [twitter; linkedin] [] = Ok all /\
    suggest_times iso_stub clock_fixed "UTC" [twitter; linkedin]
      "A new study in London" "" = Ok l /\
    Permutation l all /\
    forall p, (In p [twitter; linkedin] -> 1 <= count_suggestions p l <= 2) /\
              (~ In p [twitter; linkedin] -> count_suggestions p l = 0).
Proof.
  apply suggest_times_per_platform;
    [vm_compute; discriminate | | exact clock_fixed_in_range].
  repeat constructor; cbn; intuition discriminate.
Defined.

Lemma suggest_times_breaking_news_twitter_witness :
  suggest_times iso_stub clock_fixed "UTC" [linkedin; twitter]
    "Breaking: a new release" "" = Exn BREAKING_NEWS_ERROR.
Proof.
  apply suggest_times_breaking_news_twitter;
    [reflexivity | right; left; reflexivity | exact clock_fixed_in_range].
Defined.

Lemma schedule_breaking_news_twitter_witness :
  let st := mkState "Breaking: a new release" EmptyString [] [(twitter, post_tw "x")]
              [] [] [] [] [] in
  Graph.schedule (posting_times iso_stub clock_fixed "UTC") st
  = set_timings (add_error st ("Context-aware scheduling failed: " ++ BREAKING_NEWS_ERROR)) [].
Proof.
  intros st. apply schedule_breaking_news_twitter;
    [reflexivity | left; reflexivity | exact clock_fixed_in_range].
Defined.
